(** * Contact manager (address book assistant): model and verified properties

    A shallow embedding of [main.py]: the validated fields ([Name], [Phone],
    [Birthday]), [Record], [AddressBook], the command handlers wrapped by
    [input_error], and the upcoming-birthdays computation, together with the
    part of Python's run-time library they rely on (proleptic Gregorian
    [date] arithmetic, [re] matching of the star-free patterns in use,
    [strptime]/[strftime] for the directives in use, [str]/[repr] of
    exceptions).

    Conventions.
    - A Python [str] is a sequence of code points.  The library functions
      whose result depends on the class of a character ([re] matching,
      [int], [strptime]) and the validated fields [Phone] and [Birthday]
      are modelled on strings of any code points ([ustr]); the decimal
      digits are those of the Unicode database of CPython 3.11 (version
      14.0).  The command-line layer ([split], [lower], [repr], the
      handlers and [main]) handles strings of code points below 256,
      carried by [string].
    - A Python [int] is [Z].
    - The run-time library behaves as CPython 3.11 does (patterns of
      [_strptime], messages of exceptions).
    - A [date] is a triple of integers; Python only ever builds dates that
      pass its range check, which is the predicate [valid_date] here.  The
      stored birthday is a [datetime] at midnight; only its date part is ever
      read, so it is modelled by its date.
    - [datetime.today()] is an input of the model (the argument [today]),
      and so is what the C library prints for the directive [%Y] (the
      argument [libc]).
    - A raised exception is a value of [exn]; code that mutates the book and
      then raises returns the mutated book together with the exception. *)

From Stdlib Require Import ZArith List String Ascii Bool Lia.
Import ListNotations.
Local Open Scope string_scope.
Local Open Scope Z_scope.

(** ** Exceptions and results *)

Inductive exn : Type :=
| ValueError (msg : string)
| KeyError (msg : string)
| IndexError (msg : string)
| OverflowError (msg : string).

Inductive result (A : Type) : Type :=
| Ok (a : A)
| Raise (e : exn).
Arguments Ok {A} a.
Arguments Raise {A} e.

Definition rbind {A B} (r : result A) (f : A -> result B) : result B :=
  match r with
  | Ok a => f a
  | Raise e => Raise e
  end.

Notation "x <- r ;; k" := (rbind r (fun x => k))
  (at level 61, r at next level, right associativity).

(** ** Python's [str]: characters, decimal numerals, [repr], [int] *)

Module PyStr.

(** [ord] *)
Definition ord (c : ascii) : Z := Z.of_N (N_of_ascii c).

(** [chr], for code points below 256 *)
Definition chr (n : Z) : ascii := ascii_of_N (Z.to_N n).

Definition in_range (lo hi c : ascii) : bool :=
  (ord lo <=? ord c) && (ord c <=? ord hi).

(** The digits [0] to [9]: the decimal digits among the code points below
    256. *)
Definition is_digit (c : ascii) : bool := in_range "0" "9" c.

Definition digit_value (c : ascii) : Z := ord c - 48.

Definition digit_char (n : Z) : ascii := chr (48 + n).

(** [str.isspace] on code points below 256. *)
Definition is_space (c : ascii) : bool :=
  let n := ord c in
  ((9 <=? n) && (n <=? 13)) || ((28 <=? n) && (n <=? 32))
  || (n =? 133) || (n =? 160).

Definition NL : string := String (chr 10) "".
Definition DQUOTE : ascii := chr 34.

Fixpoint all_chars (p : ascii -> bool) (s : string) : bool :=
  match s with
  | EmptyString => true
  | String c s' => p c && all_chars p s'
  end.

Fixpoint contains_char (c : ascii) (s : string) : bool :=
  match s with
  | EmptyString => false
  | String c' s' => Ascii.eqb c c' || contains_char c s'
  end.

(** [sep.join(xs)] *)
Definition join (sep : string) (xs : list string) : string := String.concat sep xs.

(** The decimal numeral of a non-negative integer, most significant digit
    first; [fuel] bounds the number of digits. *)
Fixpoint decimal_digits (fuel : nat) (n : Z) (acc : string) : string :=
  let acc' := String (digit_char (n mod 10)) acc in
  match fuel with
  | O => acc'
  | S fuel' => if n <? 10 then acc' else decimal_digits fuel' (n / 10) acc'
  end.

(** [str(n)] for an integer [n] *)
Definition decimal (n : Z) : string :=
  if n <? 0 then "-" ++ decimal_digits (Z.to_nat (Z.log2 (- n))) (- n) ""
  else decimal_digits (Z.to_nat (Z.log2 n)) n "".

(** [s.rjust(w, "0")] *)
Definition zero_pad (w : nat) (s : string) : string :=
  string_of_list_ascii (repeat "0"%char (w - String.length s)) ++ s.

(** The conversions ["%02d"] and ["%04d"] of a non-negative integer. *)
Definition fmt_02d (n : Z) : string := zero_pad 2 (decimal n).
Definition fmt_04d (n : Z) : string := zero_pad 4 (decimal n).

Definition hex_digit (n : Z) : ascii :=
  if n <? 10 then chr (48 + n) else chr (87 + n).

(** [str.isprintable] for one code point below 256. *)
Definition is_printable (c : ascii) : bool :=
  let n := ord c in
  ((32 <=? n) && (n <=? 126)) || ((161 <=? n) && negb (n =? 173)).

Definition repr_char (quote c : ascii) : string :=
  let n := ord c in
  if Ascii.eqb c quote || Ascii.eqb c "\"%char then String "\"%char (String c "")
  else if n =? 9 then "\t"
  else if n =? 10 then "\n"
  else if n =? 13 then "\r"
  else if is_printable c then String c ""
  else String "\"%char (String "x"%char
         (String (hex_digit (n / 16)) (String (hex_digit (n mod 16)) ""))).

Fixpoint repr_body (quote : ascii) (s : string) : string :=
  match s with
  | EmptyString => ""
  | String c s' => repr_char quote c ++ repr_body quote s'
  end.

(** [repr(s)] for a string [s]: single quotes, unless the string has a
    single quote and no double quote. *)
Definition repr (s : string) : string :=
  let quote : ascii :=
    if contains_char "'"%char s && negb (contains_char DQUOTE s)
    then DQUOTE else "'"%char in
  String quote (repr_body quote s ++ String quote "").

Fixpoint lstrip (s : string) : string :=
  match s with
  | String c s' => if is_space c then lstrip s' else s
  | EmptyString => ""
  end.

Definition rev_string (s : string) : string :=
  string_of_list_ascii (rev (list_ascii_of_string s)).

(** [s.strip()] *)
Definition strip (s : string) : string :=
  rev_string (lstrip (rev_string (lstrip s))).

(** *** Strings of any code points *)

Definition ustr : Type := list Z.

(** The characters of a string of code points below 256. *)
Definition string_code_points (s : string) : ustr :=
  map ord (list_ascii_of_string s).

(** The string of a list of code points below 256. *)
Definition narrow (u : ustr) : string :=
  string_of_list_ascii (map chr u).

(** The decimal digits of Unicode 14.0 come in blocks of ten consecutive
    code points, the digits 0 to 9 of one script in order; these are the
    zeros of the blocks. *)
Definition DECIMAL_ZEROS : list Z :=
  [48; 1632; 1776; 1984; 2406; 2534; 2662; 2790; 2918; 3046; 3174; 3302;
   3430; 3558; 3664; 3792; 3872; 4160; 4240; 6112; 6160; 6470; 6608; 6784;
   6800; 6992; 7088; 7232; 7248; 42528; 43216; 43264; 43472; 43504; 43600;
   44016; 65296; 66720; 68912; 69734; 69872; 69942; 70096; 70384; 70736;
   70864; 71248; 71360; 71472; 71904; 72016; 72784; 73040; 73120; 92768;
   92864; 93008; 120782; 120792; 120802; 120812; 120822; 123200; 123632;
   125264; 130032].

Definition decimal_zero (c : Z) : option Z :=
  find (fun z => (z <=? c) && (c <? z + 10)) DECIMAL_ZEROS.

(** [str.isdecimal] for one code point, which is the class [\d] of [re] on
    a [str] pattern. *)
Definition is_decimal (c : Z) : bool :=
  match decimal_zero c with
  | Some _ => true
  | None => false
  end.

(** The value of a decimal digit. *)
Definition decimal_value (c : Z) : Z :=
  match decimal_zero c with
  | Some z => c - z
  | None => 0
  end.

(** The white space [int] ignores around a numeral: the white space of
    ASCII and the white space beyond it, but not the separators U+001C to
    U+001F, which [str.isspace] takes as well. *)
Definition INT_SPACES : list Z :=
  [9; 10; 11; 12; 13; 32; 133; 160; 5760; 8192; 8193; 8194; 8195; 8196;
   8197; 8198; 8199; 8200; 8201; 8202; 8232; 8233; 8239; 8287; 12288].

Definition is_int_space (c : Z) : bool := existsb (Z.eqb c) INT_SPACES.

Fixpoint int_lstrip (u : ustr) : ustr :=
  match u with
  | c :: u' => if is_int_space c then int_lstrip u' else u
  | [] => []
  end.

Definition int_strip (u : ustr) : ustr :=
  rev (int_lstrip (rev (int_lstrip u))).

(** The value of digits that follow the digits of value [acc]; a single
    underscore may stand between two digits. *)
Fixpoint digits_value (acc : Z) (u : ustr) : option Z :=
  match u with
  | [] => Some acc
  | c :: u' =>
      if is_decimal c then digits_value (10 * acc + decimal_value c) u'
      else if c =? 95 then
        match u' with
        | d :: _ => if is_decimal d then digits_value acc u' else None
        | [] => None
        end
      else None
  end.

(** [int(s)] for a string [s]: surrounding white space is ignored, an
    optional sign is followed by decimal digits, the first of them a
    digit, and at most 4300 of them.  [None] stands for the
    [ValueError]. *)
Definition int (s : ustr) : option Z :=
  let unsigned (t : ustr) : option Z :=
    match t with
    | c :: _ =>
        if is_decimal c
           && (Z.of_nat (List.length (filter is_decimal t)) <=? 4300)
        then digits_value 0 t else None
    | [] => None
    end in
  match int_strip s with
  | [] => None
  | c :: t =>
      if c =? 45 then option_map Z.opp (unsigned t)
      else if c =? 43 then unsigned t
      else unsigned (c :: t)
  end.

End PyStr.
Import PyStr.

(** A carrier of Python strings: [ustr] for the strings of any code
    points, [string] for those of code points below 256.  A definition
    made for every carrier is the function on every Python string. *)
Class Str (S : Type) : Type := code_points : S -> ustr.

#[global] Instance Str_ustr : Str ustr := fun u => u.

#[global] Instance Str_string : Str string := string_code_points.

(** ** Python's [date]: the proleptic Gregorian calendar of [datetime] *)

Module PyDate.

Record date : Type := mkdate { year : Z; month : Z; day : Z }.

Definition MINYEAR : Z := 1.
Definition MAXYEAR : Z := 9999.
Definition MAXORDINAL : Z := 3652059.

(** [_is_leap] *)
Definition is_leap (y : Z) : bool :=
  (y mod 4 =? 0) && (negb (y mod 100 =? 0) || (y mod 400 =? 0)).

(** [_DAYS_IN_MONTH] *)
Definition DAYS_IN_MONTH (m : Z) : Z :=
  match m with
  | 1 => 31 | 2 => 28 | 3 => 31 | 4 => 30 | 5 => 31 | 6 => 30
  | 7 => 31 | 8 => 31 | 9 => 30 | 10 => 31 | 11 => 30 | 12 => 31
  | _ => 0
  end.

(** [_DAYS_BEFORE_MONTH] *)
Definition DAYS_BEFORE_MONTH (m : Z) : Z :=
  match m with
  | 1 => 0 | 2 => 31 | 3 => 59 | 4 => 90 | 5 => 120 | 6 => 151
  | 7 => 181 | 8 => 212 | 9 => 243 | 10 => 273 | 11 => 304 | 12 => 334
  | _ => 0
  end.

(** [_days_in_month] *)
Definition days_in_month (y m : Z) : Z :=
  if (m =? 2) && is_leap y then 29 else DAYS_IN_MONTH m.

(** [_days_before_month] *)
Definition days_before_month (y m : Z) : Z :=
  DAYS_BEFORE_MONTH m + (if (2 <? m) && is_leap y then 1 else 0).

(** [_days_before_year] *)
Definition days_before_year (y : Z) : Z :=
  let y1 := y - 1 in
  y1 * 365 + y1 / 4 - y1 / 100 + y1 / 400.

(** [_ymd2ord] and [date.toordinal] *)
Definition ymd2ord (y m d : Z) : Z :=
  days_before_year y + days_before_month y m + d.

Definition toordinal (d : date) : Z := ymd2ord (year d) (month d) (day d).

(** The range check of the [date] constructor ([_check_date_fields]),
    with the message each failure carries. *)
Definition check_date_fields (y m d : Z) : result date :=
  if negb ((MINYEAR <=? y) && (y <=? MAXYEAR)) then
    Raise (ValueError ("year " ++ decimal y ++ " is out of range"))
  else if negb ((1 <=? m) && (m <=? 12)) then
    Raise (ValueError "month must be in 1..12")
  else if negb ((1 <=? d) && (d <=? days_in_month y m)) then
    Raise (ValueError "day is out of range for month")
  else Ok (mkdate y m d).

Definition valid_ymd (y m d : Z) : bool :=
  (MINYEAR <=? y) && (y <=? MAXYEAR) && (1 <=? m) && (m <=? 12)
  && (1 <=? d) && (d <=? days_in_month y m).

Definition valid_date (d : date) : bool := valid_ymd (year d) (month d) (day d).

(** [date.replace(year=y)] *)
Definition replace_year (d : date) (y : Z) : result date :=
  check_date_fields y (month d) (day d).

(** Comparison of dates is comparison of [(year, month, day)]. *)
Definition date_ltb (a b : date) : bool :=
  (year a <? year b)
  || ((year a =? year b)
      && ((month a <? month b)
          || ((month a =? month b) && (day a <? day b)))).

Definition date_eqb (a b : date) : bool :=
  (year a =? year b) && (month a =? month b) && (day a =? day b).

(** [(a - b).days] *)
Definition sub_days (a b : date) : Z := toordinal a - toordinal b.

(** [date.weekday]: Monday is 0, Sunday is 6. *)
Definition weekday (d : date) : Z := (toordinal d + 6) mod 7.

(** [_ord2ymd] and [date.fromordinal] *)
Definition DI400Y : Z := 146097.
Definition DI100Y : Z := 36524.
Definition DI4Y : Z := 1461.

Definition ord2ymd (n0 : Z) : date :=
  let n := n0 - 1 in
  let n400 := n / DI400Y in
  let n := n mod DI400Y in
  let y := n400 * 400 + 1 in
  let n100 := n / DI100Y in
  let n := n mod DI100Y in
  let n4 := n / DI4Y in
  let n := n mod DI4Y in
  let n1 := n / 365 in
  let n := n mod 365 in
  let y := y + n100 * 100 + n4 * 4 + n1 in
  if (n1 =? 4) || (n100 =? 4) then mkdate (y - 1) 12 31
  else
    let leapyear := (n1 =? 3) && (negb (n4 =? 24) || (n100 =? 3)) in
    let m := Z.shiftr (n + 50) 5 in
    let preceding := DAYS_BEFORE_MONTH m + (if (2 <? m) && leapyear then 1 else 0) in
    let '(m, preceding) :=
      if n <? preceding
      then (m - 1, preceding - (DAYS_IN_MONTH (m - 1)
                                + (if (m - 1 =? 2) && leapyear then 1 else 0)))
      else (m, preceding) in
    mkdate y m (n - preceding + 1).

(** [date + timedelta(days=k)] *)
Definition add_days (d : date) (k : Z) : result date :=
  let o := toordinal d + k in
  if (0 <? o) && (o <=? MAXORDINAL) then Ok (ord2ymd o)
  else Raise (OverflowError "date value out of range").

End PyDate.
Import PyDate.


(** ** Python's [re]: star-free patterns with named groups

    The patterns of the program ([\d{10}] and the patterns [_strptime] builds
    from a format) use literals, classes, concatenation, alternation and
    named groups only.  [rmatch] is the backtracking matcher of [re]: an
    alternation tries its branches from left to right and commits to the
    first one with which the rest of the pattern (the continuation [k])
    succeeds. *)

Module PyRe.

Inductive regex : Type :=
| Empty
| Lit (c : ascii)
| Range (lo hi : ascii)
| Digit
| Cat (r1 r2 : regex)
| Alt (r1 r2 : regex)
| Group (name : string) (r : regex).

Definition groups : Type := list (string * ustr).

(** The text consumed between two positions of the subject. *)
Definition consumed (s rest : ustr) : ustr :=
  firstn (List.length s - List.length rest) s.

(** The subject is a string of any code points: a literal and a range of
    the pattern compare code points, and [\d] takes a decimal digit of
    any script. *)
Fixpoint rmatch {A : Type} (r : regex) (s : ustr) (g : groups)
    (k : ustr -> groups -> option A) : option A :=
  match r with
  | Empty => k s g
  | Lit c =>
      match s with
      | c' :: s' => if ord c =? c' then k s' g else None
      | [] => None
      end
  | Range lo hi =>
      match s with
      | c' :: s' =>
          if (ord lo <=? c') && (c' <=? ord hi) then k s' g else None
      | [] => None
      end
  | Digit =>
      match s with
      | c' :: s' => if is_decimal c' then k s' g else None
      | [] => None
      end
  | Cat r1 r2 => rmatch r1 s g (fun s' g' => rmatch r2 s' g' k)
  | Alt r1 r2 =>
      match rmatch r1 s g k with
      | Some a => Some a
      | None => rmatch r2 s g k
      end
  | Group name r =>
      rmatch r s g (fun s' g' => k s' ((name, consumed s s') :: g'))
  end.

(** [r{n}] *)
Fixpoint times (n : nat) (r : regex) : regex :=
  match n with
  | O => Empty
  | S n' => Cat r (times n' r)
  end.

(** [pattern.match(s)]: the groups and the unmatched rest of [s]. *)
Definition re_match (r : regex) (s : ustr) : option (groups * ustr) :=
  rmatch r s [] (fun rest g => Some (g, rest)).

(** [pattern.fullmatch(s)] *)
Definition fullmatch (r : regex) (s : ustr) : option groups :=
  rmatch r s [] (fun rest g =>
    match rest with [] => Some g | _ => None end).

Fixpoint group (name : string) (g : groups) : option ustr :=
  match g with
  | [] => None
  | (n, v) :: g' => if String.eqb n name then Some v else group name g'
  end.

End PyRe.
Import PyRe.

(** ** [strptime] and [strftime] for the directives [%d], [%m], [%Y] *)

Module PyTime.

(** The entries of [TimeRE] for the three directives. *)
Definition re_d : regex :=
  Group "d"
    (Alt (Cat (Lit "3") (Range "0" "1"))
    (Alt (Cat (Range "1" "2") Digit)
    (Alt (Cat (Lit "0") (Range "1" "9"))
    (Alt (Range "1" "9")
         (Cat (Lit " ") (Range "1" "9")))))).

Definition re_m : regex :=
  Group "m"
    (Alt (Cat (Lit "1") (Range "0" "2"))
    (Alt (Cat (Lit "0") (Range "1" "9"))
         (Range "1" "9"))).

Definition re_Y : regex := Group "Y" (times 4 Digit).

(** A character of a format that stands for itself and for nothing else:
    a punctuation mark or a digit of ASCII.  (A letter would match in
    either case, since [_strptime] compiles its pattern with
    [re.IGNORECASE].) *)
Definition is_plain (c : ascii) : bool :=
  let n := ord c in
  ((33 <=? n) && (n <=? 64) && negb (n =? 37))
  || ((91 <=? n) && (n <=? 96)) || ((123 <=? n) && (n <=? 126)).

(** [TimeRE.pattern]: a directive becomes its pattern, a plain character
    a literal.  A format with anything else (white space, a letter,
    another directive) is outside this model ([None]). *)
Fixpoint pattern (format : string) : option regex :=
  match format with
  | EmptyString => Some Empty
  | String "%" (String d rest) =>
      match pattern rest with
      | None => None
      | Some r =>
          if Ascii.eqb d "d" then Some (Cat re_d r)
          else if Ascii.eqb d "m" then Some (Cat re_m r)
          else if Ascii.eqb d "Y" then Some (Cat re_Y r)
          else None
      end
  | String c rest =>
      if is_plain c then
        match pattern rest with
        | None => None
        | Some r => Some (Cat (Lit c) r)
        end
      else None
  end.

(** The [ValueError]s of [strptime], by kind: the format is outside the
    model; the string does not match the pattern of the format; text is
    left after the match; a group is no numeral; the numbers are no
    date. *)
Inductive strptime_error : Type :=
| bad_directive
| no_match
| unconverted (rest : ustr)
| bad_int (text : ustr)
| bad_date (e : exn).

Definition group_int (name : string) (default : Z) (g : groups)
    : strptime_error + Z :=
  match group name g with
  | Some v =>
      match int v with
      | Some n => inr n
      | None => inl (bad_int v)
      end
  | None => inr default
  end.

(** [datetime.strptime(data_string, format)] on a string of any code
    points, for a format [pattern] translates; the result is the date of
    the [datetime] at midnight.  A group that matched holds digits after
    an optional space, so [int] converts it, in whatever order the groups
    are visited. *)
Definition strptime_any (data_string : ustr) (format : string)
    : strptime_error + date :=
  match pattern format with
  | None => inl bad_directive
  | Some format_regex =>
      match re_match format_regex data_string with
      | None => inl no_match
      | Some (found, rest) =>
          match rest with
          | _ :: _ => inl (unconverted rest)
          | [] =>
              match group_int "Y" 1900 found with
              | inl e => inl e
              | inr y =>
                  match group_int "m" 1 found with
                  | inl e => inl e
                  | inr m =>
                      match group_int "d" 1 found with
                      | inl e => inl e
                      | inr d =>
                          match check_date_fields y m d with
                          | Ok value => inr value
                          | Raise e => inl (bad_date e)
                          end
                      end
                  end
              end
          end
      end
  end.

(** [datetime.strptime] on a string of code points below 256, with the
    message of each [ValueError]. *)
Definition strptime (data_string format : string) : result date :=
  match strptime_any (code_points data_string) format with
  | inr value => Ok value
  | inl bad_directive => Raise (ValueError "bad directive in format")
  | inl no_match =>
      Raise (ValueError ("time data " ++ repr data_string
                         ++ " does not match format " ++ repr format))
  | inl (unconverted rest) =>
      Raise (ValueError ("unconverted data remains: " ++ narrow rest))
  | inl (bad_int text) =>
      Raise (ValueError ("invalid literal for int() with base 10: "
                         ++ repr (narrow text)))
  | inl (bad_date e) => Raise e
  end.

(** [strftime] hands [%Y] to the C library.  The C library of Linux
    (glibc) prints the year as it is, so 999 for the year 999; others fill
    it with zeros to four digits, as CPython itself does from 3.13 on.  The
    model keeps both. *)
Inductive c_library : Type :=
| year_as_is
| year_zero_filled.

Definition fmt_Y (libc : c_library) (y : Z) : string :=
  match libc with
  | year_as_is => decimal y
  | year_zero_filled => fmt_04d y
  end.

(** [value.strftime(format)]: [%d] and [%m] print two digits, [%Y] what
    the C library prints; any other character prints as itself. *)
Fixpoint strftime (libc : c_library) (value : date) (format : string)
    : string :=
  match format with
  | EmptyString => ""
  | String "%" (String d rest) =>
      (if Ascii.eqb d "d" then fmt_02d (day value)
       else if Ascii.eqb d "m" then fmt_02d (month value)
       else if Ascii.eqb d "Y" then fmt_Y libc (year value)
       else String "%" (String d ""))
      ++ strftime libc value rest
  | String c rest => String c (strftime libc value rest)
  end.

End PyTime.
Import PyTime.

(** ** Python's [dict] and [sorted]

    A [dict] keeps its keys unique and in insertion order: assigning to a
    present key replaces the value in place, assigning to a new key appends
    an entry. *)

Section PyDict.
Context {K V : Type} (eqb : K -> K -> bool).

Fixpoint dict_get (k : K) (d : list (K * V)) : option V :=
  match d with
  | [] => None
  | (k', v) :: d' => if eqb k' k then Some v else dict_get k d'
  end.

Fixpoint dict_set (k : K) (v : V) (d : list (K * V)) : list (K * V) :=
  match d with
  | [] => [(k, v)]
  | (k', v') :: d' =>
      if eqb k' k then (k', v) :: d' else (k', v') :: dict_set k v d'
  end.

Fixpoint dict_del (k : K) (d : list (K * V)) : list (K * V) :=
  match d with
  | [] => []
  | (k', v') :: d' => if eqb k' k then d' else (k', v') :: dict_del k d'
  end.

(** The value under a key the dictionary has is replaced; nothing is done
    for a key it does not have. *)
Fixpoint dict_update (k : K) (v : V) (d : list (K * V)) : list (K * V) :=
  match d with
  | [] => []
  | (k', v') :: d' =>
      if eqb k' k then (k', v) :: d' else (k', v') :: dict_update k v d'
  end.

Definition dict_keys (d : list (K * V)) : list K := map fst d.
Definition dict_values (d : list (K * V)) : list V := map snd d.
End PyDict.

Section PySorted.
Context {A : Type} (leb : A -> A -> bool).

Fixpoint insert_sorted (x : A) (l : list A) : list A :=
  match l with
  | [] => [x]
  | y :: l' => if leb x y then x :: l else y :: insert_sorted x l'
  end.

(** [sorted(l)]: the stable ascending arrangement of [l]. *)
Definition sorted (l : list A) : list A :=
  fold_right insert_sorted [] l.
End PySorted.

Definition date_leb (a b : date) : bool := negb (date_ltb b a).

(** ** The program: constants *)

Definition PHONE_REGEX : regex := times 10 Digit.

Inductive Command : Type :=
| ADD | CHANGE | PHONE | ALL | ADD_BIRTHDAY | SHOW_BIRTHDAY
| BIRTHDAYS | HELLO | HELP | CLOSE | EXIT.

Definition COMMAND_TEMPLATES (c : Command) : string :=
  match c with
  | ADD => "add <name> <10-digit phone>"
  | CHANGE => "change <name> <old-phone> <new-phone>"
  | PHONE => "phone <name>"
  | ALL => "all"
  | ADD_BIRTHDAY => "add-birthday <name> <DD.MM.YYYY>"
  | SHOW_BIRTHDAY => "show-birthday <name>"
  | BIRTHDAYS => "birthdays"
  | HELLO => "hello"
  | HELP => "help"
  | CLOSE => "close"
  | EXIT => "exit"
  end.

Definition all_commands : list Command :=
  [ADD; CHANGE; PHONE; ALL; ADD_BIRTHDAY; SHOW_BIRTHDAY;
   BIRTHDAYS; HELLO; HELP; CLOSE; EXIT].

(** ** The validated fields *)

(** [Name]: the value setter refuses the empty string. *)
Record Name : Type := mkName { Name_value : string }.

Definition Name_init (name : string) : result Name :=
  match name with
  | EmptyString => Raise (ValueError "Name cannot be empty.")
  | _ => Ok (mkName name)
  end.

(** [Phone]: the value setter stores the string as given when
    [PHONE_REGEX.fullmatch] accepts it.  The definition is made for every
    carrier of strings: at [ustr] it is [Phone] on every Python string. *)
Record PhoneOf (S : Type) : Type := mkPhone { Phone_value : S }.
Arguments mkPhone {S} _.
Arguments Phone_value {S} _.

(** The phones of the address book: the command line gives strings of
    code points below 256. *)
Abbreviation Phone := (PhoneOf string).

Definition Phone_init {S : Type} `{Str S} (new_phone_number : S)
    : result (PhoneOf S) :=
  match fullmatch PHONE_REGEX (code_points new_phone_number) with
  | None => Raise (ValueError "Phone number must contain exactly 10 digits.")
  | Some _ => Ok (mkPhone new_phone_number)
  end.

(** [Birthday]: the value is [None] or a [datetime]. *)
Record Birthday : Type := mkBirthday { Birthday_value : option date }.

(** What the value setter of [Birthday] may be given; a string is of any
    carrier. *)
Inductive birthday_arg (S : Type) : Type :=
| ArgNone
| ArgDatetime (value : date)
| ArgStr (value : S)
| ArgOther.
Arguments ArgNone {S}.
Arguments ArgDatetime {S} _.
Arguments ArgStr {S} _.
Arguments ArgOther {S}.

(** Every [ValueError] of [strptime] becomes the one of [Birthday]. *)
Definition Birthday_init {S : Type} `{Str S} (value : birthday_arg S)
    : result Birthday :=
  match value with
  | ArgNone => Ok (mkBirthday None)
  | ArgDatetime v => Ok (mkBirthday (Some v))
  | ArgStr s =>
      match strptime_any (code_points s) "%d.%m.%Y" with
      | inr parsed_date => Ok (mkBirthday (Some parsed_date))
      | inl _ => Raise (ValueError "Invalid date format. Use DD.MM.YYYY")
      end
  | ArgOther =>
      Raise (ValueError
        "Birthday must be a datetime instance or string in DD.MM.YYYY format.")
  end.

(** [Birthday.__str__] *)
Definition Birthday_str (libc : c_library) (self : Birthday) : string :=
  match Birthday_value self with
  | None => ""
  | Some v => strftime libc v "%d.%m.%Y"
  end.

(** ** Stateful code: a state and exception monad

    [M S A] is a computation on a mutable object of type [S] that returns
    an [A] or raises; the object it leaves behind is returned in both
    cases. *)

Definition M (S A : Type) : Type := S -> result A * S.

Definition ret {S A} (a : A) : M S A := fun s => (Ok a, s).

Definition raise {S A} (e : exn) : M S A := fun s => (Raise e, s).

Definition bind {S A B} (m : M S A) (f : A -> M S B) : M S B :=
  fun s =>
    match m s with
    | (Ok a, s') => f a s'
    | (Raise e, s') => (Raise e, s')
    end.

Definition lift {S A} (r : result A) : M S A := fun s => (r, s).

Definition get {S} : M S S := fun s => (Ok s, s).

Definition put {S} (s : S) : M S unit := fun _ => (Ok tt, s).

Notation "x <~ m ;; k" := (bind m (fun x => k))
  (at level 61, m at next level, right associativity).
Notation "m ;;; k" := (bind m (fun _ => k))
  (at level 61, right associativity).

(** ** [Record] *)

Record Record : Type := mkRecord {
  name : Name;
  phones : list Phone;
  birthday : option Birthday
}.

Definition set_phones (self : Record) (ps : list Phone) : Record :=
  mkRecord (name self) ps (birthday self).

Definition set_birthday (self : Record) (b : option Birthday) : Record :=
  mkRecord (name self) (phones self) b.

(** [Record.__init__] *)
Definition Record_init (name : string) : result Record :=
  n <- Name_init name ;;
  Ok (mkRecord n [] None).

(** [Record.add_phone] *)
Definition Record_add_phone (phone : string) : M Record unit :=
  p <~ lift (Phone_init phone) ;;
  self <~ get ;;
  put (set_phones self (phones self ++ [p])%list).

(** [Record.find_phone].  The method returns the first [Phone] object whose
    value equals [phone].  Every [Phone] object is created by [add_phone]
    or [edit_phone] and stored once, so an object is identified by its
    position in [self.phones]; the position is what the model returns. *)
Fixpoint find_phone_from (i : nat) (ps : list Phone) (phone : string)
    : option nat :=
  match ps with
  | [] => None
  | phone_obj :: ps' =>
      if String.eqb (Phone_value phone_obj) phone then Some i
      else find_phone_from (S i) ps' phone
  end.

Definition Record_find_phone (self : Record) (phone : string) : option nat :=
  find_phone_from 0 (phones self) phone.

(** [l[i] = x] *)
Fixpoint list_assign {A} (i : nat) (x : A) (l : list A) : list A :=
  match l, i with
  | [], _ => []
  | _ :: l', O => x :: l'
  | y :: l', S i' => y :: list_assign i' x l'
  end.

(** Removal of the entry at position [i]. *)
Fixpoint list_remove_at {A} (i : nat) (l : list A) : list A :=
  match l, i with
  | [], _ => []
  | _ :: l', O => l'
  | y :: l', S i' => y :: list_remove_at i' l'
  end.

(** [Record.remove_phone]; [self.phones.remove(phone_obj)] removes the
    object found. *)
Definition Record_remove_phone (phone : string) : M Record unit :=
  self <~ get ;;
  match Record_find_phone self phone with
  | None => raise (ValueError "Phone number not found.")
  | Some phone_obj => put (set_phones self (list_remove_at phone_obj (phones self)))
  end.

(** [Record.edit_phone]; in the assignment
    [self.phones[self.phones.index(phone_to_edit)] = Phone(new_phone_number)]
    the right-hand side is evaluated first, and [index] finds the position
    of the object [find_phone] returned. *)
Definition Record_edit_phone (existing_phone_number new_phone_number : string)
    : M Record unit :=
  self <~ get ;;
  match Record_find_phone self existing_phone_number with
  | None => raise (ValueError "Phone number to edit not found.")
  | Some phone_to_edit =>
      p <~ lift (Phone_init new_phone_number) ;;
      self <~ get ;;
      put (set_phones self (list_assign phone_to_edit p (phones self)))
  end.

(** [Record.add_birthday] *)
Definition Record_add_birthday (birthday : string) : M Record unit :=
  b <~ lift (Birthday_init (ArgStr birthday)) ;;
  self <~ get ;;
  put (set_birthday self (Some b)).

(** The next occurrence of a birthday, as [days_to_birthday],
    [get_upcoming_birthdays] and [birthdays] each compute it:
    [next = value.replace(year=today.year)], and
    [next.replace(year=today.year + 1)] when [next < today]. *)
Definition next_occurrence (today birthday_date : date) : result date :=
  next_birthday <- replace_year birthday_date (year today) ;;
  if date_ltb next_birthday today
  then replace_year next_birthday (year today + 1)
  else Ok next_birthday.

(** [Record.days_to_birthday], with the clock reading [today]. *)
Definition Record_days_to_birthday (today : date) : M Record (option Z) :=
  self <~ get ;;
  match birthday self with
  | None => ret None
  | Some b =>
      match Birthday_value b with
      | None => ret None
      | Some value =>
          next_birthday <~ lift (next_occurrence today value) ;;
          ret (Some (sub_days next_birthday today))
      end
  end.

(** [Record.__str__] *)
Definition Record_str (libc : c_library) (self : Record) : string :=
  let phones_str := join "; " (map Phone_value (phones self)) in
  let birthday_str :=
    match birthday self with
    | Some b => ", birthday: " ++ Birthday_str libc b
    | None => ""
    end in
  "Contact name: " ++ Name_value (name self) ++ ", phones: "
    ++ phones_str ++ birthday_str.

(** ** [AddressBook] *)

Definition AddressBook : Type := list (string * Record).

(** [AddressBook.add_record] *)
Definition AddressBook_add_record (record : Record) : M AddressBook unit :=
  fun data => (Ok tt, dict_set String.eqb (Name_value (name record)) record data).

(** [AddressBook.find] *)
Definition AddressBook_find (data : AddressBook) (name : string)
    : option Record :=
  dict_get String.eqb name data.

(** [AddressBook.delete] *)
Definition AddressBook_delete (name : string) : M AddressBook unit :=
  fun data =>
    match dict_get String.eqb name data with
    | Some _ => (Ok tt, dict_del String.eqb name data)
    | None =>
        (Raise (KeyError ("Record with name '" ++ name ++ "' not found.")), data)
    end.

(** A method call on a [Record] object that the book holds under [key]:
    the object is shared with the book, so whatever the method leaves
    behind, also when it raises, is what the book holds under [key]
    afterwards.  The call adds no key to the book: were the object not in
    the book, the book would stay as it is. *)
Definition call_method {A} (key : string) (record : Record) (m : M Record A)
    : M AddressBook A :=
  fun data =>
    let '(r, record') := m record in
    (r, dict_update String.eqb key record' data).

(** ** [get_upcoming_birthdays]

    A user is a [dict] with the keys ["name"] and ["birthday"]; a missing
    key raises [KeyError]. *)

Definition user_dict : Type := list (string * string).

Definition subscript (user : user_dict) (key : string) : result string :=
  match dict_get String.eqb key user with
  | Some v => Ok v
  | None => Raise (KeyError key)
  end.

(** Lines 183 to 187 (and 329 to 331): a date on Saturday or Sunday moves
    to the Monday after it. *)
Definition congratulation_date_of (next_birthday : date) : result date :=
  if 5 <=? weekday next_birthday
  then add_days next_birthday (7 - weekday next_birthday)
  else Ok next_birthday.

(** The body of the [for] loop of [get_upcoming_birthdays]. *)
Definition get_upcoming_birthdays_step (libc : c_library) (today : date)
    (upcoming_birthdays : list user_dict) (user : user_dict)
    : result (list user_dict) :=
  birthday_str <- subscript user "birthday" ;;
  birthday_date <- strptime birthday_str "%Y.%m.%d" ;;
  birthday_this_year <- next_occurrence today birthday_date ;;
  let delta_days := sub_days birthday_this_year today in
  let is_upcoming_birthday := (0 <=? delta_days) && (delta_days <? 7) in
  if is_upcoming_birthday then
    congratulation_date <- congratulation_date_of birthday_this_year ;;
    user_name <- subscript user "name" ;;
    Ok (upcoming_birthdays
          ++ [[("name", user_name);
               ("congratulation_date",
                strftime libc congratulation_date "%Y.%m.%d")]])%list
  else Ok upcoming_birthdays.

Fixpoint for_each {S X : Type} (body : S -> X -> result S) (xs : list X)
    (s : S) : result S :=
  match xs with
  | [] => Ok s
  | x :: xs' => s' <- body s x ;; for_each body xs' s'
  end.

Definition get_upcoming_birthdays (libc : c_library) (today : date)
    (users : list user_dict) : result (list user_dict) :=
  for_each (get_upcoming_birthdays_step libc today) users [].

(** ** The command handlers *)

(** [str(error)]: the message of the exception; for a [KeyError], the
    [repr] of its argument. *)
Definition exn_str (error : exn) : string :=
  match error with
  | ValueError msg => msg
  | IndexError msg => msg
  | OverflowError msg => msg
  | KeyError msg => repr msg
  end.

(** The decorator [input_error]: [ValueError], [IndexError] and [KeyError]
    become the returned text; any other exception passes through. *)
Definition input_error (func : list string -> M AddressBook string)
    : list string -> M AddressBook string :=
  fun args book =>
    match func args book with
    | (Ok text, book') => (Ok text, book')
    | (Raise (ValueError msg), book') => (Ok (exn_str (ValueError msg)), book')
    | (Raise (IndexError msg), book') => (Ok (exn_str (IndexError msg)), book')
    | (Raise (KeyError msg), book') => (Ok (exn_str (KeyError msg)), book')
    | (Raise error, book') => (Raise error, book')
    end.

Definition usage (prefix : string) (c : Command) : exn :=
  ValueError (prefix ++ " Usage: " ++ COMMAND_TEMPLATES c).

Definition add_contact_func (args : list string) : M AddressBook string :=
  match args with
  | name :: phone :: _ =>
      book <~ get ;;
      let add_phone_if_given (record : Record) (message : string) :=
        match phone with
        | EmptyString => ret message
        | _ => call_method name record (Record_add_phone phone) ;;; ret message
        end in
      match AddressBook_find book name with
      | Some record => add_phone_if_given record "Contact updated."
      | None =>
          record <~ lift (Record_init name) ;;
          AddressBook_add_record record ;;;
          add_phone_if_given record "Contact added."
      end
  | _ => raise (usage "Missing arguments." ADD)
  end.

Definition add_contact := input_error add_contact_func.

Definition change_phone_func (args : list string) : M AddressBook string :=
  match args with
  | name :: old_phone :: new_phone :: _ =>
      book <~ get ;;
      match AddressBook_find book name with
      | None => raise (KeyError "Contact not found.")
      | Some record =>
          call_method name record (Record_edit_phone old_phone new_phone) ;;;
          ret "Phone number updated."
      end
  | _ => raise (usage "Missing arguments." CHANGE)
  end.

Definition change_phone := input_error change_phone_func.

Definition show_phone_func (args : list string) : M AddressBook string :=
  match args with
  | name :: _ =>
      book <~ get ;;
      match AddressBook_find book name with
      | None => raise (KeyError "Contact not found.")
      | Some record =>
          match phones record with
          | [] => ret "No phone numbers for this contact."
          | ps => ret (join "; " (map Phone_value ps))
          end
      end
  | [] => raise (usage "Missing contact name." PHONE)
  end.

Definition show_phone := input_error show_phone_func.

Definition show_all_func (libc : c_library) (args : list string)
    : M AddressBook string :=
  match args with
  | _ :: _ => raise (usage "No extra arguments expected." ALL)
  | [] =>
      book <~ get ;;
      match book with
      | [] => ret "Address book is empty."
      | _ => ret (join NL (map (Record_str libc) (dict_values book)))
      end
  end.

Definition show_all (libc : c_library) := input_error (show_all_func libc).

Definition add_birthday_func (args : list string) : M AddressBook string :=
  match args with
  | name :: birthday_str :: _ =>
      book <~ get ;;
      let set_it (record : Record) :=
        call_method name record (Record_add_birthday birthday_str) ;;;
        ret "Birthday added." in
      match AddressBook_find book name with
      | Some record => set_it record
      | None =>
          record <~ lift (Record_init name) ;;
          AddressBook_add_record record ;;;
          set_it record
      end
  | _ => raise (usage "Missing arguments." ADD_BIRTHDAY)
  end.

Definition add_birthday := input_error add_birthday_func.

Definition show_birthday_func (libc : c_library) (args : list string)
    : M AddressBook string :=
  match args with
  | name :: _ =>
      book <~ get ;;
      match AddressBook_find book name with
      | None => raise (KeyError "Contact not found.")
      | Some record =>
          match birthday record with
          | None => ret "Birthday not set."
          | Some b =>
              match Birthday_value b with
              | None => ret "Birthday not set."
              | Some value => ret (strftime libc value "%d.%m.%Y")
              end
          end
      end
  | [] => raise (usage "Missing contact name." SHOW_BIRTHDAY)
  end.

Definition show_birthday (libc : c_library) :=
  input_error (show_birthday_func libc).

(** [upcoming.setdefault(congratulation_date, []).append(name)] *)
Definition setdefault_append (upcoming : list (date * list string))
    (congratulation_date : date) (name : string) : list (date * list string) :=
  match dict_get date_eqb congratulation_date upcoming with
  | Some names => dict_set date_eqb congratulation_date (names ++ [name])%list upcoming
  | None => dict_set date_eqb congratulation_date [name] upcoming
  end.

(** The body of the [for] loop of [birthdays]. *)
Definition birthdays_step (today : date) (upcoming : list (date * list string))
    (record : Record) : result (list (date * list string)) :=
  match birthday record with
  | None => Ok upcoming
  | Some b =>
      match Birthday_value b with
      | None => Ok upcoming
      | Some birthday_date =>
          next_birthday <- next_occurrence today birthday_date ;;
          let days_until := sub_days next_birthday today in
          if (0 <=? days_until) && (days_until <? 7) then
            congratulation_date <- congratulation_date_of next_birthday ;;
            Ok (setdefault_append upcoming congratulation_date
                  (Name_value (name record)))
          else Ok upcoming
      end
  end.

(** The dictionary [upcoming] when the loop of [birthdays] ends. *)
Definition birthdays_upcoming (today : date) (book : AddressBook)
    : result (list (date * list string)) :=
  for_each (birthdays_step today) (dict_values book) [].

Definition birthdays_report (libc : c_library)
    (upcoming : list (date * list string)) : string :=
  match upcoming with
  | [] => "No upcoming birthdays."
  | _ =>
      join NL
        (map (fun day =>
                let names :=
                  match dict_get date_eqb day upcoming with
                  | Some ns => ns
                  | None => []
                  end in
                strftime libc day "%d.%m.%Y" ++ ": "
                  ++ join ", " (sorted String.leb names))
             (sorted date_leb (dict_keys upcoming)))
  end.

Definition birthdays_func (libc : c_library) (today : date)
    (args : list string) : M AddressBook string :=
  match args with
  | _ :: _ => raise (usage "No extra arguments expected." BIRTHDAYS)
  | [] =>
      book <~ get ;;
      upcoming <~ lift (birthdays_upcoming today book) ;;
      ret (birthdays_report libc upcoming)
  end.

Definition birthdays (libc : c_library) (today : date) :=
  input_error (birthdays_func libc today).

Definition command_usage_summary : string :=
  join NL (map (fun c => "- " ++ COMMAND_TEMPLATES c) all_commands).

Definition show_commands_func (args : list string) : M AddressBook string :=
  match args with
  | _ :: _ => raise (usage "No extra arguments expected." HELP)
  | [] => ret ("Available commands:" ++ NL ++ command_usage_summary)
  end.

Definition show_commands := input_error show_commands_func.

(** ** Definitions used by the statements and proofs *)

(** The month and day that [ord2ymd] finds for day [n] (counted from 0) of
    a year: the last part of [ord2ymd]. *)
Definition month_day (leapyear : bool) (n : Z) : Z * Z :=
  let m := Z.shiftr (n + 50) 5 in
  let preceding := DAYS_BEFORE_MONTH m + (if (2 <? m) && leapyear then 1 else 0) in
  let '(m, preceding) :=
    if n <? preceding
    then (m - 1, preceding - (DAYS_IN_MONTH (m - 1)
                              + (if (m - 1 =? 2) && leapyear then 1 else 0)))
    else (m, preceding) in
  (m, n - preceding + 1).

Definition month_day_ok (leapyear : bool) (n : Z) : bool :=
  let '(m, d) := month_day leapyear n in
  (1 <=? m) && (m <=? 12) && (1 <=? d)
  && (d <=? (if (m =? 2) && leapyear then 29 else DAYS_IN_MONTH m))
  && (DAYS_BEFORE_MONTH m + (if (2 <? m) && leapyear then 1 else 0) + d =? n + 1).

(** [p] holds of every integer from 0 up to [k - 1]. *)
Fixpoint all_below (p : Z -> bool) (k : nat) : bool :=
  match k with
  | O => true
  | S k' => p (Z.of_nat k') && all_below p k'
  end.

(** The name [n] is filed under the date [day] in the dictionary that the
    loop of [birthdays] builds. *)
Definition filed (upcoming : list (date * list string)) (day : date)
    (n : string) : Prop :=
  exists names, In (day, names) upcoming /\ In n names.

(** [day] is the congratulation date for a birthday that falls on [c]:
    [c] itself from Monday to Friday, two days later for a Saturday and one
    day later for a Sunday, which is a Monday in both cases. *)
Definition shifted (c day : date) : Prop :=
  (0 <= weekday c <= 4 /\ day = c)
  \/ (weekday c = 5 /\ add_days c 2 = Ok day
      /\ toordinal day = toordinal c + 2 /\ weekday day = 0)
  \/ (weekday c = 6 /\ add_days c 1 = Ok day
      /\ toordinal day = toordinal c + 1 /\ weekday day = 0).

(** The contact [record] has its birthday set to the date [bd]. *)
Definition has_birthday (record : Record) (bd : date) : Prop :=
  birthday record = Some (mkBirthday (Some bd)).

(** The contact [record] is due: its birthday is set, its next occurrence
    [c] exists and is at most six days after [today], and [day] is the
    congratulation date computed from [c]. *)
Definition due (today : date) (record : Record) (c day : date) : Prop :=
  exists bd, has_birthday record bd
             /\ next_occurrence today bd = Ok c
             /\ 0 <= sub_days c today < 7
             /\ congratulation_date_of c = Ok day.

(** The book after a sequence of command lines, each given as a handler
    and its arguments, starting from [book]. *)
Fixpoint run_commands
    (commands : list ((list string -> M AddressBook string) * list string))
    (book : AddressBook) : AddressBook :=
  match commands with
  | [] => book
  | (handler, args) :: rest => run_commands rest (snd (handler args book))
  end.

(** A session: [add Alice 0123456789], [add-birthday Alice 05.11.1990],
    [add-birthday Bob 07.11.1990]. *)
Definition book_november : AddressBook :=
  run_commands
    [(add_contact, ["Alice"; "0123456789"]);
     (add_birthday, ["Alice"; "05.11.1990"]);
     (add_birthday, ["Bob"; "07.11.1990"])] [].

(** A session with a contact born on 29 February:
    [add-birthday Alice 01.03.1990], [add-birthday Bob 29.02.2000]. *)
Definition book_leap_day : AddressBook :=
  run_commands
    [(add_birthday, ["Alice"; "01.03.1990"]);
     (add_birthday, ["Bob"; "29.02.2000"])] [].

Definition record_leap_day : Record :=
  mkRecord (mkName "Bob") [] (Some (mkBirthday (Some (mkdate 2000 2 29)))).

(** A string of exactly ten of the digits [0] to [9]. *)
Definition ten_digits (s : string) : bool :=
  Nat.eqb (String.length s) 10 && all_chars is_digit s.

(** A string, of any code points, of exactly ten decimal digits. *)
Definition ten_decimal_digits (u : ustr) : bool :=
  Nat.eqb (List.length u) 10 && forallb is_decimal u.

(** The rest of [u] after [n] leading decimal digits, when it has that
    many. *)
Fixpoint take_decimals (n : nat) (u : ustr) : option ustr :=
  match n with
  | O => Some u
  | S n' =>
      match u with
      | c :: u' => if is_decimal c then take_decimals n' u' else None
      | [] => None
      end
  end.

(** *** The invariant of the model *)

(** A stored phone has passed the check of [Phone]. *)
Definition phone_ok (p : Phone) : Prop := Phone_init (Phone_value p) = Ok p.

(** A birthday is absent or holds a real calendar date. *)
Definition birthday_ok (b : option Birthday) : Prop :=
  b = None \/ exists d, b = Some (mkBirthday (Some d)) /\ valid_date d = true.

Definition record_ok (r : Record) : Prop :=
  Forall phone_ok (phones r) /\ birthday_ok (birthday r).

Definition book_ok (book : AddressBook) : Prop :=
  Forall record_ok (dict_values book).

(** The command handlers, as [main] calls them. *)
Definition handlers (libc : c_library) (today : date)
    : list (list string -> M AddressBook string) :=
  [add_contact; change_phone; show_phone; show_all libc; add_birthday;
   show_birthday libc; birthdays libc today; show_commands].

(** A computation keeps the invariant [I] of its state, whether it returns
    or raises, and a value it returns satisfies [Q]. *)
Definition keeps {S A} (I : S -> Prop) (m : M S A) (Q : A -> Prop) : Prop :=
  forall s, I s -> I (snd (m s)) /\ forall a, fst (m s) = Ok a -> Q a.

(** *** Date texts *)

(** The format of [Birthday] and of [show_birthday]. *)
Definition DD_MM_YYYY : string := "%d.%m.%Y".

(** The pattern [_strptime] builds for [DD_MM_YYYY]. *)
Definition DD_MM_YYYY_regex : regex :=
  Cat re_d (Cat (Lit ".") (Cat re_m (Cat (Lit ".") (Cat re_Y Empty)))).

(** One of the digits [0] to [9]. *)
Definition is_ascii_digit (c : Z) : bool := (48 <=? c) && (c <=? 57).

(** A string in valid DD.MM.YYYY format: two digits, a dot, two digits, a
    dot, four digits, the digits being [0] to [9], and the three numbers
    are a real calendar date. *)
Definition valid_ddmmyyyy {S : Type} `{Str S} (s : S) : bool :=
  match code_points s with
  | [d1; d2; p1; m1; m2; p2; y1; y2; y3; y4] =>
      is_ascii_digit d1 && is_ascii_digit d2 && (p1 =? 46)
      && is_ascii_digit m1 && is_ascii_digit m2 && (p2 =? 46)
      && is_ascii_digit y1 && is_ascii_digit y2
      && is_ascii_digit y3 && is_ascii_digit y4
      && valid_ymd
           (1000 * (y1 - 48) + 100 * (y2 - 48) + 10 * (y3 - 48) + (y4 - 48))
           (10 * (m1 - 48) + (m2 - 48))
           (10 * (d1 - 48) + (d2 - 48))
  | _ => false
  end.

(** The number a string of decimal digits denotes, after an optional
    leading space. *)
Definition number (t : ustr) : Z :=
  fold_left (fun acc c => 10 * acc + decimal_value c) (int_lstrip t) 0.

Section DateText.
Variable digit : Z -> bool.

(** One or two digits. *)
Definition one_or_two_digits (t : ustr) : bool :=
  match t with
  | [a] => digit a
  | [a; b] => digit a && digit b
  | _ => false
  end.

(** A day written with one or two digits, or with a space and a digit. *)
Definition day_text (t : ustr) : bool :=
  one_or_two_digits t
  || match t with
     | [a; b] => (a =? 32) && digit b
     | _ => false
     end.

Definition month_text (t : ustr) : bool := one_or_two_digits t.

Definition year_text (t : ustr) : bool :=
  Nat.eqb (List.length t) 4 && forallb digit t.

(** [s] is a day, a month and a year separated by dots, written with the
    digits [digit], and denotes the date [d]. *)
Definition date_text (s : ustr) (d : date) : Prop :=
  exists ds ms ys,
    s = (ds ++ 46 :: ms ++ 46 :: ys)%list
    /\ day_text ds = true /\ month_text ms = true /\ year_text ys = true
    /\ number ds = day d /\ number ms = month d /\ number ys = year d.
End DateText.

(** The first token of [s] as [re_d] takes it when a dot must follow, and
    the rest of [s]: the branches of [re_d] in their order. *)
Definition day_split (s : ustr) : option (ustr * ustr) :=
  match s with
  | a :: b :: rest =>
      if (a =? 51) && (48 <=? b) && (b <=? 49) then Some ([a; b], rest)
      else if (49 <=? a) && (a <=? 50) && is_decimal b
      then Some ([a; b], rest)
      else if (a =? 48) && (49 <=? b) && (b <=? 57) then Some ([a; b], rest)
      else if (49 <=? a) && (a <=? 57) then Some ([a], b :: rest)
      else if (a =? 32) && (49 <=? b) && (b <=? 57) then Some ([a; b], rest)
      else None
  | [a] => if (49 <=? a) && (a <=? 57) then Some ([a], []) else None
  | [] => None
  end.

(** The same for [re_m]. *)
Definition month_split (s : ustr) : option (ustr * ustr) :=
  match s with
  | a :: b :: rest =>
      if (a =? 49) && (48 <=? b) && (b <=? 50) then Some ([a; b], rest)
      else if (a =? 48) && (49 <=? b) && (b <=? 57) then Some ([a; b], rest)
      else if (49 <=? a) && (a <=? 57) then Some ([a], b :: rest)
      else None
  | [a] => if (49 <=? a) && (a <=? 57) then Some ([a], []) else None
  | [] => None
  end.

(** A continuation of the matcher that needs a dot first. *)
Definition dot_first {A} (k : ustr -> groups -> option A) : Prop :=
  forall c s g, c <> 46 -> k (c :: s) g = None.

(** The day, month and year texts of [s], when [s] is a day text, a dot, a
    month text, a dot and four decimal digits. *)
Definition split_date_text (s : ustr) : option (ustr * ustr * ustr) :=
  match day_split s with
  | Some (ds, c1 :: s1) =>
      if c1 =? 46 then
        match month_split s1 with
        | Some (ms, c2 :: s2) =>
            if c2 =? 46 then
              match take_decimals 4 s2 with
              | Some [] => Some (ds, ms, s2)
              | _ => None
              end
            else None
        | _ => None
        end
      else None
  | _ => None
  end.

(** The two-digit and four-digit numerals, digit by digit. *)
Definition two_digits (n : Z) : string :=
  String (digit_char (n / 10)) (String (digit_char (n mod 10)) "").

Definition four_digits (n : Z) : string :=
  String (digit_char (n / 1000))
    (String (digit_char (n / 100 mod 10))
       (String (digit_char (n / 10 mod 10))
          (String (digit_char (n mod 10)) ""))).

From Stdlib Require Import Sorting.Sorted Sorting.Permutation.

(** ** The command line: [parse_input], the unknown-command message, [main] *)

(** [str.lower] for one code point below 256: the letters A to Z and the
    accented capitals 192 to 222 (but not the sign 215) move up by 32. *)
Definition lower_char (c : ascii) : ascii :=
  let n := ord c in
  if ((65 <=? n) && (n <=? 90))
     || ((192 <=? n) && (n <=? 222) && negb (n =? 215))
  then chr (n + 32) else c.

(** [s.lower()] *)
Fixpoint lower (s : string) : string :=
  match s with
  | EmptyString => ""
  | String c s' => String (lower_char c) (lower s')
  end.

(** [s.split()]: the maximal runs of characters that are not white space.
    [cur] is the run being read. *)
Fixpoint split_from (cur : string) (s : string) : list string :=
  match s with
  | EmptyString =>
      match cur with
      | EmptyString => []
      | _ => [cur]
      end
  | String c s' =>
      if is_space c then
        match cur with
        | EmptyString => split_from "" s'
        | _ => cur :: split_from "" s'
        end
      else split_from (cur ++ String c "") s'
  end.

Definition split (s : string) : list string := split_from "" s.

(** The value of a member of the enumeration [Command]. *)
Definition Command_value (c : Command) : string :=
  match c with
  | ADD => "add"
  | CHANGE => "change"
  | PHONE => "phone"
  | ALL => "all"
  | ADD_BIRTHDAY => "add-birthday"
  | SHOW_BIRTHDAY => "show-birthday"
  | BIRTHDAYS => "birthdays"
  | HELLO => "hello"
  | HELP => "help"
  | CLOSE => "close"
  | EXIT => "exit"
  end.

(** [Command(value)]: the member with that value; [None] stands for the
    [ValueError] that [parse_input] catches. *)
Definition Command_of_value (value : string) : option Command :=
  find (fun c => String.eqb (Command_value c) value) all_commands.

(** [parse_input] *)
Definition parse_input (user_input : string)
    : option Command * list string * option string :=
  match split (strip user_input) with
  | [] => (None, [], None)
  | original_command :: args =>
      let command_str := lower original_command in
      (Command_of_value command_str, args, Some original_command)
  end.

(** [format_unknown_command_message] *)
Definition format_unknown_command_message (raw_command : option string)
    : string :=
  let prefix :=
    match raw_command with
    | None | Some EmptyString => "Unknown command."
    | Some raw => "Unknown command '" ++ raw ++ "'."
    end in
  prefix ++ NL ++ "Use one of the following patterns:" ++ NL
    ++ command_usage_summary.

(** What [main] writes: the prompt of [input] and the texts it prints. *)
Inductive event : Type :=
| Prompt (text : string)
| Print (text : string).

(** How [main] ends: by [break], by the [EOFError] of [input] when the
    input has no more lines, or by an exception no handler caught. *)
Inductive outcome : Type :=
| Finished
| EndOfInput
| Uncaught (e : exn).

(** The chain of [if]/[elif] in the loop of [main] that answers a command
    other than [close] and [exit]. *)
Definition dispatch (libc : c_library) (today : date)
    (command : option Command) (args : list string)
    (raw_command : option string) : M AddressBook string :=
  match command with
  | Some HELLO => ret "How can I help you?"
  | Some ADD => add_contact args
  | Some CHANGE => change_phone args
  | Some PHONE => show_phone args
  | Some ALL => show_all libc args
  | Some ADD_BIRTHDAY => add_birthday args
  | Some SHOW_BIRTHDAY => show_birthday libc args
  | Some BIRTHDAYS => birthdays libc today args
  | Some HELP => show_commands args
  | None => ret (format_unknown_command_message raw_command)
  | Some _ => ret "Unexpected command handling error."
  end.

Definition is_exit_command (command : option Command) : bool :=
  match command with
  | Some CLOSE | Some EXIT => true
  | _ => false
  end.

(** The loop of [main].  Each input line comes with the date the clock
    shows while the line is handled. *)
Fixpoint main_loop (libc : c_library) (inputs : list (string * date))
    (book : AddressBook) : list event * outcome * AddressBook :=
  match inputs with
  | [] => ([Prompt "Enter a command: "], EndOfInput, book)
  | (user_input, today) :: rest =>
      match strip user_input with
      | EmptyString =>
          let '(events, out, book') := main_loop libc rest book in
          (Prompt "Enter a command: "
             :: Print ("Please enter a command. Example: "
                       ++ COMMAND_TEMPLATES ADD)
             :: events, out, book')
      | _ =>
          let '(command, args, raw_command) := parse_input user_input in
          if is_exit_command command then
            ([Prompt "Enter a command: "; Print "Good bye!"], Finished, book)
          else
            match dispatch libc today command args raw_command book with
            | (Ok text, book1) =>
                let '(events, out, book') := main_loop libc rest book1 in
                (Prompt "Enter a command: " :: Print text :: events, out, book')
            | (Raise e, book1) =>
                ([Prompt "Enter a command: "], Uncaught e, book1)
            end
      end
  end.

(** [main]: what it writes, how it ends, and the book it held at the end. *)
Definition main (libc : c_library) (inputs : list (string * date))
    : list event * outcome * AddressBook :=
  let '(events, out, book) := main_loop libc inputs [] in
  (Print "Welcome to the assistant bot!" :: events, out, book).

(** ** Definitions used by the further properties *)

(** Every record of the book is stored under its own name, no name is
    empty and no name is stored twice. *)
Definition book_wf (book : AddressBook) : Prop :=
  NoDup (dict_keys book)
  /\ Forall (fun entry : string * Record =>
               Name_value (name (snd entry)) = fst entry /\ fst entry <> "")
            book.

(** From [r] to [r'] nothing was taken away: the name is the same, the
    phones are as many or more, and a birthday that was set is still
    set. *)
Definition record_grows (r r' : Record) : Prop :=
  name r' = name r
  /\ (List.length (phones r) <= List.length (phones r'))%nat
  /\ (birthday r <> None -> birthday r' <> None).

(** From [book] to [book'] no contact was taken away: the names of [book]
    come first in [book'], in the same order, and each of them still finds
    a record, from which nothing was taken away. *)
Definition book_grows (book book' : AddressBook) : Prop :=
  (exists added, dict_keys book' = (dict_keys book ++ added)%list)
  /\ forall n r, AddressBook_find book n = Some r ->
       exists r', AddressBook_find book' n = Some r' /\ record_grows r r'.

(** A token of a command line: not empty, and without white space. *)
Definition is_token (s : string) : bool :=
  negb (String.eqb s "") && all_chars (fun c => negb (is_space c)) s.

(** The final book of a run of [main_loop]. *)
Definition final_book (run : list event * outcome * AddressBook)
    : AddressBook := snd run.

(** How a run of [main_loop] ended. *)
Definition final_outcome (run : list event * outcome * AddressBook)
    : outcome := snd (fst run).

(** What a run of [main_loop] wrote. *)
Definition written (run : list event * outcome * AddressBook)
    : list event := fst (fst run).

(** The line is the command [close] or [exit], in whatever case and with
    whatever arguments. *)
Definition is_exit_line (line : string) : bool :=
  is_exit_command (fst (fst (parse_input line))).

(** The number of lines [main] reads when no handler fails: all of them up
    to the first [close] or [exit]. *)
Fixpoint lines_read (lines : list string) : nat :=
  match lines with
  | [] => O
  | line :: rest => if is_exit_line line then 1%nat else S (lines_read rest)
  end.

(** One line of the listing of [birthdays]: the date, and the names filed
    under it, sorted. *)
Definition report_line (libc : c_library)
    (upcoming : list (date * list string)) (day : date) : string :=
  strftime libc day "%d.%m.%Y" ++ ": "
    ++ join ", " (sorted String.leb
                    match dict_get date_eqb day upcoming with
                    | Some ns => ns
                    | None => []
                    end).

(** The number of arguments a handler takes from the command line: the
    bound of its [len(args)] check, or of its [if not args] check. *)
Definition min_args (c : Command) : nat :=
  match c with
  | ADD => 2
  | CHANGE => 3
  | PHONE => 1
  | ADD_BIRTHDAY => 2
  | SHOW_BIRTHDAY => 1
  | _ => 0
  end.

(** The handlers that start with [if args: raise ValueError]. *)
Definition takes_no_args (c : Command) : bool :=
  match c with
  | ALL | BIRTHDAYS | HELP => true
  | _ => false
  end.

(** * Properties *)

(** ** The calendar *)

Ltac zdiv := Z.to_euclidean_division_equations; lia.

Ltac bool_to_prop :=
  repeat match goal with
  | H : _ && _ = true |- _ => apply andb_true_iff in H; destruct H
  | H : _ || _ = false |- _ => apply orb_false_iff in H; destruct H
  | H : negb _ = true |- _ => apply negb_true_iff in H
  | H : negb _ = false |- _ => apply negb_false_iff in H
  | H : (_ <=? _) = true |- _ => apply Z.leb_le in H
  | H : (_ <=? _) = false |- _ => apply Z.leb_gt in H
  | H : (_ <? _) = true |- _ => apply Z.ltb_lt in H
  | H : (_ <? _) = false |- _ => apply Z.ltb_ge in H
  | H : (_ =? _) = true |- _ => apply Z.eqb_eq in H
  | H : (_ =? _) = false |- _ => apply Z.eqb_neq in H
  end.

Lemma is_leap_spec y :
  is_leap y = true <-> (y mod 4 = 0 /\ (y mod 100 <> 0 \/ y mod 400 = 0)).
Proof.
  unfold is_leap.
  rewrite andb_true_iff, orb_true_iff, negb_true_iff, !Z.eqb_eq, Z.eqb_neq.
  tauto.
Qed.

Lemma is_leap_false y :
  is_leap y = false <-> ~ (y mod 4 = 0 /\ (y mod 100 <> 0 \/ y mod 400 = 0)).
Proof.
  rewrite <- is_leap_spec. destruct (is_leap y); split; congruence.
Qed.

Lemma days_before_year_succ y :
  days_before_year (y + 1) = days_before_year y + (if is_leap y then 366 else 365).
Proof.
  unfold days_before_year. replace (y + 1 - 1) with y by lia.
  destruct (is_leap y) eqn:E.
  - apply is_leap_spec in E. zdiv.
  - apply is_leap_false in E. zdiv.
Qed.

Lemma days_before_year_mono a b : a <= b -> days_before_year a <= days_before_year b.
Proof.
  intros H. unfold days_before_year. zdiv.
Qed.

(** The decomposition of a year into 400-, 100-, 4- and 1-year cycles. *)
Lemma days_before_year_cycles a b c d :
  0 <= b <= 3 -> 0 <= c <= 24 -> 0 <= d <= 3 ->
  days_before_year (400 * a + 100 * b + 4 * c + d + 1)
  = 146097 * a + 36524 * b + 1461 * c + 365 * d.
Proof.
  intros Hb Hc Hd. unfold days_before_year. zdiv.
Qed.

Lemma is_leap_cycles a b c d :
  0 <= b <= 3 -> 0 <= c <= 24 -> 0 <= d <= 3 ->
  is_leap (400 * a + 100 * b + 4 * c + d + 1)
  = (d =? 3) && (negb (c =? 24) || (b =? 3)).
Proof.
  intros Hb Hc Hd.
  destruct ((d =? 3) && (negb (c =? 24) || (b =? 3))) eqn:E.
  - apply is_leap_spec.
    rewrite andb_true_iff, orb_true_iff, negb_true_iff, !Z.eqb_eq, Z.eqb_neq in E.
    zdiv.
  - apply is_leap_false.
    rewrite andb_false_iff, orb_false_iff, negb_false_iff, !Z.eqb_eq, !Z.eqb_neq in E.
    zdiv.
Qed.

Lemma valid_ymd_spec y m d :
  valid_ymd y m d = true <->
  (1 <= y <= 9999 /\ 1 <= m <= 12 /\ 1 <= d <= days_in_month y m).
Proof.
  unfold valid_ymd, MINYEAR, MAXYEAR.
  rewrite !andb_true_iff, !Z.leb_le. tauto.
Qed.

Lemma month_cases m : 1 <= m <= 12 ->
  m = 1 \/ m = 2 \/ m = 3 \/ m = 4 \/ m = 5 \/ m = 6 \/
  m = 7 \/ m = 8 \/ m = 9 \/ m = 10 \/ m = 11 \/ m = 12.
Proof. lia. Qed.

Ltac each_month m H :=
  destruct (month_cases m H) as
    [->|[->|[->|[->|[->|[->|[->|[->|[->|[->|[->| ->]]]]]]]]]]].

Lemma days_before_month_succ y m : 1 <= m <= 12 ->
  days_before_month y m + days_in_month y m
  = if m =? 12 then (if is_leap y then 366 else 365)
    else days_before_month y (m + 1).
Proof.
  intros H. unfold days_before_month, days_in_month.
  each_month m H; destruct (is_leap y); reflexivity.
Qed.

Lemma days_before_month_mono y m1 m2 : 1 <= m1 -> m1 <= m2 -> m2 <= 12 ->
  days_before_month y m1 <= days_before_month y m2.
Proof.
  intros H1 H2 H3. unfold days_before_month.
  assert (1 <= m1 <= 12) as A by lia. assert (1 <= m2 <= 12) as B by lia.
  each_month m1 A; each_month m2 B; try lia; destruct (is_leap y); simpl; lia.
Qed.

Lemma days_in_month_pos y m : 1 <= m <= 12 -> 28 <= days_in_month y m <= 31.
Proof.
  intros H. unfold days_in_month.
  each_month m H; destruct (is_leap y); simpl; lia.
Qed.

Lemma days_before_month_bound y m : 1 <= m <= 12 ->
  0 <= days_before_month y m /\
  days_before_month y m + days_in_month y m <= (if is_leap y then 366 else 365).
Proof.
  intros H. unfold days_before_month, days_in_month.
  each_month m H; destruct (is_leap y); simpl; lia.
Qed.

Lemma ymd2ord_bounds y m d : valid_ymd y m d = true ->
  days_before_year y < ymd2ord y m d <= days_before_year (y + 1).
Proof.
  intros V. apply valid_ymd_spec in V. destruct V as (Hy & Hm & Hd).
  unfold ymd2ord. rewrite days_before_year_succ.
  pose proof (days_before_month_bound y m Hm). lia.
Qed.

Lemma toordinal_range d : valid_date d = true -> 1 <= toordinal d <= MAXORDINAL.
Proof.
  intros V. unfold toordinal, valid_date in *.
  pose proof (ymd2ord_bounds _ _ _ V) as B.
  apply valid_ymd_spec in V. destruct V as (Hy & _).
  pose proof (days_before_year_mono 1 (year d) ltac:(lia)).
  pose proof (days_before_year_mono (year d + 1) 10000 ltac:(lia)).
  change (days_before_year 1) with 0 in *.
  change (days_before_year 10000) with 3652059 in *.
  unfold MAXORDINAL. lia.
Qed.

(** Comparison of dates agrees with comparison of their ordinals. *)
Lemma date_ltb_toordinal a b : valid_date a = true -> valid_date b = true ->
  date_ltb a b = true -> toordinal a < toordinal b.
Proof.
  intros Va Vb L. unfold toordinal, valid_date in *.
  pose proof (ymd2ord_bounds _ _ _ Va) as Ba.
  pose proof (ymd2ord_bounds _ _ _ Vb) as Bb.
  apply valid_ymd_spec in Va, Vb.
  destruct Va as (Hya & Hma & Hda), Vb as (Hyb & Hmb & Hdb).
  unfold date_ltb in L.
  apply orb_true_iff in L. destruct L as [L|L].
  - apply Z.ltb_lt in L.
    pose proof (days_before_year_mono (year a + 1) (year b) ltac:(lia)). lia.
  - apply andb_true_iff in L. destruct L as [E L]. apply Z.eqb_eq in E.
    unfold ymd2ord. rewrite E in *.
    apply orb_true_iff in L. destruct L as [L|L].
    + apply Z.ltb_lt in L.
      pose proof (days_before_month_succ (year b) (month a) Hma) as S.
      destruct (month a =? 12) eqn:E12; [apply Z.eqb_eq in E12; lia|].
      pose proof (days_before_month_mono (year b) (month a + 1) (month b)
                    ltac:(lia) ltac:(lia) ltac:(lia)).
      lia.
    + apply andb_true_iff in L. destruct L as [E' L].
      apply Z.eqb_eq in E'. apply Z.ltb_lt in L. rewrite E'. lia.
Qed.

Lemma date_ltb_false_toordinal a b : valid_date a = true -> valid_date b = true ->
  date_ltb a b = false -> toordinal b <= toordinal a.
Proof.
  intros Va Vb L.
  destruct (date_ltb b a) eqn:E.
  - pose proof (date_ltb_toordinal b a Vb Va E). lia.
  - assert (a = b) as ->; [|lia].
    unfold date_ltb in *. destruct a, b; simpl in *.
    assert (year0 = year1 /\ month0 = month1 /\ day0 = day1) as (-> & -> & ->); [|reflexivity].
    destruct (year0 <? year1) eqn:?, (year1 <? year0) eqn:?,
             (year0 =? year1) eqn:?, (year1 =? year0) eqn:?,
             (month0 <? month1) eqn:?, (month1 <? month0) eqn:?,
             (month0 =? month1) eqn:?, (month1 =? month0) eqn:?,
             (day0 <? day1) eqn:?, (day1 <? day0) eqn:?;
      simpl in *; try discriminate; bool_to_prop; lia.
Qed.

Lemma all_below_spec p k : all_below p k = true ->
  forall n, 0 <= n < Z.of_nat k -> p n = true.
Proof.
  induction k as [|k IH]; intros H n Hn; [lia|].
  simpl in H. apply andb_true_iff in H. destruct H as [H1 H2].
  destruct (Z.eq_dec n (Z.of_nat k)) as [->|]; [assumption|].
  apply IH; [assumption|lia].
Qed.

Lemma month_day_correct (leapyear : bool) n :
  0 <= n < (if leapyear then 366 else 365) ->
  month_day_ok leapyear n = true.
Proof.
  intros H. destruct leapyear.
  - apply (all_below_spec (month_day_ok true) 366); [vm_compute; reflexivity|lia].
  - apply (all_below_spec (month_day_ok false) 365); [vm_compute; reflexivity|lia].
Qed.

Lemma ord2ymd_general n a b c d r :
  n - 1 = 146097 * a + 36524 * b + 1461 * c + 365 * d + r ->
  0 <= b <= 3 -> 0 <= c <= 24 -> 0 <= d <= 3 -> 0 <= r < 365 ->
  ord2ymd n =
    let y := 400 * a + 100 * b + 4 * c + d + 1 in
    let '(m, dd) := month_day (is_leap y) r in mkdate y m dd.
Proof.
  intros E Hb Hc Hd Hr.
  unfold ord2ymd, DI400Y, DI100Y, DI4Y.
  assert ((n - 1) / 146097 = a) as -> by zdiv.
  assert ((n - 1) mod 146097 = 36524 * b + 1461 * c + 365 * d + r) as -> by zdiv.
  assert ((36524 * b + 1461 * c + 365 * d + r) / 36524 = b) as -> by zdiv.
  assert ((36524 * b + 1461 * c + 365 * d + r) mod 36524 = 1461 * c + 365 * d + r) as -> by zdiv.
  assert ((1461 * c + 365 * d + r) / 1461 = c) as -> by zdiv.
  assert ((1461 * c + 365 * d + r) mod 1461 = 365 * d + r) as -> by zdiv.
  assert ((365 * d + r) / 365 = d) as -> by zdiv.
  assert ((365 * d + r) mod 365 = r) as -> by zdiv.
  cbv zeta.
  replace ((d =? 4) || (b =? 4)) with false
    by (symmetry; apply orb_false_iff; split; apply Z.eqb_neq; lia).
  rewrite (is_leap_cycles a b c d) by lia.
  unfold month_day.
  replace (a * 400 + 1 + b * 100 + c * 4 + d) with (400 * a + 100 * b + 4 * c + d + 1) by lia.
  destruct (r <? _); reflexivity.
Qed.

Lemma ord2ymd_last_day n a b c :
  n - 1 = 146097 * a + 36524 * b + 1461 * c + 1460 ->
  0 <= b <= 3 -> 0 <= c <= 23 ->
  ord2ymd n = mkdate (400 * a + 100 * b + 4 * c + 4) 12 31.
Proof.
  intros E Hb Hc.
  unfold ord2ymd, DI400Y, DI100Y, DI4Y.
  assert ((n - 1) / 146097 = a) as -> by zdiv.
  assert ((n - 1) mod 146097 = 36524 * b + 1461 * c + 1460) as -> by zdiv.
  assert ((36524 * b + 1461 * c + 1460) / 36524 = b) as -> by zdiv.
  assert ((36524 * b + 1461 * c + 1460) mod 36524 = 1461 * c + 1460) as -> by zdiv.
  assert ((1461 * c + 1460) / 1461 = c) as -> by zdiv.
  assert ((1461 * c + 1460) mod 1461 = 1460) as -> by zdiv.
  cbv zeta. change (1460 / 365) with 4. simpl orb. cbv iota.
  f_equal. lia.
Qed.

Lemma ord2ymd_last_day_400 n a :
  n - 1 = 146097 * a + 146096 ->
  ord2ymd n = mkdate (400 * a + 400) 12 31.
Proof.
  intros E.
  unfold ord2ymd, DI400Y, DI100Y, DI4Y.
  assert ((n - 1) / 146097 = a) as -> by zdiv.
  assert ((n - 1) mod 146097 = 146096) as -> by zdiv.
  cbv zeta. change (146096 / 36524) with 4.
  rewrite orb_true_r.
  change (146096 mod 36524) with 0.
  change (0 / 1461) with 0. change (0 mod 1461) with 0.
  change (0 / 365) with 0.
  f_equal. lia.
Qed.

Lemma year_below_max y n :
  days_before_year y < n -> n <= MAXORDINAL -> y <= 9999.
Proof.
  intros H1 H2. destruct (Z_le_gt_dec y 9999) as [|G]; [assumption|].
  pose proof (days_before_year_mono 10000 y ltac:(lia)) as M.
  change (days_before_year 10000) with 3652059 in M. unfold MAXORDINAL in H2. lia.
Qed.

Lemma year_above_min y n :
  1 <= n -> n <= days_before_year (y + 1) -> 1 <= y.
Proof.
  intros H1 H2. destruct (Z_le_gt_dec 1 y) as [|G]; [assumption|].
  pose proof (days_before_year_mono (y + 1) 1 ltac:(lia)) as M.
  change (days_before_year 1) with 0 in M. lia.
Qed.

(** [fromordinal] inverts [toordinal] on the whole range of [date]. *)
Lemma ord2ymd_toordinal n : 1 <= n <= MAXORDINAL ->
  valid_date (ord2ymd n) = true /\ toordinal (ord2ymd n) = n.
Proof.
  intros Hn.
  remember ((n - 1) / 146097) as a eqn:Ea.
  remember ((n - 1) mod 146097) as r1 eqn:Er1.
  remember (r1 / 36524) as b eqn:Eb.
  remember (r1 mod 36524) as r2 eqn:Er2.
  remember (r2 / 1461) as c eqn:Ec.
  remember (r2 mod 1461) as r3 eqn:Er3.
  remember (r3 / 365) as d eqn:Ed.
  remember (r3 mod 365) as r eqn:Er.
  assert (n - 1 = 146097 * a + 36524 * b + 1461 * c + 365 * d + r
          /\ 0 <= b <= 4 /\ 0 <= c <= 24 /\ 0 <= d <= 4 /\ 0 <= r < 365
          /\ (b = 4 -> c = 0 /\ d = 0 /\ r = 0)
          /\ (d = 4 -> r = 0 /\ c <= 23)) as (E & Hb & Hc & Hd & Hr & Hb4 & Hd4)
    by (subst; zdiv).
  clear Ea Er1 Eb Er2 Ec Er3 Ed Er r1 r2 r3.
  destruct (Z.eq_dec b 4) as [B4|B4].
  { destruct (Hb4 B4) as (-> & -> & ->). subst b.
    rewrite (ord2ymd_last_day_400 n a) by lia.
    assert (is_leap (400 * a + 400) = true) as L by (apply is_leap_spec; zdiv).
    assert (days_before_year (400 * a + 400) = 146097 * a + 145731) as D.
    { replace (400 * a + 400) with (400 * a + 100 * 3 + 4 * 24 + 3 + 1) by lia.
      rewrite days_before_year_cycles by lia. lia. }
    assert (toordinal (mkdate (400 * a + 400) 12 31) = n) as T.
    { unfold toordinal, ymd2ord, days_before_month. cbn [year month day].
      rewrite L, D. change (2 <? 12) with true. cbn [andb DAYS_BEFORE_MONTH]. lia. }
    split; [|assumption].
    unfold valid_date. apply valid_ymd_spec. cbn [year month day].
    unfold days_in_month. change (12 =? 2) with false. cbn [andb DAYS_IN_MONTH].
    assert (400 * a + 400 <= 9999)
      by (apply (year_below_max _ n); [rewrite D|]; lia).
    assert (1 <= 400 * a + 400).
    { apply (year_above_min _ n); [lia|]. rewrite days_before_year_succ, D, L. lia. }
    lia. }
  destruct (Z.eq_dec d 4) as [D4|D4].
  { destruct (Hd4 D4) as (-> & Hc'). subst d.
    rewrite (ord2ymd_last_day n a b c) by lia.
    assert (is_leap (400 * a + 100 * b + 4 * c + 4) = true) as L
      by (apply is_leap_spec; zdiv).
    assert (days_before_year (400 * a + 100 * b + 4 * c + 4)
            = 146097 * a + 36524 * b + 1461 * c + 1095) as D.
    { replace (400 * a + 100 * b + 4 * c + 4)
        with (400 * a + 100 * b + 4 * c + 3 + 1) by lia.
      rewrite days_before_year_cycles by lia. lia. }
    assert (toordinal (mkdate (400 * a + 100 * b + 4 * c + 4) 12 31) = n) as T.
    { unfold toordinal, ymd2ord, days_before_month. cbn [year month day].
      rewrite L, D. change (2 <? 12) with true. cbn [andb DAYS_BEFORE_MONTH]. lia. }
    split; [|assumption].
    unfold valid_date. apply valid_ymd_spec. cbn [year month day].
    unfold days_in_month. change (12 =? 2) with false. cbn [andb DAYS_IN_MONTH].
    assert (400 * a + 100 * b + 4 * c + 4 <= 9999)
      by (apply (year_below_max _ n); [rewrite D|]; lia).
    assert (1 <= 400 * a + 100 * b + 4 * c + 4).
    { apply (year_above_min _ n); [lia|]. rewrite days_before_year_succ, D, L. lia. }
    lia. }
  rewrite (ord2ymd_general n a b c d r) by lia.
  cbv zeta.
  set (y := 400 * a + 100 * b + 4 * c + d + 1).
  assert (days_before_year y = 146097 * a + 36524 * b + 1461 * c + 365 * d) as D
    by (apply days_before_year_cycles; lia).
  pose proof (month_day_correct (is_leap y) r
                ltac:(destruct (is_leap y); lia)) as OK.
  unfold month_day_ok in OK.
  destruct (month_day (is_leap y) r) as [m dd].
  rewrite !andb_true_iff, !Z.leb_le, Z.eqb_eq in OK.
  destruct OK as ((((M1 & M2) & D1) & D2) & S).
  assert (toordinal (mkdate y m dd) = n) as T.
  { unfold toordinal, ymd2ord, days_before_month. cbn [year month day].
    rewrite D. lia. }
  split; [|assumption].
  unfold valid_date. apply valid_ymd_spec. cbn [year month day].
  unfold days_in_month.
  assert (y <= 9999) by (apply (year_below_max _ n); [rewrite D|]; lia).
  assert (1 <= y).
  { apply (year_above_min _ n); [lia|]. rewrite days_before_year_succ, D.
    destruct (is_leap y); lia. }
  lia.
Qed.

(** ** The next occurrence of a birthday and its congratulation date *)

Lemma check_date_fields_ok y m d x :
  check_date_fields y m d = Ok x -> x = mkdate y m d /\ valid_ymd y m d = true.
Proof.
  unfold check_date_fields, valid_ymd.
  destruct ((MINYEAR <=? y) && (y <=? MAXYEAR)) eqn:Ey; cbn [negb]; [|discriminate].
  destruct ((1 <=? m) && (m <=? 12)) eqn:Em; cbn [negb]; [|discriminate].
  destruct ((1 <=? d) && (d <=? days_in_month y m)) eqn:Ed; cbn [negb]; [|discriminate].
  intros [= <-]. split; [reflexivity|].
  apply andb_true_iff in Em, Ed. destruct Em as [Em1 Em2], Ed as [Ed1 Ed2].
  rewrite Em1, Em2, Ed1, Ed2. reflexivity.
Qed.

Lemma check_date_fields_valid y m d :
  valid_ymd y m d = true -> check_date_fields y m d = Ok (mkdate y m d).
Proof.
  intros V. apply valid_ymd_spec in V. destruct V as (Hy & Hm & Hd).
  unfold check_date_fields, MINYEAR, MAXYEAR.
  replace ((1 <=? y) && (y <=? 9999)) with true
    by (symmetry; apply andb_true_iff; split; apply Z.leb_le; lia).
  replace ((1 <=? m) && (m <=? 12)) with true
    by (symmetry; apply andb_true_iff; split; apply Z.leb_le; lia).
  replace ((1 <=? d) && (d <=? days_in_month y m)) with true
    by (symmetry; apply andb_true_iff; split; apply Z.leb_le; lia).
  reflexivity.
Qed.

Lemma check_date_fields_raises y m d e :
  check_date_fields y m d = Raise e -> exists msg, e = ValueError msg.
Proof.
  unfold check_date_fields.
  repeat match goal with
         | |- context [if ?b then _ else _] => destruct b
         end; intros [= <-]; eauto.
Qed.

(** On 29 February, [replace] to a year that is not a leap year raises. *)
Lemma replace_year_leap_day d y :
  month d = 2 -> day d = 29 -> 1 <= y <= 9999 -> is_leap y = false ->
  replace_year d y = Raise (ValueError "day is out of range for month").
Proof.
  intros Hm Hd Hy L. unfold replace_year, check_date_fields, MINYEAR, MAXYEAR.
  rewrite Hm, Hd.
  replace ((1 <=? y) && (y <=? 9999)) with true
    by (symmetry; apply andb_true_iff; split; apply Z.leb_le; lia).
  unfold days_in_month. rewrite L. reflexivity.
Qed.

Lemma date_eqb_eq a b : date_eqb a b = true <-> a = b.
Proof.
  unfold date_eqb. destruct a, b; simpl.
  rewrite !andb_true_iff, !Z.eqb_eq. split.
  - intros [[-> ->] ->]. reflexivity.
  - intros [= -> -> ->]. auto.
Qed.

Lemma date_eqb_refl a : date_eqb a a = true.
Proof. apply date_eqb_eq. reflexivity. Qed.

(** What [next_occurrence] returns, when it returns: the birthday's month
    and day in the year of [today], or in the next year when that date is
    before [today]; in both cases a date that is not before [today]. *)
Lemma next_occurrence_ok today bd c :
  valid_date today = true ->
  next_occurrence today bd = Ok c ->
  valid_date c = true
  /\ ((c = mkdate (year today) (month bd) (day bd) /\ date_ltb c today = false)
      \/ (c = mkdate (year today + 1) (month bd) (day bd)
          /\ date_ltb (mkdate (year today) (month bd) (day bd)) today = true))
  /\ 0 <= sub_days c today.
Proof.
  intros Vt. unfold next_occurrence, replace_year.
  destruct (check_date_fields (year today) (month bd) (day bd)) as [c0|e] eqn:E0;
    simpl; [|discriminate].
  apply check_date_fields_ok in E0. destruct E0 as [-> V0].
  destruct (date_ltb _ today) eqn:L.
  - cbn [year month day]. intros E1. apply check_date_fields_ok in E1.
    destruct E1 as [-> V1]. split; [exact V1|]. split; [right; auto|].
    unfold sub_days.
    assert (date_ltb today (mkdate (year today + 1) (month bd) (day bd)) = true) as L'.
    { unfold date_ltb. cbn [year month day].
      apply orb_true_iff. left. apply Z.ltb_lt. lia. }
    pose proof (date_ltb_toordinal today (mkdate (year today + 1) (month bd) (day bd))
                  Vt V1 L'). lia.
  - intros [= <-]. split; [exact V0|]. split; [left; auto|].
    unfold sub_days.
    pose proof (date_ltb_false_toordinal
                  (mkdate (year today) (month bd) (day bd)) today V0 Vt L). lia.
Qed.

Lemma next_occurrence_raises today bd e :
  next_occurrence today bd = Raise e -> exists msg, e = ValueError msg.
Proof.
  unfold next_occurrence, replace_year.
  destruct (check_date_fields (year today) _ _) as [c0|e0] eqn:E0; simpl.
  - destruct (date_ltb c0 today); [|discriminate].
    apply check_date_fields_raises.
  - intros [= <-]. eapply check_date_fields_raises; eauto.
Qed.

Lemma next_occurrence_leap_day today bd :
  valid_date today = true -> month bd = 2 -> day bd = 29 ->
  is_leap (year today) = false ->
  next_occurrence today bd = Raise (ValueError "day is out of range for month").
Proof.
  intros Vt Hm Hd L. unfold next_occurrence.
  apply valid_ymd_spec in Vt. destruct Vt as (Hy & _).
  rewrite (replace_year_leap_day bd (year today) Hm Hd Hy L). reflexivity.
Qed.

Lemma weekday_range d : 0 <= weekday d <= 6.
Proof. unfold weekday. zdiv. Qed.

(** The weekend shift never leaves the range of [date] and lands on a
    Monday. *)
Lemma congratulation_date_of_spec c : valid_date c = true ->
  exists day, congratulation_date_of c = Ok day /\ valid_date day = true
              /\ shifted c day.
Proof.
  intros V. pose proof (toordinal_range c V) as R.
  pose proof (weekday_range c) as W.
  unfold congratulation_date_of, shifted.
  destruct (5 <=? weekday c) eqn:E.
  - apply Z.leb_le in E.
    assert (1 <= toordinal c + (7 - weekday c) <= MAXORDINAL) as B
      by (unfold weekday, MAXORDINAL in *; zdiv).
    destruct (ord2ymd_toordinal _ B) as [V' T'].
    assert (add_days c (7 - weekday c) = Ok (ord2ymd (toordinal c + (7 - weekday c)))) as A.
    { unfold add_days. cbv zeta.
      replace ((0 <? toordinal c + (7 - weekday c))
               && (toordinal c + (7 - weekday c) <=? MAXORDINAL)) with true;
        [reflexivity|].
      symmetry. apply andb_true_iff. split; [apply Z.ltb_lt|apply Z.leb_le]; lia. }
    exists (ord2ymd (toordinal c + (7 - weekday c))).
    split; [exact A|]. split; [exact V'|].
    assert (weekday (ord2ymd (toordinal c + (7 - weekday c))) = 0) as M
      by (unfold weekday at 1; rewrite T'; unfold weekday; zdiv).
    destruct (Z.eq_dec (weekday c) 5) as [E5|N5].
    + right. left. rewrite E5 in *. change (7 - 5) with 2 in *. auto.
    + right. right. assert (weekday c = 6) as E6 by lia.
      rewrite E6 in *. change (7 - 6) with 1 in *. auto.
  - apply Z.leb_gt in E. exists c. split; [reflexivity|]. split; [exact V|].
    left. split; [lia|reflexivity].
Qed.

(** ** The loop of [birthdays] *)

Lemma setdefault_append_nil D nm : setdefault_append [] D nm = [(D, [nm])].
Proof. reflexivity. Qed.

Lemma setdefault_append_cons k v up D nm :
  setdefault_append ((k, v) :: up) D nm
  = if date_eqb k D then (k, (v ++ [nm])%list) :: up
    else (k, v) :: setdefault_append up D nm.
Proof.
  unfold setdefault_append. cbn [dict_get].
  destruct (date_eqb k D) eqn:E.
  - cbn [dict_set]. rewrite E. reflexivity.
  - destruct (dict_get date_eqb D up); cbn [dict_set]; rewrite E; reflexivity.
Qed.

Lemma filed_nil day n : ~ filed [] day n.
Proof. intros (names & [] & _). Qed.

Lemma filed_cons k v up day n :
  filed ((k, v) :: up) day n <-> (day = k /\ In n v) \/ filed up day n.
Proof.
  unfold filed. split.
  - intros (names & [E|I] & Hn).
    + injection E as -> ->. left. auto.
    + right. eauto.
  - intros [[-> Hn]|(names & I & Hn)].
    + exists v. split; [left; reflexivity|assumption].
    + exists names. split; [right; assumption|assumption].
Qed.

Lemma filed_setdefault_append up D nm day n :
  filed (setdefault_append up D nm) day n
  <-> filed up day n \/ (day = D /\ n = nm).
Proof.
  induction up as [|[k v] up IH].
  - rewrite setdefault_append_nil, filed_cons. simpl.
    pose proof (filed_nil day n). intuition congruence.
  - rewrite setdefault_append_cons. destruct (date_eqb k D) eqn:E.
    + apply date_eqb_eq in E. subst k. rewrite !filed_cons, in_app_iff. simpl.
      intuition congruence.
    + rewrite !filed_cons, IH. tauto.
Qed.


Lemma birthdays_step_ok today up record up' :
  birthdays_step today up record = Ok up' ->
  forall day n,
    filed up' day n
    <-> filed up day n
        \/ (n = Name_value (name record) /\ exists c, due today record c day).
Proof.
  unfold birthdays_step, due, has_birthday. intros H day n.
  destruct (birthday record) as [[[bd|]]|] eqn:Eb; cbn [Birthday_value] in H.
  - destruct (next_occurrence today bd) as [c|e] eqn:En; simpl in H; [|discriminate].
    destruct ((0 <=? sub_days c today) && (sub_days c today <? 7)) eqn:Ew.
    + destruct (congratulation_date_of c) as [cd|e] eqn:Ec; simpl in H; [|discriminate].
      injection H as <-. rewrite filed_setdefault_append.
      apply andb_true_iff in Ew. destruct Ew as [W1 W2].
      apply Z.leb_le in W1. apply Z.ltb_lt in W2.
      split.
      * intros [F|[-> ->]]; [left; assumption|].
        right. split; [reflexivity|]. exists c, bd. auto.
      * intros [F|[-> (c' & bd' & [= <-] & En' & W & Ec')]]; [left; assumption|].
        right. rewrite En in En'. injection En' as <-.
        rewrite Ec in Ec'. injection Ec' as <-. auto.
    + injection H as <-. split; [auto|].
      intros [F|[-> (c' & bd' & [= <-] & En' & W & Ec')]]; [assumption|].
      rewrite En in En'. injection En' as <-.
      apply andb_false_iff in Ew. destruct Ew as [W1|W2].
      * apply Z.leb_gt in W1. lia.
      * apply Z.ltb_ge in W2. lia.
  - injection H as <-. split; [auto|].
    intros [F|[_ (c & bd & [=] & _)]]. assumption.
  - injection H as <-. split; [auto|].
    intros [F|[_ (c & bd & [=] & _)]]. assumption.
Qed.

Lemma birthdays_loop_ok today records : forall up up',
  for_each (birthdays_step today) records up = Ok up' ->
  forall day n,
    filed up' day n
    <-> filed up day n
        \/ exists record c, In record records
             /\ n = Name_value (name record) /\ due today record c day.
Proof.
  induction records as [|r records IH]; intros up up' H day n.
  - injection H as <-. split; [auto|]. intros [F|(r & c & [] & _)]. assumption.
  - simpl in H.
    destruct (birthdays_step today up r) as [up1|e] eqn:E1; simpl in H; [|discriminate].
    rewrite (IH _ _ H day n), (birthdays_step_ok _ _ _ _ E1 day n).
    split.
    + intros [[F|[-> (c & D)]]|(r' & c & I & -> & D)].
      * left. assumption.
      * right. exists r, c. simpl. auto.
      * right. exists r', c. simpl. auto.
    + intros [F|(r' & c & [<-|I] & -> & D)].
      * left. left. assumption.
      * left. right. split; [reflexivity|]. exists c. assumption.
      * right. exists r', c. auto.
Qed.

(** The loop of [birthdays] ends normally when the next occurrence exists
    for every birthday in the book. *)
Lemma birthdays_step_returns today up record :
  valid_date today = true ->
  (forall bd, has_birthday record bd ->
              exists c, next_occurrence today bd = Ok c) ->
  exists up', birthdays_step today up record = Ok up'.
Proof.
  intros Vt H. unfold birthdays_step, has_birthday in *.
  destruct (birthday record) as [[[bd|]]|]; cbn [Birthday_value]; eauto.
  destruct (H bd eq_refl) as [c En]. rewrite En. simpl.
  destruct (_ && _); eauto.
  destruct (next_occurrence_ok _ _ _ Vt En) as (Vc & _).
  destruct (congratulation_date_of_spec c Vc) as (cd & -> & _). simpl. eauto.
Qed.

Lemma birthdays_loop_returns today records :
  valid_date today = true ->
  (forall record bd, In record records -> has_birthday record bd ->
                     exists c, next_occurrence today bd = Ok c) ->
  forall up, exists up', for_each (birthdays_step today) records up = Ok up'.
Proof.
  intros Vt. induction records as [|r records IH]; intros H up.
  - simpl. eauto.
  - simpl.
    destruct (birthdays_step_returns today up r Vt) as [up1 ->].
    { intros bd Hb. apply (H r bd); [left; reflexivity|assumption]. }
    simpl. apply IH. intros record bd I. apply H. right. assumption.
Qed.

(** The loop stops at the first contact whose step raises. *)
Lemma for_each_raises {S X} (body : S -> X -> result S) xs x :
  In x xs -> (forall s, exists e, body s x = Raise e) ->
  forall s, exists e, for_each body xs s = Raise e.
Proof.
  intros I R. induction xs as [|y xs IH]; intros s; [destruct I|].
  simpl. destruct (body s y) as [s'|e] eqn:E; simpl; [|eauto].
  destruct I as [->|I]; [|apply IH; assumption].
  destruct (R s) as [e' E']. congruence.
Qed.

Lemma birthdays_step_raises today up record e :
  valid_date today = true ->
  birthdays_step today up record = Raise e -> exists msg, e = ValueError msg.
Proof.
  intros Vt. unfold birthdays_step.
  destruct (birthday record) as [[[bd|]]|]; cbn [Birthday_value]; try discriminate.
  destruct (next_occurrence today bd) as [c|e'] eqn:En; simpl.
  - destruct (_ && _); [|discriminate].
    destruct (next_occurrence_ok _ _ _ Vt En) as (Vc & _).
    destruct (congratulation_date_of_spec c Vc) as (cd & -> & _). discriminate.
  - intros [= <-]. eapply next_occurrence_raises; eauto.
Qed.

Lemma birthdays_loop_raises today records : forall up e,
  valid_date today = true ->
  for_each (birthdays_step today) records up = Raise e ->
  exists msg, e = ValueError msg.
Proof.
  induction records as [|r records IH]; intros up e Vt; simpl; [discriminate|].
  destruct (birthdays_step today up r) as [up1|e1] eqn:E1; simpl.
  - apply IH. assumption.
  - intros [= <-]. eapply birthdays_step_raises; eauto.
Qed.

Lemma next_occurrence_valid today bd c :
  next_occurrence today bd = Ok c -> valid_date c = true.
Proof.
  unfold next_occurrence, replace_year.
  destruct (check_date_fields (year today) (month bd) (day bd)) as [c0|e] eqn:E0;
    simpl; [|discriminate].
  apply check_date_fields_ok in E0. destruct E0 as [-> V0].
  destruct (date_ltb _ today).
  - intros E1. apply check_date_fields_ok in E1. destruct E1 as [-> V1]. exact V1.
  - intros [= <-]. exact V0.
Qed.

Lemma congratulation_date_of_shifted c day :
  valid_date c = true -> congratulation_date_of c = Ok day -> shifted c day.
Proof.
  intros V E. destruct (congratulation_date_of_spec c V) as (day' & E' & _ & S).
  rewrite E in E'. injection E' as <-. exact S.
Qed.

(** The loop of [get_upcoming_birthdays]: every entry of the result comes
    from a user whose next birthday is at most six days ahead, and carries
    the shifted date. *)
Lemma get_upcoming_birthdays_loop libc today users : forall acc out,
  for_each (get_upcoming_birthdays_step libc today) users acc = Ok out ->
  forall entry, In entry out ->
    In entry acc
    \/ exists user s nm bd c day,
         In user users
         /\ subscript user "birthday" = Ok s /\ subscript user "name" = Ok nm
         /\ strptime s "%Y.%m.%d" = Ok bd
         /\ next_occurrence today bd = Ok c
         /\ 0 <= sub_days c today < 7
         /\ shifted c day
         /\ entry = [("name", nm);
                     ("congratulation_date", strftime libc day "%Y.%m.%d")].
Proof.
  induction users as [|u users IH]; intros acc out H entry I.
  - injection H as <-. left. assumption.
  - simpl in H.
    destruct (get_upcoming_birthdays_step libc today acc u) as [acc1|e] eqn:E1;
      simpl in H; [|discriminate].
    destruct (IH _ _ H entry I) as [I1|(user & s & nm & bd & c & day & Iu & R)].
    2:{ right. exists user, s, nm, bd, c, day. split; [right; assumption|exact R]. }
    unfold get_upcoming_birthdays_step in E1.
    destruct (subscript u "birthday") as [s|] eqn:Es; simpl in E1; [|discriminate].
    destruct (strptime s "%Y.%m.%d") as [bd|] eqn:Ep; simpl in E1; [|discriminate].
    destruct (next_occurrence today bd) as [c|] eqn:En; simpl in E1; [|discriminate].
    destruct ((0 <=? sub_days c today) && (sub_days c today <? 7)) eqn:Ew.
    + destruct (congratulation_date_of c) as [day|] eqn:Ec; simpl in E1; [|discriminate].
      destruct (subscript u "name") as [nm|] eqn:Enm; simpl in E1; [|discriminate].
      injection E1 as <-. apply in_app_iff in I1. destruct I1 as [I1|[<-|[]]].
      * left. assumption.
      * right. exists u, s, nm, bd, c, day.
        apply andb_true_iff in Ew. destruct Ew as [W1 W2].
        apply Z.leb_le in W1. apply Z.ltb_lt in W2.
        repeat split; auto; try lia.
        -- left. reflexivity.
        -- apply congratulation_date_of_shifted; [|assumption].
           eapply next_occurrence_valid; eauto.
    + injection E1 as <-. left. assumption.
Qed.

(** C2: every contact in the upcoming-birthdays result is filed under the
    congratulation date obtained from its candidate date [c]: [c] itself
    when [c] is a Monday to Friday, [c] plus two days when [c] is a
    Saturday, [c] plus one day when [c] is a Sunday, a Monday in both
    weekend cases.  This holds for the dictionary built by [birthdays] and
    for the list built by [get_upcoming_birthdays]. *)
Theorem congratulation_date_is_shifted_candidate
    (libc : c_library) (today : date) (book : AddressBook)
    (upcoming : list (date * list string)) (users out : list user_dict) :
  birthdays_upcoming today book = Ok upcoming ->
  get_upcoming_birthdays libc today users = Ok out ->
  (forall day n, filed upcoming day n ->
     exists record c,
       In record (dict_values book) /\ Name_value (name record) = n
       /\ due today record c day /\ shifted c day)
  /\ (forall entry, In entry out ->
        exists user s nm bd c day,
          In user users
          /\ subscript user "birthday" = Ok s /\ subscript user "name" = Ok nm
          /\ strptime s "%Y.%m.%d" = Ok bd
          /\ next_occurrence today bd = Ok c
          /\ 0 <= sub_days c today < 7
          /\ shifted c day
          /\ entry = [("name", nm);
                      ("congratulation_date", strftime libc day "%Y.%m.%d")]).
Proof.
  intros Hb Hg. split.
  - intros day n F. unfold birthdays_upcoming in Hb.
    apply (birthdays_loop_ok _ _ _ _ Hb day n) in F.
    destruct F as [F|(record & c & I & -> & D)]; [destruct (filed_nil _ _ F)|].
    exists record, c. repeat split; auto.
    destruct D as (bd & _ & En & _ & Ec).
    apply congratulation_date_of_shifted; [|assumption].
    eapply next_occurrence_valid; eauto.
  - intros entry I. unfold get_upcoming_birthdays in Hg.
    destruct (get_upcoming_birthdays_loop _ _ _ _ _ Hg entry I) as [[]|R]. exact R.
Qed.

Lemma congratulation_date_is_shifted_candidate_witness :
  (exists record c,
     In record (dict_values book_november) /\ Name_value (name record) = "Bob"
     /\ due (mkdate 2026 11 3) record c (mkdate 2026 11 9)
     /\ shifted c (mkdate 2026 11 9))
  /\ (exists user s nm bd c day,
        In user [[("name", "Eve"); ("birthday", "1985.11.08")]]
        /\ subscript user "birthday" = Ok s /\ subscript user "name" = Ok nm
        /\ strptime s "%Y.%m.%d" = Ok bd
        /\ next_occurrence (mkdate 2026 11 3) bd = Ok c
        /\ 0 <= sub_days c (mkdate 2026 11 3) < 7
        /\ shifted c day
        /\ [("name", "Eve"); ("congratulation_date", "2026.11.09")]
           = [("name", nm);
              ("congratulation_date", strftime year_as_is day "%Y.%m.%d")]).
Proof.
  destruct (congratulation_date_is_shifted_candidate
              year_as_is (mkdate 2026 11 3) book_november
              [(mkdate 2026 11 5, ["Alice"]); (mkdate 2026 11 9, ["Bob"])]
              [[("name", "Eve"); ("birthday", "1985.11.08")]]
              [[("name", "Eve"); ("congratulation_date", "2026.11.09")]]
              eq_refl eq_refl) as [H1 H2].
  split.
  - apply H1. exists ["Bob"]. simpl. auto.
  - apply H2. simpl. auto.
Defined.

(** ** [days_to_birthday] *)

(** Whenever the next occurrence [c] of the birthday exists,
    [days_to_birthday] returns the number of days from [today] to [c],
    which is not negative, and leaves the record as it was. *)
Lemma days_to_birthday_returns today record bd c :
  valid_date today = true -> has_birthday record bd ->
  next_occurrence today bd = Ok c ->
  Record_days_to_birthday today record
  = (Ok (Some (toordinal c - toordinal today)), record)
  /\ 0 <= toordinal c - toordinal today.
Proof.
  intros Vt Hb En. unfold Record_days_to_birthday, bind, get, lift, ret.
  rewrite Hb. cbn [Birthday_value]. rewrite En. split; [reflexivity|].
  destruct (next_occurrence_ok _ _ _ Vt En) as (_ & _ & S). exact S.
Qed.

Lemma days_to_birthday_no_birthday today record :
  birthday record = None ->
  Record_days_to_birthday today record = (Ok None, record).
Proof.
  intros Hb. unfold Record_days_to_birthday, bind, get, ret. rewrite Hb. reflexivity.
Qed.

(** [days_to_birthday] never changes the record. *)
Lemma days_to_birthday_pure today record :
  snd (Record_days_to_birthday today record) = record.
Proof.
  unfold Record_days_to_birthday, bind, get, lift, ret.
  destruct (birthday record) as [[[bd|]]|]; cbn [Birthday_value]; try reflexivity.
  destruct (next_occurrence today bd); reflexivity.
Qed.

(** C6: for the contact born on 29 February 2000 and the clock at
    1 March 2023, [days_to_birthday] returns no day count: it raises the
    [ValueError] of [date.replace]. *)
Theorem days_to_birthday_leap_day_2023 :
  has_birthday record_leap_day (mkdate 2000 2 29)
  /\ Record_days_to_birthday (mkdate 2023 3 1) record_leap_day
     = (Raise (ValueError "day is out of range for month"), record_leap_day).
Proof. split; reflexivity. Qed.

(** ** The [birthdays] handler *)

Lemma birthdays_func_unfold libc today book :
  birthdays_func libc today [] book
  = match birthdays_upcoming today book with
    | Ok upcoming => (Ok (birthdays_report libc upcoming), book)
    | Raise e => (Raise e, book)
    end.
Proof.
  unfold birthdays_func, bind, get, lift, ret.
  destruct (birthdays_upcoming today book); reflexivity.
Qed.

(** When the next occurrence exists for every birthday in the book, the
    listing is produced, and a contact is in it exactly when its next
    birthday is at most six days ahead. *)
Lemma birthdays_lists_the_due libc today book :
  valid_date today = true ->
  (forall record bd, In record (dict_values book) -> has_birthday record bd ->
                     exists c, next_occurrence today bd = Ok c) ->
  exists upcoming,
    birthdays_upcoming today book = Ok upcoming
    /\ birthdays libc today [] book = (Ok (birthdays_report libc upcoming), book)
    /\ forall day n,
         filed upcoming day n
         <-> exists record c, In record (dict_values book)
               /\ n = Name_value (name record) /\ due today record c day.
Proof.
  intros Vt H.
  destruct (birthdays_loop_returns today (dict_values book) Vt H []) as [up E].
  exists up. split; [exact E|]. split.
  - unfold birthdays, input_error. rewrite birthdays_func_unfold.
    unfold birthdays_upcoming. rewrite E. reflexivity.
  - intros day n. rewrite (birthdays_loop_ok _ _ _ _ E day n).
    pose proof (filed_nil day n). tauto.
Qed.

(** C1: in the book holding Alice, born on 1 March, and Bob, born on
    29 February, with the clock at 1 March 2023, Alice's next birthday is
    today (delta 0), yet the loop of [birthdays] raises and the handler
    returns the text of the [ValueError] and no listing. *)
Theorem birthdays_leap_day_2023 (libc : c_library) :
  AddressBook_find book_leap_day "Alice"
  = Some (mkRecord (mkName "Alice") [] (Some (mkBirthday (Some (mkdate 1990 3 1)))))
  /\ next_occurrence (mkdate 2023 3 1) (mkdate 1990 3 1) = Ok (mkdate 2023 3 1)
  /\ sub_days (mkdate 2023 3 1) (mkdate 2023 3 1) = 0
  /\ birthdays_upcoming (mkdate 2023 3 1) book_leap_day
     = Raise (ValueError "day is out of range for month")
  /\ birthdays libc (mkdate 2023 3 1) [] book_leap_day
     = (Ok "day is out of range for month", book_leap_day).
Proof. repeat split; reflexivity. Qed.

(** C10: for a record whose birthday is 29 February and a clock in a year
    that is not a leap year, [days_to_birthday] raises a [ValueError] and
    returns no day count; the step of the [birthdays] loop for that record
    raises the same error whatever was collected before; so for a book that
    holds the record the loop raises a [ValueError] and [birthdays] returns
    that error's message in place of the report. *)
Theorem leap_day_birthday_raises
    (libc : c_library) (today : date) (record : Record) (bd : date)
    (book : AddressBook) :
  valid_date today = true -> is_leap (year today) = false ->
  has_birthday record bd -> month bd = 2 -> day bd = 29 ->
  In record (dict_values book) ->
  Record_days_to_birthday today record
  = (Raise (ValueError "day is out of range for month"), record)
  /\ (forall upcoming,
        birthdays_step today upcoming record
        = Raise (ValueError "day is out of range for month"))
  /\ (exists msg,
        birthdays_upcoming today book = Raise (ValueError msg)
        /\ birthdays libc today [] book = (Ok msg, book)).
Proof.
  intros Vt L Hb Hm Hd I.
  pose proof (next_occurrence_leap_day today bd Vt Hm Hd L) as En.
  assert (forall upcoming,
             birthdays_step today upcoming record
             = Raise (ValueError "day is out of range for month")) as St.
  { intros up. unfold birthdays_step. rewrite Hb. cbn [Birthday_value].
    rewrite En. reflexivity. }
  split; [|split].
  - unfold Record_days_to_birthday, bind, get, lift, ret.
    rewrite Hb. cbn [Birthday_value]. rewrite En. reflexivity.
  - exact St.
  - destruct (for_each_raises (birthdays_step today) (dict_values book) record I
                (fun s => ex_intro _ _ (St s)) []) as [e E].
    destruct (birthdays_loop_raises _ _ _ _ Vt E) as [msg ->].
    exists msg. split; [exact E|].
    unfold birthdays, input_error. rewrite birthdays_func_unfold.
    unfold birthdays_upcoming. rewrite E. reflexivity.
Qed.

Lemma leap_day_birthday_raises_witness :
  Record_days_to_birthday (mkdate 2023 3 1) record_leap_day
  = (Raise (ValueError "day is out of range for month"), record_leap_day)
  /\ (forall upcoming,
        birthdays_step (mkdate 2023 3 1) upcoming record_leap_day
        = Raise (ValueError "day is out of range for month"))
  /\ (exists msg,
        birthdays_upcoming (mkdate 2023 3 1) book_leap_day = Raise (ValueError msg)
        /\ birthdays year_as_is (mkdate 2023 3 1) [] book_leap_day
           = (Ok msg, book_leap_day)).
Proof.
  apply (leap_day_birthday_raises year_as_is (mkdate 2023 3 1) record_leap_day
           (mkdate 2000 2 29) book_leap_day); try reflexivity.
  simpl. auto.
Defined.

(** ** Decimal digits and code points *)

Lemma decimal_zero_spec c z :
  decimal_zero c = Some z -> In z DECIMAL_ZEROS /\ z <= c < z + 10.
Proof.
  unfold decimal_zero. intros H. apply find_some in H. destruct H as [I H].
  split; [exact I|]. apply andb_true_iff in H. destruct H as [H1 H2].
  apply Z.leb_le in H1. apply Z.ltb_lt in H2. lia.
Qed.

Lemma decimal_zeros_cases z : In z DECIMAL_ZEROS -> z = 48 \/ 1632 <= z.
Proof.
  intros I.
  assert (forallb (fun z => (z =? 48) || (1632 <=? z)) DECIMAL_ZEROS = true)
    as F by (vm_compute; reflexivity).
  rewrite forallb_forall in F. specialize (F z I).
  apply orb_true_iff in F. destruct F as [F|F];
    [left; apply Z.eqb_eq, F|right; apply Z.leb_le, F].
Qed.

Lemma decimal_zero_ascii c : 48 <= c <= 57 -> decimal_zero c = Some 48.
Proof.
  intros H. unfold decimal_zero, DECIMAL_ZEROS. cbn [find].
  replace ((48 <=? c) && (c <? 48 + 10)) with true; [reflexivity|].
  symmetry. apply andb_true_iff. split; [apply Z.leb_le|apply Z.ltb_lt]; lia.
Qed.

(** A decimal digit is one of [0] to [9] or a code point from 1632 on. *)
Lemma is_decimal_cases c :
  is_decimal c = true -> 48 <= c <= 57 \/ 1632 <= c.
Proof.
  unfold is_decimal. destruct (decimal_zero c) as [z|] eqn:E; [|discriminate].
  intros _. apply decimal_zero_spec in E. destruct E as [I R].
  destruct (decimal_zeros_cases z I) as [->|G]; lia.
Qed.

Lemma is_decimal_ascii c : 48 <= c <= 57 -> is_decimal c = true.
Proof.
  intros H. unfold is_decimal. rewrite decimal_zero_ascii by exact H.
  reflexivity.
Qed.

Lemma is_decimal_below c : c < 1632 -> is_decimal c = is_ascii_digit c.
Proof.
  intros H. unfold is_ascii_digit. destruct (is_decimal c) eqn:D.
  - destruct (is_decimal_cases c D) as [R|R]; [|lia].
    symmetry. apply andb_true_iff. split; apply Z.leb_le; lia.
  - destruct (Z.leb_spec 48 c) as [L|L]; [|reflexivity].
    destruct (Z.leb_spec c 57) as [U|U]; [|reflexivity].
    rewrite is_decimal_ascii in D by lia. discriminate D.
Qed.

Lemma decimal_value_ascii c : 48 <= c <= 57 -> decimal_value c = c - 48.
Proof.
  intros H. unfold decimal_value. rewrite decimal_zero_ascii by exact H.
  reflexivity.
Qed.

Lemma decimal_value_range c : is_decimal c = true -> 0 <= decimal_value c <= 9.
Proof.
  unfold is_decimal, decimal_value.
  destruct (decimal_zero c) as [z|] eqn:E; [|discriminate].
  intros _. apply decimal_zero_spec in E. lia.
Qed.

(** No decimal digit is white space for [int]. *)
Lemma decimal_not_int_space c : is_decimal c = true -> is_int_space c = false.
Proof.
  intros D. destruct (is_int_space c) eqn:E; [|reflexivity].
  unfold is_int_space in E. apply existsb_exists in E.
  destruct E as (x & I & E). apply Z.eqb_eq in E. subst x.
  assert (forallb (fun c => negb (is_decimal c)) INT_SPACES = true) as F
    by (vm_compute; reflexivity).
  rewrite forallb_forall in F. specialize (F c I). rewrite D in F.
  discriminate F.
Qed.

Lemma ord_range c : 0 <= ord c < 256.
Proof.
  unfold ord. pose proof (N_ascii_bounded c) as B. lia.
Qed.

(** Below 256 the decimal digits are [0] to [9]. *)
Lemma is_decimal_ord c : is_decimal (ord c) = is_digit c.
Proof.
  pose proof (ord_range c) as R. rewrite is_decimal_below by lia.
  unfold is_ascii_digit, is_digit, in_range. reflexivity.
Qed.

Lemma code_points_cons c (s : string) :
  code_points (String c s) = ord c :: code_points s.
Proof. reflexivity. Qed.

Lemma code_points_length (s : string) :
  List.length (code_points s) = String.length s.
Proof.
  induction s as [|c s IH]; [reflexivity|].
  rewrite code_points_cons. simpl. rewrite IH. reflexivity.
Qed.

Lemma forallb_code_points (s : string) :
  forallb is_decimal (code_points s) = all_chars is_digit s.
Proof.
  induction s as [|c s IH]; [reflexivity|].
  rewrite code_points_cons. simpl. rewrite IH, is_decimal_ord. reflexivity.
Qed.

(** On a string of code points below 256, ten decimal digits are ten of
    the digits [0] to [9]. *)
Lemma ten_decimal_digits_code_points (s : string) :
  ten_decimal_digits (code_points s) = ten_digits s.
Proof.
  unfold ten_decimal_digits, ten_digits.
  rewrite code_points_length, forallb_code_points. reflexivity.
Qed.

(** ** [Phone] *)

Lemma rmatch_times_digit {A} n : forall s g (k : ustr -> groups -> option A),
  rmatch (times n Digit) s g k
  = match take_decimals n s with
    | Some rest => k rest g
    | None => None
    end.
Proof.
  induction n as [|n IH]; intros s g k; [reflexivity|].
  simpl. destruct s as [|c s]; [reflexivity|].
  destruct (is_decimal c); [apply IH|reflexivity].
Qed.

Lemma take_decimals_all n : forall s,
  take_decimals n s = Some []
  <-> List.length s = n /\ forallb is_decimal s = true.
Proof.
  induction n as [|n IH]; intros s; simpl.
  - destruct s; simpl; split.
    + auto.
    + auto.
    + discriminate.
    + intros [[=] _].
  - destruct s as [|c s]; simpl.
    + split; [discriminate|intros [[=] _]].
    + destruct (is_decimal c); simpl.
      * rewrite IH. split; intros [H1 H2]; split; auto.
      * split; [discriminate|intros [_ [=]]].
Qed.

(** [PHONE_REGEX.fullmatch] on a string of any code points. *)
Lemma fullmatch_phone_regex (s : ustr) :
  fullmatch PHONE_REGEX s = if ten_decimal_digits s then Some [] else None.
Proof.
  unfold fullmatch, PHONE_REGEX. rewrite rmatch_times_digit.
  unfold ten_decimal_digits.
  destruct (take_decimals 10 s) as [rest|] eqn:E.
  - destruct rest as [|c rest].
    + apply take_decimals_all in E. destruct E as [-> ->]. reflexivity.
    + destruct (Nat.eqb (List.length s) 10 && forallb is_decimal s) eqn:T;
        [|reflexivity].
      apply andb_true_iff in T. destruct T as [T1 T2]. apply Nat.eqb_eq in T1.
      assert (take_decimals 10 s = Some []) as E'
        by (apply take_decimals_all; auto).
      congruence.
  - destruct (Nat.eqb (List.length s) 10 && forallb is_decimal s) eqn:T;
      [|reflexivity].
    apply andb_true_iff in T. destruct T as [T1 T2]. apply Nat.eqb_eq in T1.
    assert (take_decimals 10 s = Some []) as E'
      by (apply take_decimals_all; auto).
    congruence.
Qed.

Lemma Phone_init_any {S : Type} `{Str S} (s : S) :
  Phone_init s
  = if ten_decimal_digits (code_points s) then Ok (mkPhone s)
    else Raise (ValueError "Phone number must contain exactly 10 digits.").
Proof.
  unfold Phone_init. rewrite fullmatch_phone_regex.
  destruct (ten_decimal_digits (code_points s)); reflexivity.
Qed.

(** [Phone] on the strings of the command line. *)
Lemma Phone_init_eq (s : string) :
  Phone_init s
  = if ten_digits s then Ok (mkPhone s)
    else Raise (ValueError "Phone number must contain exactly 10 digits.").
Proof.
  rewrite Phone_init_any, ten_decimal_digits_code_points. reflexivity.
Qed.

(** C3: constructing a [Phone] from a string [s] of any code points
    succeeds exactly when [s] itself, as given, has ten characters, each a
    decimal digit (a character that the class [\d] takes, of whatever
    script); the stored value is then [s] unchanged; every other string,
    and so every string with a separator or of another length, is refused
    with the [ValueError] of the phone check.  The statement is made for
    every carrier of strings; at [ustr] it is about every Python string. *)
Theorem phone_accepts_exactly_ten_digits {S : Type} `{Str S} (s : S) :
  (ten_decimal_digits (code_points s) = true
   /\ Phone_init s = Ok (mkPhone s) /\ Phone_value (mkPhone s) = s)
  \/ (ten_decimal_digits (code_points s) = false
      /\ Phone_init s
         = Raise (ValueError "Phone number must contain exactly 10 digits.")).
Proof.
  rewrite Phone_init_any.
  destruct (ten_decimal_digits (code_points s)); [left|right]; auto.
Qed.

Example phone_plain : Phone_init "0123456789" = Ok (mkPhone "0123456789").
Proof. reflexivity. Qed.

Example phone_with_separators :
  Phone_init "012-345-6789"
  = Raise (ValueError "Phone number must contain exactly 10 digits.").
Proof. reflexivity. Qed.

Example phone_with_space :
  Phone_init " 0123456789"
  = Raise (ValueError "Phone number must contain exactly 10 digits.").
Proof. reflexivity. Qed.

Example phone_eleven_digits :
  Phone_init "01234567890"
  = Raise (ValueError "Phone number must contain exactly 10 digits.").
Proof. reflexivity. Qed.

(** Ten Arabic-Indic digits (U+0660 to U+0669) are ten decimal digits:
    the class [\d] of a [str] pattern takes them. *)
Example phone_arabic_indic_digits :
  Phone_init ([1632; 1633; 1634; 1635; 1636; 1637; 1638; 1639; 1640; 1641] : ustr)
  = Ok (mkPhone [1632; 1633; 1634; 1635; 1636; 1637; 1638; 1639; 1640; 1641]).
Proof. reflexivity. Qed.

(** Superscript digits are digits but not decimal digits. *)
Example phone_superscript_digits :
  Phone_init ([48; 49; 178; 179; 52; 53; 54; 55; 56; 57] : ustr)
  = Raise (ValueError "Phone number must contain exactly 10 digits.").
Proof. reflexivity. Qed.

(** ** [Record]: finding and editing phones *)

Lemma find_phone_from_none ps phone : forall i,
  find_phone_from i ps phone = None ->
  forall p, In p ps -> Phone_value p <> phone.
Proof.
  induction ps as [|q ps IH]; intros i H p I; [destruct I|].
  simpl in H. destruct (String.eqb_spec (Phone_value q) phone) as [E|N];
    [discriminate|].
  destruct I as [<-|I]; [assumption|]. eapply IH; eauto.
Qed.

Lemma find_phone_from_some ps phone : forall i j,
  find_phone_from i ps phone = Some j ->
  exists pre pold post,
    ps = (pre ++ pold :: post)%list /\ j = (i + List.length pre)%nat
    /\ Phone_value pold = phone
    /\ forall p, In p pre -> Phone_value p <> phone.
Proof.
  induction ps as [|q ps IH]; intros i j H; [discriminate|].
  simpl in H. destruct (String.eqb_spec (Phone_value q) phone) as [E|N].
  - injection H as <-. exists [], q, ps. simpl.
    split; [reflexivity|]. split; [lia|]. split; [assumption|]. intros p [].
  - destruct (IH _ _ H) as (pre & pold & post & -> & -> & V & F).
    exists (q :: pre), pold, post. simpl.
    split; [reflexivity|]. split; [lia|]. split; [assumption|].
    intros p [<-|I]; auto.
Qed.

Lemma list_assign_middle {A} (pre post : list A) x y :
  list_assign (List.length pre) x (pre ++ y :: post) = (pre ++ x :: post)%list.
Proof.
  induction pre as [|z pre IH]; simpl; [reflexivity|]. rewrite IH. reflexivity.
Qed.

Lemma list_remove_at_middle {A} (pre post : list A) y :
  list_remove_at (List.length pre) (pre ++ y :: post) = (pre ++ post)%list.
Proof.
  induction pre as [|z pre IH]; simpl; [reflexivity|]. rewrite IH. reflexivity.
Qed.

(** C7: [edit_phone(old, new)].  Either no stored phone equals [old], and
    then the call raises the not-found [ValueError] and leaves the record as
    it was; or the phones are [pre ++ pold :: post] with [pold] the first
    entry equal to [old], and then: if [new] is not ten digits the call
    raises the validation [ValueError] and leaves the record as it was, and
    otherwise it returns and the phones are [pre ++ Phone(new) :: post],
    every other entry and the order unchanged. *)
Theorem edit_phone_replaces_first_match (self : Record) (old new : string) :
  ((forall p, In p (phones self) -> Phone_value p <> old)
   /\ Record_edit_phone old new self
      = (Raise (ValueError "Phone number to edit not found."), self))
  \/ (exists pre pold post,
        phones self = (pre ++ pold :: post)%list
        /\ Phone_value pold = old
        /\ (forall p, In p pre -> Phone_value p <> old)
        /\ ((ten_digits new = false
             /\ Record_edit_phone old new self
                = (Raise (ValueError "Phone number must contain exactly 10 digits."),
                   self))
            \/ (ten_digits new = true
                /\ Record_edit_phone old new self
                   = (Ok tt, mkRecord (name self)
                               (pre ++ mkPhone new :: post)%list
                               (birthday self))))).
Proof.
  unfold Record_edit_phone, Record_find_phone, bind, get, put, lift, raise.
  destruct (find_phone_from 0 (phones self) old) as [j|] eqn:F.
  - right. destruct (find_phone_from_some _ _ _ _ F)
      as (pre & pold & post & E & -> & V & N).
    exists pre, pold, post. repeat split; auto.
    rewrite Phone_init_eq. destruct (ten_digits new); [right|left]; split; auto.
    unfold set_phones. rewrite E. simpl. rewrite list_assign_middle. reflexivity.
  - left. split; [|reflexivity]. eapply find_phone_from_none; eauto.
Qed.

Example edit_phone_second_of_three :
  Record_edit_phone "2222222222" "9999999999"
    (mkRecord (mkName "Ann")
       [mkPhone "1111111111"; mkPhone "2222222222"; mkPhone "2222222222"] None)
  = (Ok tt,
     mkRecord (mkName "Ann")
       [mkPhone "1111111111"; mkPhone "9999999999"; mkPhone "2222222222"] None).
Proof. reflexivity. Qed.

(** ** The invariant: stored phones are checked, stored birthdays are dates *)

Section Keeps.
Context {S : Type} (I : S -> Prop).

Lemma keeps_ret {A} (a : A) (Q : A -> Prop) : Q a -> keeps I (ret a) Q.
Proof. intros H s Hs. split; [exact Hs|]. intros a' [= <-]. exact H. Qed.

Lemma keeps_raise {A} e (Q : A -> Prop) : keeps I (raise e) Q.
Proof. intros s Hs. split; [exact Hs|]. intros a [=]. Qed.

Lemma keeps_lift {A} (r : result A) : keeps I (lift r) (fun a => r = Ok a).
Proof. intros s Hs. split; [exact Hs|]. simpl. auto. Qed.

Lemma keeps_get : keeps I get I.
Proof. intros s Hs. split; [exact Hs|]. intros a [= <-]. exact Hs. Qed.

Lemma keeps_put s' : I s' -> keeps I (put s') (fun _ => True).
Proof. intros H s Hs. split; [exact H|]. auto. Qed.

Lemma keeps_bind {A B} (m : M S A) (f : A -> M S B) Q R :
  keeps I m Q -> (forall a, Q a -> keeps I (f a) R) -> keeps I (bind m f) R.
Proof.
  intros Hm Hf s Hs. unfold bind.
  destruct (Hm s Hs) as [H1 H2].
  destruct (m s) as [[a|e] s'] eqn:E; simpl in *.
  - apply (Hf a (H2 a eq_refl) s' H1).
  - split; [exact H1|]. intros a [=].
Qed.

Lemma keeps_weaken {A} (m : M S A) (Q R : A -> Prop) :
  keeps I m Q -> (forall a, Q a -> R a) -> keeps I m R.
Proof.
  intros Hm H s Hs. destruct (Hm s Hs) as [H1 H2]. split; auto.
Qed.
End Keeps.

Lemma strptime_any_valid u format d :
  strptime_any u format = inr d -> valid_date d = true.
Proof.
  unfold strptime_any.
  destruct (pattern format) as [r|]; [|discriminate].
  destruct (re_match r u) as [[found rest]|]; [|discriminate].
  destruct rest; [|discriminate].
  destruct (group_int "Y" 1900 found) as [e|y]; [discriminate|].
  destruct (group_int "m" 1 found) as [e|m]; [discriminate|].
  destruct (group_int "d" 1 found) as [e|dd]; [discriminate|].
  destruct (check_date_fields y m dd) as [value|e] eqn:C; [|discriminate].
  intros [= <-]. apply check_date_fields_ok in C. destruct C as [-> V]. exact V.
Qed.

(** [strptime] on a string of the command line returns the date that
    [strptime_any] finds in its code points, and raises otherwise. *)
Lemma strptime_ok (s : string) format d :
  strptime s format = Ok d <-> strptime_any (code_points s) format = inr d.
Proof.
  unfold strptime.
  destruct (strptime_any (code_points s) format) as [[| |rest|text|e]|value];
    split; congruence.
Qed.

Lemma strptime_valid s format d : strptime s format = Ok d -> valid_date d = true.
Proof.
  intros H. apply strptime_ok in H. eapply strptime_any_valid; eauto.
Qed.

Lemma phone_ok_init s p : Phone_init s = Ok p -> phone_ok p.
Proof.
  unfold phone_ok. rewrite Phone_init_eq.
  destruct (ten_digits s) eqn:T; [|discriminate].
  intros [= <-]. simpl. rewrite Phone_init_eq, T. reflexivity.
Qed.

(** A phone has passed the check exactly when its value is ten digits. *)
Lemma phone_ok_ten_digits p : phone_ok p <-> ten_digits (Phone_value p) = true.
Proof.
  unfold phone_ok. rewrite Phone_init_eq. destruct p as [v]. simpl.
  destruct (ten_digits v); split; intros E; first [reflexivity|discriminate E].
Qed.

Lemma Birthday_init_any {S : Type} `{Str S} (s : S) :
  Birthday_init (ArgStr s)
  = match strptime_any (code_points s) DD_MM_YYYY with
    | inr d => Ok (mkBirthday (Some d))
    | inl _ => Raise (ValueError "Invalid date format. Use DD.MM.YYYY")
    end.
Proof. reflexivity. Qed.

Lemma Birthday_init_str (s : string) :
  Birthday_init (ArgStr s)
  = match strptime s DD_MM_YYYY with
    | Ok d => Ok (mkBirthday (Some d))
    | Raise _ => Raise (ValueError "Invalid date format. Use DD.MM.YYYY")
    end.
Proof.
  rewrite Birthday_init_any. unfold strptime.
  destruct (strptime_any (code_points s) DD_MM_YYYY) as [[| |rest|text|e]|value];
    reflexivity.
Qed.

Lemma Birthday_init_raises {S : Type} `{Str S} (s : S) e :
  Birthday_init (ArgStr s) = Raise e ->
  Birthday_init (ArgStr s)
  = Raise (ValueError "Invalid date format. Use DD.MM.YYYY").
Proof.
  rewrite Birthday_init_any.
  destruct (strptime_any (code_points s) DD_MM_YYYY); [reflexivity|discriminate].
Qed.

Lemma birthday_ok_init {S : Type} `{Str S} (s : S) b :
  Birthday_init (ArgStr s) = Ok b -> birthday_ok (Some b).
Proof.
  rewrite Birthday_init_any.
  destruct (strptime_any (code_points s) DD_MM_YYYY) as [e|d] eqn:E;
    [discriminate|].
  intros [= <-]. right. exists d. split; [reflexivity|].
  eapply strptime_any_valid; eauto.
Qed.

Lemma record_ok_init n r : Record_init n = Ok r -> record_ok r.
Proof.
  unfold Record_init. destruct (Name_init n); simpl; [|discriminate].
  intros [= <-]. split; [constructor|left; reflexivity].
Qed.

Lemma Forall_list_assign {A} (P : A -> Prop) x : forall l i,
  Forall P l -> P x -> Forall P (list_assign i x l).
Proof.
  induction l as [|y l IH]; intros i Hl Hx; [destruct i; constructor|].
  inversion Hl; subst. destruct i; simpl; constructor; auto.
Qed.

Lemma Forall_list_remove_at {A} (P : A -> Prop) : forall l i,
  Forall P l -> Forall P (list_remove_at i l).
Proof.
  induction l as [|y l IH]; intros i Hl; [destruct i; constructor|].
  inversion Hl; subst. destruct i; simpl; [assumption|constructor; auto].
Qed.

Lemma keeps_add_phone phone :
  keeps record_ok (Record_add_phone phone) (fun _ => True).
Proof.
  unfold Record_add_phone.
  eapply keeps_bind; [apply keeps_lift|]. intros p Hp.
  eapply keeps_bind; [apply keeps_get|]. intros self [Hph Hb].
  apply keeps_put. split; [|exact Hb]. simpl.
  apply Forall_app. split; [exact Hph|]. constructor; [|constructor].
  eapply phone_ok_init; exact Hp.
Qed.

Lemma keeps_remove_phone phone :
  keeps record_ok (Record_remove_phone phone) (fun _ => True).
Proof.
  unfold Record_remove_phone.
  eapply keeps_bind; [apply keeps_get|]. intros self [Hph Hb].
  destruct (Record_find_phone self phone); [|apply keeps_raise].
  apply keeps_put. split; [|exact Hb]. simpl.
  apply Forall_list_remove_at. exact Hph.
Qed.

Lemma keeps_edit_phone old new :
  keeps record_ok (Record_edit_phone old new) (fun _ => True).
Proof.
  unfold Record_edit_phone.
  eapply keeps_bind; [apply keeps_get|]. intros self0 _.
  destruct (Record_find_phone self0 old); [|apply keeps_raise].
  eapply keeps_bind; [apply keeps_lift|]. intros p Hp.
  eapply keeps_bind; [apply keeps_get|]. intros self [Hph Hb].
  apply keeps_put. split; [|exact Hb]. simpl.
  apply Forall_list_assign; [exact Hph|]. eapply phone_ok_init; exact Hp.
Qed.

Lemma keeps_add_birthday s :
  keeps record_ok (Record_add_birthday s) (fun _ => True).
Proof.
  unfold Record_add_birthday.
  eapply keeps_bind; [apply keeps_lift|]. intros b Hb.
  eapply keeps_bind; [apply keeps_get|]. intros self [Hph _].
  apply keeps_put. split; [exact Hph|]. simpl.
  eapply birthday_ok_init; exact Hb.
Qed.

Lemma keeps_days_to_birthday today :
  keeps record_ok (Record_days_to_birthday today) (fun _ => True).
Proof.
  intros r Hr. rewrite days_to_birthday_pure. auto.
Qed.

Lemma Forall_dict_set {V} (P : V -> Prop) k v : forall d : list (string * V),
  Forall P (dict_values d) -> P v ->
  Forall P (dict_values (dict_set String.eqb k v d)).
Proof.
  induction d as [|[k' v'] d IH]; intros Hd Hv; simpl.
  - constructor; [exact Hv|constructor].
  - inversion Hd; subst. destruct (String.eqb k' k); simpl; constructor; auto.
Qed.

Lemma Forall_dict_update {V} (P : V -> Prop) k v : forall d : list (string * V),
  Forall P (dict_values d) -> P v ->
  Forall P (dict_values (dict_update String.eqb k v d)).
Proof.
  induction d as [|[k' v'] d IH]; intros Hd Hv; simpl.
  - constructor.
  - inversion Hd; subst. destruct (String.eqb k' k); simpl; constructor; auto.
Qed.

Lemma Forall_dict_del {V} (P : V -> Prop) k : forall d : list (string * V),
  Forall P (dict_values d) -> Forall P (dict_values (dict_del String.eqb k d)).
Proof.
  induction d as [|[k' v'] d IH]; intros Hd; simpl; [constructor|].
  inversion Hd; subst. destruct (String.eqb k' k); simpl; [assumption|].
  constructor; auto.
Qed.

Lemma Forall_dict_get {V} (P : V -> Prop) k v : forall d : list (string * V),
  Forall P (dict_values d) -> dict_get String.eqb k d = Some v -> P v.
Proof.
  induction d as [|[k' v'] d IH]; intros Hd; simpl; [discriminate|].
  inversion Hd; subst. destruct (String.eqb k' k).
  - intros [= <-]. assumption.
  - apply IH. assumption.
Qed.

Lemma keeps_add_record record :
  record_ok record -> keeps book_ok (AddressBook_add_record record) (fun _ => True).
Proof.
  intros Hr book Hb. split; [|auto]. simpl.
  apply Forall_dict_set; assumption.
Qed.

Lemma keeps_delete n : keeps book_ok (AddressBook_delete n) (fun _ => True).
Proof.
  intros book Hb. split; [|auto]. unfold AddressBook_delete.
  destruct (dict_get String.eqb n book); simpl; [|exact Hb].
  apply Forall_dict_del. exact Hb.
Qed.

Lemma keeps_call_method {A} key record (m : M Record A) Q :
  record_ok record -> keeps record_ok m Q ->
  keeps book_ok (call_method key record m) Q.
Proof.
  intros Hr Hm book Hb. unfold call_method.
  destruct (Hm record Hr) as [H1 H2].
  destruct (m record) as [r record']. simpl in *.
  split; [|exact H2]. apply Forall_dict_update; assumption.
Qed.

Lemma find_ok book n record :
  book_ok book -> AddressBook_find book n = Some record -> record_ok record.
Proof. intros Hb. apply Forall_dict_get. exact Hb. Qed.

Lemma input_error_state func args book :
  snd (input_error func args book) = snd (func args book).
Proof.
  unfold input_error. destruct (func args book) as [[text|[]] book']; reflexivity.
Qed.

Lemma keeps_input_error func args Q :
  keeps book_ok (func args) Q ->
  keeps book_ok (input_error func args) (fun _ => True).
Proof.
  intros H book Hb. rewrite input_error_state. split; [|auto].
  apply (H book Hb).
Qed.

Lemma keeps_add_contact_func args :
  keeps book_ok (add_contact_func args) (fun _ => True).
Proof.
  unfold add_contact_func.
  destruct args as [|n [|phone rest]]; try apply keeps_raise.
  eapply keeps_bind; [apply keeps_get|]. intros book Hb.
  assert (forall record (message : string), record_ok record ->
            keeps book_ok
              (match phone with
               | EmptyString => ret message
               | String _ _ =>
                   call_method n record (Record_add_phone phone) ;;; ret message
               end) (fun _ => True)) as Hadd.
  { intros record message Hr. destruct phone; [apply keeps_ret; exact I|].
    eapply keeps_bind; [apply keeps_call_method; [exact Hr|apply keeps_add_phone]|].
    intros _ _. apply keeps_ret; exact I. }
  destruct (AddressBook_find book n) as [record|] eqn:F.
  - apply Hadd. eapply find_ok; eauto.
  - eapply keeps_bind; [apply keeps_lift|]. intros record Hr.
    cbv beta in Hr. apply record_ok_init in Hr.
    eapply keeps_bind; [apply keeps_add_record; exact Hr|]. intros _ _.
    apply Hadd. exact Hr.
Qed.

Lemma keeps_change_phone_func args :
  keeps book_ok (change_phone_func args) (fun _ => True).
Proof.
  unfold change_phone_func.
  destruct args as [|n [|old [|new rest]]]; try apply keeps_raise.
  eapply keeps_bind; [apply keeps_get|]. intros book Hb.
  destruct (AddressBook_find book n) as [record|] eqn:F; [|apply keeps_raise].
  eapply keeps_bind;
    [apply keeps_call_method; [eapply find_ok; eauto|apply keeps_edit_phone]|].
  intros _ _. apply keeps_ret; exact I.
Qed.

Lemma keeps_show_phone_func args :
  keeps book_ok (show_phone_func args) (fun _ => True).
Proof.
  unfold show_phone_func. destruct args as [|n rest]; [apply keeps_raise|].
  eapply keeps_bind; [apply keeps_get|]. intros book Hb.
  destruct (AddressBook_find book n) as [record|]; [|apply keeps_raise].
  destruct (phones record); apply keeps_ret; exact I.
Qed.

Lemma keeps_show_all_func libc args :
  keeps book_ok (show_all_func libc args) (fun _ => True).
Proof.
  unfold show_all_func. destruct args; [|apply keeps_raise].
  eapply keeps_bind; [apply keeps_get|]. intros book Hb.
  destruct book; apply keeps_ret; exact I.
Qed.

Lemma keeps_add_birthday_func args :
  keeps book_ok (add_birthday_func args) (fun _ => True).
Proof.
  unfold add_birthday_func.
  destruct args as [|n [|s rest]]; try apply keeps_raise.
  eapply keeps_bind; [apply keeps_get|]. intros book Hb.
  assert (forall record, record_ok record ->
            keeps book_ok
              (call_method n record (Record_add_birthday s) ;;;
               ret "Birthday added.") (fun _ => True)) as Hset.
  { intros record Hr.
    eapply keeps_bind;
      [apply keeps_call_method; [exact Hr|apply keeps_add_birthday]|].
    intros _ _. apply keeps_ret; exact I. }
  destruct (AddressBook_find book n) as [record|] eqn:F.
  - apply Hset. eapply find_ok; eauto.
  - eapply keeps_bind; [apply keeps_lift|]. intros record Hr.
    cbv beta in Hr. apply record_ok_init in Hr.
    eapply keeps_bind; [apply keeps_add_record; exact Hr|]. intros _ _.
    apply Hset. exact Hr.
Qed.

Lemma keeps_show_birthday_func libc args :
  keeps book_ok (show_birthday_func libc args) (fun _ => True).
Proof.
  unfold show_birthday_func. destruct args as [|n rest]; [apply keeps_raise|].
  eapply keeps_bind; [apply keeps_get|]. intros book Hb.
  destruct (AddressBook_find book n) as [record|]; [|apply keeps_raise].
  destruct (birthday record) as [[[d|]]|]; apply keeps_ret; exact I.
Qed.

Lemma keeps_birthdays_func libc today args :
  keeps book_ok (birthdays_func libc today args) (fun _ => True).
Proof.
  unfold birthdays_func. destruct args; [|apply keeps_raise].
  eapply keeps_bind; [apply keeps_get|]. intros book Hb.
  eapply keeps_bind; [apply keeps_lift|]. intros up _.
  apply keeps_ret; exact I.
Qed.

Lemma keeps_show_commands_func args :
  keeps book_ok (show_commands_func args) (fun _ => True).
Proof.
  unfold show_commands_func. destruct args; [|apply keeps_raise].
  apply keeps_ret; exact I.
Qed.

Lemma keeps_handlers libc today handler args :
  In handler (handlers libc today) ->
  keeps book_ok (handler args) (fun _ => True).
Proof.
  unfold handlers. simpl.
  intros [<-|[<-|[<-|[<-|[<-|[<-|[<-|[<-|[]]]]]]]]];
    eapply keeps_input_error.
  - apply keeps_add_contact_func.
  - apply keeps_change_phone_func.
  - apply keeps_show_phone_func.
  - apply keeps_show_all_func.
  - apply keeps_add_birthday_func.
  - apply keeps_show_birthday_func.
  - apply keeps_birthdays_func.
  - apply keeps_show_commands_func.
Qed.

(** C5: the invariant (every stored phone has passed the ten-digit check,
    every stored birthday is absent or a real calendar date) is preserved by
    [add_phone], [edit_phone], [remove_phone] and [add_birthday] on a
    record, by [add_record] and [delete] on the book, and by every command
    handler, whether the operation returns or raises. *)
Theorem invariant_is_preserved
    (libc : c_library) (today : date) (book : AddressBook)
    (record new_record : Record)
    (s1 s2 : string) (args : list string)
    (handler : list string -> M AddressBook string) :
  book_ok book -> record_ok record -> record_ok new_record ->
  In handler (handlers libc today) ->
  record_ok (snd (Record_add_phone s1 record))
  /\ record_ok (snd (Record_edit_phone s1 s2 record))
  /\ record_ok (snd (Record_remove_phone s1 record))
  /\ record_ok (snd (Record_add_birthday s1 record))
  /\ book_ok (snd (AddressBook_add_record new_record book))
  /\ book_ok (snd (AddressBook_delete s1 book))
  /\ book_ok (snd (handler args book)).
Proof.
  intros Hb Hr Hn Hh. repeat split.
  - apply (keeps_add_phone s1 record Hr).
  - apply (keeps_add_phone s1 record Hr).
  - apply (keeps_edit_phone s1 s2 record Hr).
  - apply (keeps_edit_phone s1 s2 record Hr).
  - apply (keeps_remove_phone s1 record Hr).
  - apply (keeps_remove_phone s1 record Hr).
  - apply (keeps_add_birthday s1 record Hr).
  - apply (keeps_add_birthday s1 record Hr).
  - apply (keeps_add_record new_record Hn book Hb).
  - apply (keeps_delete s1 book Hb).
  - apply (keeps_handlers libc today handler args Hh book Hb).
Qed.

Lemma book_november_ok : book_ok book_november.
Proof.
  unfold book_ok.
  change (dict_values book_november)
    with [mkRecord (mkName "Alice") [mkPhone "0123456789"]
            (Some (mkBirthday (Some (mkdate 1990 11 5))));
          mkRecord (mkName "Bob") []
            (Some (mkBirthday (Some (mkdate 1990 11 7))))].
  apply Forall_cons; [|apply Forall_cons; [|apply Forall_nil]].
  - split.
    + apply Forall_cons; [reflexivity|apply Forall_nil].
    + right. eexists. split; reflexivity.
  - split.
    + apply Forall_nil.
    + right. eexists. split; reflexivity.
Qed.

Lemma invariant_is_preserved_witness :
  record_ok (snd (Record_add_phone "5550001111"
                    (mkRecord (mkName "Carl") [mkPhone "0123456789"] None)))
  /\ record_ok (snd (Record_edit_phone "0123456789" "12345"
                       (mkRecord (mkName "Carl") [mkPhone "0123456789"] None)))
  /\ record_ok (snd (Record_remove_phone "0123456789"
                       (mkRecord (mkName "Carl") [mkPhone "0123456789"] None)))
  /\ record_ok (snd (Record_add_birthday "31.02.2024"
                       (mkRecord (mkName "Carl") [mkPhone "0123456789"] None)))
  /\ book_ok (snd (AddressBook_add_record
                     (mkRecord (mkName "Alice") [] None) book_november))
  /\ book_ok (snd (AddressBook_delete "Bob" book_november))
  /\ book_ok (snd (add_contact ["Dan"; "12345"] book_november)).
Proof.
  assert (record_ok (mkRecord (mkName "Carl") [mkPhone "0123456789"] None)) as Hc
    by (split; [apply Forall_cons; [reflexivity|apply Forall_nil]|left; reflexivity]).
  assert (record_ok (mkRecord (mkName "Alice") [] None)) as Ha
    by (split; [apply Forall_nil|left; reflexivity]).
  split; [|split; [|split; [|split; [|split; [|split]]]]].
  - apply (invariant_is_preserved year_as_is (mkdate 2026 11 3) book_november
             _ _ "5550001111" "" ["Dan"; "12345"] add_contact
             book_november_ok Hc Ha (or_introl eq_refl)).
  - apply (invariant_is_preserved year_as_is (mkdate 2026 11 3) book_november
             _ _ "0123456789" "12345" ["Dan"; "12345"] add_contact
             book_november_ok Hc Ha (or_introl eq_refl)).
  - apply (invariant_is_preserved year_as_is (mkdate 2026 11 3) book_november
             _ _ "0123456789" "" ["Dan"; "12345"] add_contact
             book_november_ok Hc Ha (or_introl eq_refl)).
  - apply (invariant_is_preserved year_as_is (mkdate 2026 11 3) book_november
             _ _ "31.02.2024" "" ["Dan"; "12345"] add_contact
             book_november_ok Hc Ha (or_introl eq_refl)).
  - apply (invariant_is_preserved year_as_is (mkdate 2026 11 3) book_november
             _ _ "Bob" "" ["Dan"; "12345"] add_contact
             book_november_ok Hc Ha (or_introl eq_refl)).
  - apply (invariant_is_preserved year_as_is (mkdate 2026 11 3) book_november
             _ _ "Bob" "" ["Dan"; "12345"] add_contact
             book_november_ok Hc Ha (or_introl eq_refl)).
  - apply (invariant_is_preserved year_as_is (mkdate 2026 11 3) book_november
             _ _ "Bob" "" ["Dan"; "12345"] add_contact
             book_november_ok Hc Ha (or_introl eq_refl)).
Defined.

(** Every book a session reaches from the empty book satisfies the
    invariant. *)
Lemma sessions_keep_invariant libc today commands : forall book,
  Forall (fun c => In (fst c) (handlers libc today)) commands ->
  book_ok book -> book_ok (run_commands commands book).
Proof.
  induction commands as [|[handler args] commands IH]; intros book Hc Hb;
    [exact Hb|].
  inversion Hc; subst. simpl. apply IH; [assumption|].
  apply (keeps_handlers libc today handler args); assumption.
Qed.

(** ** The handlers [add], [add-birthday] and [change] *)

Lemma dict_set_absent {V} k (v : V) : forall d,
  dict_get String.eqb k d = None -> dict_set String.eqb k v d = (d ++ [(k, v)])%list.
Proof.
  induction d as [|[k' v'] d IH]; simpl; [reflexivity|].
  destruct (String.eqb k' k); [discriminate|]. intros H. rewrite IH; auto.
Qed.

Lemma dict_set_last {V} k (v v' : V) : forall d,
  dict_get String.eqb k d = None ->
  dict_set String.eqb k v' (d ++ [(k, v)])%list = (d ++ [(k, v')])%list.
Proof.
  induction d as [|[k0 v0] d IH]; simpl.
  - rewrite String.eqb_refl. reflexivity.
  - destruct (String.eqb k0 k); [discriminate|]. intros H. rewrite IH; auto.
Qed.

Lemma dict_get_last {V} k (v : V) : forall d,
  dict_get String.eqb k d = None ->
  dict_get String.eqb k (d ++ [(k, v)])%list = Some v.
Proof.
  induction d as [|[k0 v0] d IH]; simpl.
  - rewrite String.eqb_refl. reflexivity.
  - destruct (String.eqb k0 k); [discriminate|]. auto.
Qed.

Lemma dict_update_absent {V} k (v : V) : forall d,
  dict_get String.eqb k d = None -> dict_update String.eqb k v d = d.
Proof.
  induction d as [|[k' v'] d IH]; simpl; [reflexivity|].
  destruct (String.eqb k' k); [discriminate|]. intros H. rewrite IH; auto.
Qed.

Lemma dict_update_last {V} k (v v' : V) : forall d,
  dict_get String.eqb k d = None ->
  dict_update String.eqb k v' (d ++ [(k, v)])%list = (d ++ [(k, v')])%list.
Proof.
  induction d as [|[k0 v0] d IH]; simpl.
  - rewrite String.eqb_refl. reflexivity.
  - destruct (String.eqb k0 k); [discriminate|]. intros H. rewrite IH; auto.
Qed.

(** On a key the dictionary has, replacing the value is assigning it. *)
Lemma dict_update_present {V} k (v w : V) : forall d,
  dict_get String.eqb k d = Some w ->
  dict_update String.eqb k v d = dict_set String.eqb k v d.
Proof.
  induction d as [|[k' v'] d IH]; simpl; [discriminate|].
  destruct (String.eqb k' k); [reflexivity|]. intros H. rewrite IH; auto.
Qed.

Lemma Phone_init_raises (s : string) e :
  Phone_init s = Raise e ->
  e = ValueError "Phone number must contain exactly 10 digits.".
Proof.
  rewrite Phone_init_eq. destruct (ten_digits s); [discriminate|congruence].
Qed.

(** C8: when the book has no record under [n], the [add] command with a
    phone that [Phone] refuses, and the [add-birthday] command with a date
    that [Birthday] refuses, raise the validation error after the new
    record was inserted.  The handler first creates the empty record and
    inserts it with [add_record], which gives the old book followed by an
    entry for [n] with no phones and no birthday; the validation error is
    raised by the method call on that record, which leaves the book as it
    finds it (from the book without the entry it would raise the same
    error and leave no entry); so the book the command leaves behind holds
    the empty record.  (The name and the phone are tokens of the command
    line, so not empty.) *)
Theorem failed_add_leaves_empty_record
    (book : AddressBook) (n phone date_str : string) (extra : list string)
    (e1 e2 : exn) :
  AddressBook_find book n = None ->
  n <> "" -> phone <> "" ->
  Phone_init phone = Raise e1 ->
  Birthday_init (ArgStr date_str) = Raise e2 ->
  let empty_record := mkRecord (mkName n) [] None in
  let book' := (book ++ [(n, empty_record)])%list in
  let phone_error :=
    ValueError "Phone number must contain exactly 10 digits." in
  let date_error := ValueError "Invalid date format. Use DD.MM.YYYY" in
  (Record_init n = Ok empty_record
   /\ AddressBook_add_record empty_record book = (Ok tt, book')
   /\ AddressBook_find book' n = Some empty_record)
  /\ (call_method n empty_record (Record_add_phone phone) book'
      = (Raise phone_error, book')
      /\ call_method n empty_record (Record_add_phone phone) book
         = (Raise phone_error, book)
      /\ add_contact_func (n :: phone :: extra) book
         = (AddressBook_add_record empty_record ;;;
            call_method n empty_record (Record_add_phone phone) ;;;
            ret "Contact added.") book
      /\ add_contact_func (n :: phone :: extra) book
         = (Raise phone_error, book')
      /\ add_contact (n :: phone :: extra) book
         = (Ok "Phone number must contain exactly 10 digits.", book'))
  /\ (call_method n empty_record (Record_add_birthday date_str) book'
      = (Raise date_error, book')
      /\ call_method n empty_record (Record_add_birthday date_str) book
         = (Raise date_error, book)
      /\ add_birthday_func (n :: date_str :: extra) book
         = (AddressBook_add_record empty_record ;;;
            call_method n empty_record (Record_add_birthday date_str) ;;;
            ret "Birthday added.") book
      /\ add_birthday_func (n :: date_str :: extra) book
         = (Raise date_error, book')
      /\ add_birthday (n :: date_str :: extra) book
         = (Ok "Invalid date format. Use DD.MM.YYYY", book')).
Proof.
  intros F Hn Hp P B empty_record book' phone_error date_error.
  assert (Record_init n = Ok empty_record) as RI.
  { unfold Record_init, Name_init. destruct n; [congruence|reflexivity]. }
  assert (AddressBook_add_record empty_record book = (Ok tt, book')) as AR.
  { unfold AddressBook_add_record. cbn [name Name_value empty_record].
    fold empty_record. unfold AddressBook_find in F.
    rewrite (dict_set_absent n empty_record book F). reflexivity. }
  assert (AddressBook_find book' n = Some empty_record) as F'
    by (apply dict_get_last; exact F).
  apply Phone_init_raises in P as P'. subst e1.
  apply Birthday_init_raises in B as B'.
  assert (forall data,
            call_method n empty_record (Record_add_phone phone) data
            = (Raise phone_error,
               dict_update String.eqb n empty_record data)) as CP.
  { intros data. unfold call_method, Record_add_phone, bind, lift.
    rewrite P. reflexivity. }
  assert (forall data,
            call_method n empty_record (Record_add_birthday date_str) data
            = (Raise date_error,
               dict_update String.eqb n empty_record data)) as CB.
  { intros data. unfold call_method, Record_add_birthday, bind, lift.
    rewrite B'. reflexivity. }
  assert (dict_update String.eqb n empty_record book' = book') as U'
    by (apply dict_update_last; exact F).
  assert (dict_update String.eqb n empty_record book = book) as U
    by (apply dict_update_absent; exact F).
  assert (add_contact_func (n :: phone :: extra) book
          = (AddressBook_add_record empty_record ;;;
             call_method n empty_record (Record_add_phone phone) ;;;
             ret "Contact added.") book) as S1.
  { unfold add_contact_func. unfold bind at 1. unfold get. rewrite F.
    unfold bind at 1. unfold lift. rewrite RI.
    destruct phone as [|c phone]; [congruence|]. reflexivity. }
  assert (add_birthday_func (n :: date_str :: extra) book
          = (AddressBook_add_record empty_record ;;;
             call_method n empty_record (Record_add_birthday date_str) ;;;
             ret "Birthday added.") book) as S2.
  { unfold add_birthday_func. unfold bind at 1. unfold get. rewrite F.
    unfold bind at 1. unfold lift. rewrite RI. reflexivity. }
  assert (add_contact_func (n :: phone :: extra) book
          = (Raise phone_error, book')) as E1.
  { rewrite S1. unfold bind at 1. rewrite AR. unfold bind at 1.
    rewrite CP, U'. reflexivity. }
  assert (add_birthday_func (n :: date_str :: extra) book
          = (Raise date_error, book')) as E2.
  { rewrite S2. unfold bind at 1. rewrite AR. unfold bind at 1.
    rewrite CB, U'. reflexivity. }
  split; [split; [exact RI|split; [exact AR|exact F']]|]. split.
  - split; [rewrite CP, U'; reflexivity|].
    split; [rewrite CP, U; reflexivity|].
    split; [exact S1|]. split; [exact E1|].
    unfold add_contact, input_error. rewrite E1. reflexivity.
  - split; [rewrite CB, U'; reflexivity|].
    split; [rewrite CB, U; reflexivity|].
    split; [exact S2|]. split; [exact E2|].
    unfold add_birthday, input_error. rewrite E2. reflexivity.
Qed.

Lemma failed_add_leaves_empty_record_witness :
  let empty_record := mkRecord (mkName "Dan") [] None in
  let book' := (book_november ++ [("Dan", empty_record)])%list in
  let phone_error :=
    ValueError "Phone number must contain exactly 10 digits." in
  let date_error := ValueError "Invalid date format. Use DD.MM.YYYY" in
  (Record_init "Dan" = Ok empty_record
   /\ AddressBook_add_record empty_record book_november = (Ok tt, book')
   /\ AddressBook_find book' "Dan" = Some empty_record)
  /\ (call_method "Dan" empty_record (Record_add_phone "12345") book'
      = (Raise phone_error, book')
      /\ call_method "Dan" empty_record (Record_add_phone "12345") book_november
         = (Raise phone_error, book_november)
      /\ add_contact_func ["Dan"; "12345"] book_november
         = (AddressBook_add_record empty_record ;;;
            call_method "Dan" empty_record (Record_add_phone "12345") ;;;
            ret "Contact added.") book_november
      /\ add_contact_func ["Dan"; "12345"] book_november
         = (Raise phone_error, book')
      /\ add_contact ["Dan"; "12345"] book_november
         = (Ok "Phone number must contain exactly 10 digits.", book'))
  /\ (call_method "Dan" empty_record (Record_add_birthday "31.02.2024") book'
      = (Raise date_error, book')
      /\ call_method "Dan" empty_record (Record_add_birthday "31.02.2024")
           book_november
         = (Raise date_error, book_november)
      /\ add_birthday_func ["Dan"; "31.02.2024"] book_november
         = (AddressBook_add_record empty_record ;;;
            call_method "Dan" empty_record (Record_add_birthday "31.02.2024") ;;;
            ret "Birthday added.") book_november
      /\ add_birthday_func ["Dan"; "31.02.2024"] book_november
         = (Raise date_error, book')
      /\ add_birthday ["Dan"; "31.02.2024"] book_november
         = (Ok "Invalid date format. Use DD.MM.YYYY", book')).
Proof.
  apply (failed_add_leaves_empty_record book_november "Dan" "12345" "31.02.2024" []
           (ValueError "Phone number must contain exactly 10 digits.")
           (ValueError "Invalid date format. Use DD.MM.YYYY")).
  - reflexivity.
  - discriminate.
  - discriminate.
  - reflexivity.
  - reflexivity.
Defined.

(** C9: the [change] command for a contact that is not in the book returns
    the text of [str(KeyError("Contact not found."))], which is the [repr]
    of the message: it carries single quotes around it, so it is not the
    bare message. *)
Theorem change_absent_contact_is_quoted :
  change_phone_func ["Bob"; "0123456789"; "1234567890"] []
  = (Raise (KeyError "Contact not found."), [])
  /\ change_phone ["Bob"; "0123456789"; "1234567890"] []
     = (Ok "'Contact not found.'", [])
  /\ "'Contact not found.'" <> "Contact not found.".
Proof.
  split; [reflexivity|]. split; [reflexivity|]. discriminate.
Qed.

(** The same holds for any book without the contact, and for the [phone]
    and [show-birthday] commands. *)
Lemma absent_contact_is_quoted libc book n old new extra :
  AddressBook_find book n = None ->
  change_phone (n :: old :: new :: extra) book = (Ok "'Contact not found.'", book)
  /\ show_phone (n :: extra) book = (Ok "'Contact not found.'", book)
  /\ show_birthday libc (n :: extra) book = (Ok "'Contact not found.'", book).
Proof.
  intros F.
  unfold change_phone, show_phone, show_birthday, input_error,
    change_phone_func, show_phone_func, show_birthday_func, bind, get, raise.
  rewrite F. repeat split; reflexivity.
Qed.

(** A [ValueError] is returned as its bare message. *)
Lemma value_error_is_bare_message func args book book' msg :
  func args book = (Raise (ValueError msg), book') ->
  input_error func args book = (Ok msg, book').
Proof. intros H. unfold input_error. rewrite H. reflexivity. Qed.

(** ** [strptime] and [strftime] on the format of [Birthday] *)

Lemma ord_inj a b : ord a = ord b -> a = b.
Proof.
  unfold ord. intros H. apply N2Z.inj in H.
  rewrite <- (ascii_N_embedding a), <- (ascii_N_embedding b), H. reflexivity.
Qed.

Lemma ascii_eqb_ord a b : Ascii.eqb a b = (ord a =? ord b).
Proof.
  destruct (Ascii.eqb_spec a b) as [->|N].
  - symmetry. apply Z.eqb_refl.
  - symmetry. apply Z.eqb_neq. intros H. apply N. apply ord_inj. exact H.
Qed.

Lemma consumed_1 a r : consumed (a :: r) r = [a].
Proof.
  unfold consumed. simpl List.length.
  replace (S (List.length r) - List.length r)%nat with 1%nat by lia.
  reflexivity.
Qed.

Lemma consumed_2 a b r : consumed (a :: b :: r) r = [a; b].
Proof.
  unfold consumed. simpl List.length.
  replace (S (S (List.length r)) - List.length r)%nat with 2%nat by lia.
  reflexivity.
Qed.

Lemma consumed_all s : consumed s [] = s.
Proof.
  unfold consumed. simpl. rewrite Nat.sub_0_r. apply firstn_all.
Qed.

Lemma option_match_id {A} (x : option A) :
  match x with Some a => Some a | None => None end = x.
Proof. destruct x; reflexivity. Qed.

(** The code points of the characters of a pattern. *)
Ltac ord_form :=
  repeat match goal with
  | |- context [ord ?c] =>
      lazymatch c with
      | Ascii _ _ _ _ _ _ _ _ => let v := eval cbv in (ord c) in change (ord c) with v
      end
  end.

Ltac z_cases :=
  repeat match goal with
  | |- context [Z.leb ?x ?y] => destruct (Z.leb_spec x y); try (exfalso; lia)
  | |- context [Z.eqb ?x ?y] => destruct (Z.eqb_spec x y); try (exfalso; lia)
  | |- context [Z.ltb ?x ?y] => destruct (Z.ltb_spec x y); try (exfalso; lia)
  end.

Lemma decimal_not_dot c : is_decimal c = true -> c <> 46.
Proof. intros D. destruct (is_decimal_cases c D); lia. Qed.

Lemma rmatch_re_d {A} s g (k : ustr -> groups -> option A) :
  dot_first k ->
  rmatch re_d s g k
  = match day_split s with
    | Some (ds, rest) => k rest (("d", ds) :: g)
    | None => None
    end.
Proof.
  intros K. unfold re_d, day_split. cbn [rmatch]. ord_form.
  destruct s as [|a [|b rest]].
  - reflexivity.
  - z_cases; cbn [andb orb]; rewrite ?consumed_1; try reflexivity.
    all: try (destruct (k _ _); reflexivity).
  - rewrite ?consumed_1, ?consumed_2.
    assert (b <> 46 -> forall g', k (b :: rest) g' = None) as Kb
      by (intros N g'; apply K; exact N).
    destruct (is_decimal b) eqn:D.
    + pose proof (decimal_not_dot b D) as Nb.
      z_cases; cbn [andb orb negb]; try reflexivity;
        rewrite ?Kb by assumption; rewrite ?option_match_id; try reflexivity.
      all: try (destruct (k _ _); reflexivity).
    + z_cases; cbn [andb orb negb]; try reflexivity;
        rewrite ?Kb by lia; rewrite ?option_match_id; try reflexivity.
      all: try (destruct (k _ _); reflexivity).
Qed.

Lemma rmatch_re_m {A} s g (k : ustr -> groups -> option A) :
  dot_first k ->
  rmatch re_m s g k
  = match month_split s with
    | Some (ms, rest) => k rest (("m", ms) :: g)
    | None => None
    end.
Proof.
  intros K. unfold re_m, month_split. cbn [rmatch]. ord_form.
  destruct s as [|a [|b rest]].
  - reflexivity.
  - z_cases; cbn [andb orb]; rewrite ?consumed_1; try reflexivity.
    all: try (destruct (k _ _); reflexivity).
  - rewrite ?consumed_1, ?consumed_2.
    assert (b <> 46 -> forall g', k (b :: rest) g' = None) as Kb
      by (intros N g'; apply K; exact N).
    z_cases; cbn [andb orb negb]; try reflexivity;
      rewrite ?Kb by lia; rewrite ?option_match_id; try reflexivity.
    all: try (destruct (k _ _); reflexivity).
Qed.

Lemma pattern_DD_MM_YYYY : pattern DD_MM_YYYY = Some DD_MM_YYYY_regex.
Proof. reflexivity. Qed.

(** [strptime_any] on the format of [Birthday], by the texts it splits the
    string into. *)
Lemma strptime_any_split s :
  match split_date_text s with
  | Some (ds, ms, ys) =>
      strptime_any s DD_MM_YYYY
      = match int ys with
        | None => inl (bad_int ys)
        | Some y =>
            match int ms with
            | None => inl (bad_int ms)
            | Some m =>
                match int ds with
                | None => inl (bad_int ds)
                | Some d =>
                    match check_date_fields y m d with
                    | Ok value => inr value
                    | Raise e => inl (bad_date e)
                    end
                end
            end
        end
  | None => exists e, strptime_any s DD_MM_YYYY = inl e
  end.
Proof.
  unfold strptime_any. rewrite pattern_DD_MM_YYYY.
  unfold re_match, DD_MM_YYYY_regex, split_date_text.
  cbn [rmatch]. ord_form. rewrite rmatch_re_d.
  2:{ intros c t g N. destruct (Z.eqb_spec 46 c); [congruence|reflexivity]. }
  destruct (day_split s) as [[ds [|c1 s1]]|]; try (eexists; reflexivity).
  rewrite (Z.eqb_sym 46 c1).
  destruct (c1 =? 46); [|eexists; reflexivity].
  rewrite rmatch_re_m.
  2:{ intros c t g N. destruct (Z.eqb_spec 46 c); [congruence|reflexivity]. }
  destruct (month_split s1) as [[ms [|c2 s2]]|]; try (eexists; reflexivity).
  rewrite (Z.eqb_sym 46 c2).
  destruct (c2 =? 46); [|eexists; reflexivity].
  unfold re_Y. cbn [rmatch]. rewrite rmatch_times_digit.
  destruct (take_decimals 4 s2) as [[|c3 s3]|]; try (eexists; reflexivity).
  rewrite consumed_all. unfold group_int. cbn [group String.eqb Ascii.eqb Bool.eqb].
  destruct (int s2) as [y|]; [|reflexivity].
  destruct (int ms) as [m|]; [|reflexivity].
  destruct (int ds) as [d|]; reflexivity.
Qed.

Lemma decimal_not_sign c : is_decimal c = true -> (c =? 45) = false /\ (c =? 43) = false.
Proof.
  intros D. destruct (is_decimal_cases c D);
    split; apply Z.eqb_neq; lia.
Qed.

(** [int] on a numeral of decimal digits without white space or sign. *)
Lemma int_decimals t :
  t <> [] -> forallb is_decimal t = true ->
  (Z.of_nat (List.length t) <= 4300) ->
  int t = Some (fold_left (fun acc c => 10 * acc + decimal_value c) t 0)
  /\ int_lstrip t = t.
Proof.
  intros N D L.
  assert (forall u acc, forallb is_decimal u = true ->
            digits_value acc u
            = Some (fold_left (fun acc c => 10 * acc + decimal_value c) u acc))
    as DV.
  { induction u as [|c u IH]; intros acc Du; [reflexivity|].
    simpl in Du. apply andb_true_iff in Du. destruct Du as [Dc Du].
    simpl. rewrite Dc. apply IH, Du. }
  assert (filter is_decimal t = t) as FT.
  { clear N L DV. induction t as [|c t IH]; [reflexivity|].
    simpl in D. apply andb_true_iff in D. destruct D as [Dc Dt].
    simpl. rewrite Dc, IH by exact Dt. reflexivity. }
  assert (int_lstrip t = t) as LS.
  { destruct t as [|c t]; [reflexivity|]. simpl in D.
    apply andb_true_iff in D. destruct D as [Dc _].
    simpl. rewrite (decimal_not_int_space c Dc). reflexivity. }
  assert (forallb is_decimal (rev t) = true) as DR.
  { rewrite forallb_forall in *. intros x I. apply D. apply in_rev. exact I. }
  assert (int_lstrip (rev t) = rev t) as LR.
  { destruct (rev t) as [|c r] eqn:E; [reflexivity|]. simpl in DR.
    apply andb_true_iff in DR. destruct DR as [Dc _].
    simpl. rewrite (decimal_not_int_space c Dc). reflexivity. }
  split; [|exact LS].
  unfold int, int_strip. rewrite LS, LR, rev_involutive.
  destruct t as [|c t]; [contradiction|].
  assert (is_decimal c = true) as Dc
    by (simpl in D; apply andb_true_iff in D; tauto).
  destruct (decimal_not_sign c Dc) as [-> ->].
  rewrite FT, Dc.
  replace (Z.of_nat (List.length (c :: t)) <=? 4300) with true
    by (symmetry; apply Z.leb_le; exact L).
  cbn [andb]. apply DV. exact D.
Qed.

Lemma is_ascii_digit_decimal c : is_ascii_digit c = true -> is_decimal c = true.
Proof.
  unfold is_ascii_digit. rewrite andb_true_iff, !Z.leb_le. intros H.
  apply is_decimal_ascii. lia.
Qed.

Lemma int_day_text ds :
  day_text is_decimal ds = true -> int ds = Some (number ds).
Proof.
  unfold day_text, one_or_two_digits.
  destruct ds as [|a [|b [|c r]]]; try discriminate; intros H.
  - rewrite orb_false_r in H.
    destruct (int_decimals [a]) as [I L];
      [discriminate|simpl; rewrite H; reflexivity|simpl; lia|].
    unfold number. rewrite L. exact I.
  - apply orb_true_iff in H. destruct H as [H|H];
      apply andb_true_iff in H; destruct H as [Da Db].
    + destruct (int_decimals [a; b]) as [I L];
        [discriminate|simpl; rewrite Da, Db; reflexivity|simpl; lia|].
      unfold number. rewrite L. exact I.
    + apply Z.eqb_eq in Da. subst a.
      destruct (int_decimals [b]) as [I L];
        [discriminate|simpl; rewrite Db; reflexivity|simpl; lia|].
      unfold number. change (int_lstrip [32; b]) with (int_lstrip [b]).
      rewrite L. rewrite <- I. unfold int, int_strip.
      change (int_lstrip [32; b]) with (int_lstrip [b]). reflexivity.
Qed.

Lemma int_month_text ms :
  month_text is_decimal ms = true -> int ms = Some (number ms).
Proof.
  intros H. apply int_day_text. unfold day_text. unfold month_text in H.
  rewrite H. reflexivity.
Qed.

Lemma int_year_text ys :
  year_text is_decimal ys = true -> int ys = Some (number ys).
Proof.
  unfold year_text. intros H. apply andb_true_iff in H. destruct H as [L D].
  apply Nat.eqb_eq in L.
  destruct (int_decimals ys) as [I S];
    [intros ->; discriminate L|exact D|rewrite L; simpl; lia|].
  unfold number. rewrite S. exact I.
Qed.

Lemma number_1 a : is_decimal a = true -> number [a] = decimal_value a.
Proof.
  intros D. unfold number. cbn [int_lstrip].
  rewrite (decimal_not_int_space a D). cbn [fold_left]. lia.
Qed.

Lemma number_2 a b : is_decimal a = true ->
  number [a; b] = 10 * decimal_value a + decimal_value b.
Proof.
  intros D. unfold number. cbn [int_lstrip].
  rewrite (decimal_not_int_space a D). cbn [fold_left]. lia.
Qed.

Lemma number_space b : is_decimal b = true -> number [32; b] = decimal_value b.
Proof.
  intros D. unfold number. change (int_lstrip [32; b]) with (int_lstrip [b]).
  cbn [int_lstrip]. rewrite (decimal_not_int_space b D). cbn [fold_left]. lia.
Qed.

Lemma number_4 a b c d : is_decimal a = true ->
  number [a; b; c; d]
  = 1000 * decimal_value a + 100 * decimal_value b
    + 10 * decimal_value c + decimal_value d.
Proof.
  intros D. unfold number. cbn [int_lstrip].
  rewrite (decimal_not_int_space a D). cbn [fold_left]. lia.
Qed.

Ltac ascii_facts :=
  repeat match goal with
  | H : 48 <= ?c, H' : ?c <= 57 |- _ =>
      lazymatch goal with
      | _ : is_decimal c = true |- _ => fail
      | _ =>
          assert (is_decimal c = true) by (apply is_decimal_ascii; lia);
          assert (decimal_value c = c - 48) by (apply decimal_value_ascii; lia)
      end
  end.

Lemma day_split_sound s ds rest :
  day_split s = Some (ds, rest) ->
  s = (ds ++ rest)%list /\ day_text is_decimal ds = true
  /\ 1 <= number ds <= 31.
Proof.
  unfold day_split, day_text, one_or_two_digits.
  destruct s as [|a [|b r]]; try discriminate.
  - z_cases; cbn [andb orb]; intros [= <- <-].
    assert (is_decimal a = true) as Da by (apply is_decimal_ascii; lia).
    rewrite Da, number_1, decimal_value_ascii by (assumption || lia).
    split; [reflexivity|]. split; [reflexivity|lia].
  - destruct (is_decimal b) eqn:Db.
    + pose proof (decimal_value_range b Db) as Rb.
      z_cases; cbn [andb orb]; intros [= <- <-] || intros [=];
        try (assert (is_decimal a = true) as Da by (apply is_decimal_ascii; lia);
             rewrite ?Da, ?Db;
             rewrite ?number_2, ?number_1 by assumption;
             rewrite ?(decimal_value_ascii a) by lia;
             rewrite ?(decimal_value_ascii b) by lia;
             cbn [andb orb];
             split; [reflexivity|split; [reflexivity|lia]]).
      all: subst a; change (is_decimal 32) with false;
        rewrite Db, number_space by assumption;
        rewrite ?(decimal_value_ascii b) by lia;
        split; [reflexivity|split; [reflexivity|lia]].
    + z_cases; cbn [andb orb]; intros [= <- <-] || intros [=];
        try (rewrite (is_decimal_ascii b) in Db by lia; discriminate Db).
      all: assert (is_decimal a = true) as Da by (apply is_decimal_ascii; lia);
        rewrite Da, number_1, decimal_value_ascii by (assumption || lia);
        split; [reflexivity|split; [reflexivity|lia]].
Qed.

Lemma month_split_sound s ms rest :
  month_split s = Some (ms, rest) ->
  s = (ms ++ rest)%list /\ month_text is_decimal ms = true
  /\ 1 <= number ms <= 12.
Proof.
  unfold month_split, month_text, one_or_two_digits.
  destruct s as [|a [|b r]]; try discriminate.
  - z_cases; cbn [andb orb]; intros [= <- <-].
    assert (is_decimal a = true) as Da by (apply is_decimal_ascii; lia).
    rewrite Da, number_1, decimal_value_ascii by (assumption || lia).
    split; [reflexivity|]. split; [reflexivity|lia].
  - z_cases; cbn [andb orb]; intros [= <- <-] || intros [=];
      assert (is_decimal a = true) as Da by (apply is_decimal_ascii; lia);
      try (assert (is_decimal b = true) as Db by (apply is_decimal_ascii; lia);
           rewrite Da, Db, number_2 by assumption;
           rewrite (decimal_value_ascii a), (decimal_value_ascii b) by lia;
           split; [reflexivity|split; [reflexivity|lia]]).
    all: rewrite Da, number_1, decimal_value_ascii by (assumption || lia);
      split; [reflexivity|split; [reflexivity|lia]].
Qed.

Lemma is_ascii_digit_spec c : is_ascii_digit c = true <-> 48 <= c <= 57.
Proof. unfold is_ascii_digit. rewrite andb_true_iff, !Z.leb_le. tauto. Qed.

Lemma forallb_ascii_decimal t :
  forallb is_ascii_digit t = true -> forallb is_decimal t = true.
Proof.
  rewrite !forallb_forall. intros H x I. apply is_ascii_digit_decimal, H, I.
Qed.

(** A text written with the digits [0] to [9] is a text of decimal
    digits. *)
Lemma day_text_decimal t :
  day_text is_ascii_digit t = true -> day_text is_decimal t = true.
Proof.
  unfold day_text, one_or_two_digits.
  destruct t as [|a [|b [|c r]]]; try discriminate; intros H.
  - rewrite orb_false_r in *. apply is_ascii_digit_decimal, H.
  - apply orb_true_iff in H. apply orb_true_iff.
    destruct H as [H|H]; apply andb_true_iff in H; destruct H as [Ha Hb];
      [left|right]; apply andb_true_iff; split;
      auto using is_ascii_digit_decimal.
Qed.

Lemma month_text_decimal t :
  month_text is_ascii_digit t = true -> month_text is_decimal t = true.
Proof.
  unfold month_text, one_or_two_digits.
  destruct t as [|a [|b [|c r]]]; try discriminate; intros H.
  - apply is_ascii_digit_decimal, H.
  - apply andb_true_iff in H. destruct H as [Ha Hb].
    apply andb_true_iff; split; auto using is_ascii_digit_decimal.
Qed.

Lemma year_text_decimal t :
  year_text is_ascii_digit t = true -> year_text is_decimal t = true.
Proof.
  unfold year_text. rewrite !andb_true_iff. intros [L D].
  split; [exact L|apply forallb_ascii_decimal, D].
Qed.

Lemma date_text_decimal s d :
  date_text is_ascii_digit s d -> date_text is_decimal s d.
Proof.
  intros (ds & ms & ys & E & Td & Tm & Ty & N).
  exists ds, ms, ys. split; [exact E|].
  split; [apply day_text_decimal, Td|].
  split; [apply month_text_decimal, Tm|].
  split; [apply year_text_decimal, Ty|exact N].
Qed.

Lemma day_split_complete ds r :
  day_text is_ascii_digit ds = true -> 1 <= number ds <= 31 ->
  day_split (ds ++ 46 :: r)%list = Some (ds, 46 :: r).
Proof.
  unfold day_text, one_or_two_digits.
  destruct ds as [|a [|b [|c t]]]; try discriminate; intros H.
  - rewrite orb_false_r in H. apply is_ascii_digit_spec in H.
    rewrite number_1, decimal_value_ascii by (try apply is_decimal_ascii; lia).
    intros R. unfold day_split. cbn [app].
    change (is_decimal 46) with false.
    z_cases; cbn [andb orb]; try reflexivity; exfalso; lia.
  - apply orb_true_iff in H. destruct H as [H|H];
      apply andb_true_iff in H; destruct H as [Ha Hb].
    + apply is_ascii_digit_spec in Ha, Hb.
      rewrite number_2, !decimal_value_ascii
        by (try apply is_decimal_ascii; lia).
      intros R. unfold day_split. cbn [app].
      rewrite (is_decimal_ascii b) by lia.
      z_cases; cbn [andb orb]; try reflexivity; exfalso; lia.
    + apply Z.eqb_eq in Ha. subst a. apply is_ascii_digit_spec in Hb.
      rewrite number_space, decimal_value_ascii
        by (try apply is_decimal_ascii; lia).
      intros R. unfold day_split. cbn [app].
      rewrite (is_decimal_ascii b) by lia.
      z_cases; cbn [andb orb]; try reflexivity; exfalso; lia.
Qed.

Lemma month_split_complete ms r :
  month_text is_ascii_digit ms = true -> 1 <= number ms <= 12 ->
  month_split (ms ++ 46 :: r)%list = Some (ms, 46 :: r).
Proof.
  unfold month_text, one_or_two_digits.
  destruct ms as [|a [|b [|c t]]]; try discriminate; intros H.
  - apply is_ascii_digit_spec in H.
    rewrite number_1, decimal_value_ascii by (try apply is_decimal_ascii; lia).
    intros R. unfold month_split. cbn [app].
    z_cases; cbn [andb orb]; try reflexivity; exfalso; lia.
  - apply andb_true_iff in H; destruct H as [Ha Hb].
    apply is_ascii_digit_spec in Ha, Hb.
    rewrite number_2, !decimal_value_ascii
      by (try apply is_decimal_ascii; lia).
    intros R. unfold month_split. cbn [app].
    z_cases; cbn [andb orb]; try reflexivity; exfalso; lia.
Qed.

Lemma year_text_take ys :
  year_text is_decimal ys = true <-> take_decimals 4 ys = Some [].
Proof.
  unfold year_text. rewrite take_decimals_all, andb_true_iff, Nat.eqb_eq. tauto.
Qed.

(** What [strptime_any] accepts on the format of [Birthday] is a day, a
    dot, a month, a dot and a year, written with decimal digits: the day
    with one or two (or a space and one), the month with one or two, the
    year with four; and the numbers are a real calendar date, the date it
    returns. *)
Lemma strptime_any_sound s d :
  strptime_any s DD_MM_YYYY = inr d ->
  date_text is_decimal s d /\ valid_date d = true.
Proof.
  pose proof (strptime_any_split s) as SP. intros H.
  unfold split_date_text in SP.
  destruct (day_split s) as [[ds [|c1 s1]]|] eqn:Ed;
    try (destruct SP; congruence).
  destruct (Z.eqb_spec c1 46) as [->|N];
    [|destruct SP as [e E]; congruence].
  destruct (month_split s1) as [[ms [|c2 s2]]|] eqn:Em;
    try (destruct SP; congruence).
  destruct (Z.eqb_spec c2 46) as [->|N];
    [|destruct SP as [e E]; congruence].
  destruct (take_decimals 4 s2) as [[|c3 s3]|] eqn:Ey;
    try (destruct SP; congruence).
  apply day_split_sound in Ed. destruct Ed as (-> & Td & Rd).
  apply month_split_sound in Em. destruct Em as (-> & Tm & Rm).
  apply year_text_take in Ey.
  rewrite SP, (int_year_text _ Ey), (int_month_text _ Tm), (int_day_text _ Td)
    in H.
  destruct (check_date_fields (number s2) (number ms) (number ds))
    as [value|e] eqn:C; [|discriminate H].
  injection H as <-. apply check_date_fields_ok in C. destruct C as [-> V].
  split; [|exact V]. exists ds, ms, s2. cbn [year month day].
  repeat split; auto.
Qed.

(** A text written with the digits [0] to [9] that names a real calendar
    date is accepted, and gives that date. *)
Lemma strptime_any_complete s d :
  date_text is_ascii_digit s d -> valid_date d = true ->
  strptime_any s DD_MM_YYYY = inr d.
Proof.
  intros (ds & ms & ys & -> & Td & Tm & Ty & Nd & Nm & Ny) V.
  pose proof (strptime_any_split (ds ++ 46 :: ms ++ 46 :: ys)%list) as SP.
  assert (V' := V). unfold valid_date in V'. apply valid_ymd_spec in V'.
  destruct V' as (Hy & Hm & Hd).
  pose proof (days_in_month_pos (year d) (month d) Hm) as B.
  unfold split_date_text in SP.
  rewrite (day_split_complete ds _ Td) in SP by lia.
  cbn [Z.eqb Pos.eqb] in SP.
  rewrite (month_split_complete ms _ Tm) in SP by lia.
  cbn [Z.eqb Pos.eqb] in SP.
  apply year_text_decimal in Ty. apply month_text_decimal in Tm.
  apply day_text_decimal in Td.
  apply year_text_take in Ty. rewrite Ty in SP.
  apply year_text_take in Ty.
  rewrite SP, (int_year_text _ Ty), (int_month_text _ Tm), (int_day_text _ Td).
  rewrite Nd, Nm, Ny.
  rewrite (check_date_fields_valid _ _ _ V). destruct d; reflexivity.
Qed.

(** [strptime] on a string of the command line, for the format of
    [Birthday]. *)
Lemma strptime_accepts (s : string) d :
  strptime s DD_MM_YYYY = Ok d
  -> date_text is_decimal (code_points s) d /\ valid_date d = true.
Proof.
  intros H. apply strptime_ok in H. apply strptime_any_sound. exact H.
Qed.

Lemma fmt_02d_two_digits n : 0 <= n < 100 -> fmt_02d n = two_digits n.
Proof.
  intros H.
  apply String.eqb_eq.
  apply (all_below_spec (fun n => String.eqb (fmt_02d n) (two_digits n))
           (Z.to_nat 100));
    [vm_compute; reflexivity|lia].
Qed.

Lemma decimal_fuel n k : 2 ^ k <= n -> 0 <= k -> (Z.to_nat k <= Z.to_nat (Z.log2 n))%nat.
Proof.
  intros H K. apply Z2Nat.inj_le; [lia|apply Z.log2_nonneg|].
  rewrite <- (Z.log2_pow2 k K). apply Z.log2_le_mono. exact H.
Qed.

Lemma decimal_digits_last f n acc : 0 <= n < 10 ->
  decimal_digits f n acc = String (digit_char n) acc.
Proof.
  intros H. rewrite <- (Z.mod_small n 10) at 2 by lia.
  destruct f; simpl; [reflexivity|].
  replace (n <? 10) with true by (symmetry; apply Z.ltb_lt; lia). reflexivity.
Qed.

Lemma decimal_digits_more f n acc : 10 <= n ->
  decimal_digits (S f) n acc
  = decimal_digits f (n / 10) (String (digit_char (n mod 10)) acc).
Proof.
  intros H. simpl.
  replace (n <? 10) with false by (symmetry; apply Z.ltb_ge; lia). reflexivity.
Qed.

Lemma decimal_nonneg n : 0 <= n ->
  decimal n = decimal_digits (Z.to_nat (Z.log2 n)) n "".
Proof.
  intros H. unfold decimal.
  replace (n <? 0) with false by (symmetry; apply Z.ltb_ge; lia). reflexivity.
Qed.

Lemma decimal_four_digits n : 1000 <= n < 10000 -> decimal n = four_digits n.
Proof.
  intros H. rewrite decimal_nonneg by lia.
  pose proof (decimal_fuel n 3 ltac:(simpl; lia) ltac:(lia)) as F.
  change (Z.to_nat 3) with 3%nat in F.
  destruct (Z.to_nat (Z.log2 n)) as [|[|[|f]]]; try lia.
  rewrite !decimal_digits_more by zdiv.
  rewrite decimal_digits_last by zdiv.
  unfold four_digits.
  replace (n / 10 / 10 / 10) with (n / 1000) by zdiv.
  replace (n / 10 / 10 mod 10) with (n / 100 mod 10) by zdiv.
  reflexivity.
Qed.

Lemma fmt_04d_four_digits n : 0 <= n < 10000 -> fmt_04d n = four_digits n.
Proof.
  intros H. unfold fmt_04d, four_digits.
  destruct (Z_lt_ge_dec n 10) as [H1|H1];
    [|destruct (Z_lt_ge_dec n 100) as [H2|H2];
      [|destruct (Z_lt_ge_dec n 1000) as [H3|H3]]].
  - rewrite decimal_nonneg, decimal_digits_last by lia.
    replace (n / 1000) with 0 by zdiv. replace (n / 100 mod 10) with 0 by zdiv.
    replace (n / 10 mod 10) with 0 by zdiv. replace (n mod 10) with n by zdiv.
    reflexivity.
  - rewrite decimal_nonneg by lia.
    pose proof (decimal_fuel n 1 ltac:(simpl; lia) ltac:(lia)) as F.
    change (Z.to_nat 1) with 1%nat in F.
    destruct (Z.to_nat (Z.log2 n)) as [|f]; try lia.
    rewrite decimal_digits_more by zdiv. rewrite decimal_digits_last by zdiv.
    replace (n / 1000) with 0 by zdiv. replace (n / 100 mod 10) with 0 by zdiv.
    replace (n / 10 mod 10) with (n / 10) by zdiv.
    reflexivity.
  - rewrite decimal_nonneg by lia.
    pose proof (decimal_fuel n 2 ltac:(simpl; lia) ltac:(lia)) as F.
    change (Z.to_nat 2) with 2%nat in F.
    destruct (Z.to_nat (Z.log2 n)) as [|[|f]]; try lia.
    rewrite !decimal_digits_more by zdiv. rewrite decimal_digits_last by zdiv.
    replace (n / 1000) with 0 by zdiv.
    replace (n / 100 mod 10) with (n / 10 / 10) by zdiv.
    reflexivity.
  - rewrite (decimal_four_digits n) by lia. reflexivity.
Qed.

Lemma digit_char_value c : digit_char (digit_value c) = c.
Proof.
  unfold digit_char, digit_value, chr, ord.
  replace (48 + (Z.of_N (N_of_ascii c) - 48)) with (Z.of_N (N_of_ascii c)) by lia.
  rewrite N2Z.id. apply ascii_N_embedding.
Qed.

Lemma digit_value_range c : is_digit c = true -> 0 <= digit_value c <= 9.
Proof.
  unfold is_digit, in_range, digit_value. change (ord "0") with 48.
  change (ord "9") with 57. rewrite andb_true_iff, !Z.leb_le. lia.
Qed.

Lemma two_digits_chars a b : is_digit a = true -> is_digit b = true ->
  two_digits (10 * digit_value a + digit_value b) = String a (String b "").
Proof.
  intros Da Db. apply digit_value_range in Da, Db. unfold two_digits.
  replace ((10 * digit_value a + digit_value b) / 10) with (digit_value a) by zdiv.
  replace ((10 * digit_value a + digit_value b) mod 10) with (digit_value b) by zdiv.
  rewrite !digit_char_value. reflexivity.
Qed.

Lemma four_digits_chars a b c d :
  is_digit a = true -> is_digit b = true -> is_digit c = true -> is_digit d = true ->
  four_digits (1000 * digit_value a + 100 * digit_value b
               + 10 * digit_value c + digit_value d)
  = String a (String b (String c (String d ""))).
Proof.
  intros Da Db Dc Dd. apply digit_value_range in Da, Db, Dc, Dd. unfold four_digits.
  set (n := 1000 * digit_value a + 100 * digit_value b
            + 10 * digit_value c + digit_value d).
  replace (n / 1000) with (digit_value a) by (subst n; zdiv).
  replace (n / 100 mod 10) with (digit_value b) by (subst n; zdiv).
  replace (n / 10 mod 10) with (digit_value c) by (subst n; zdiv).
  replace (n mod 10) with (digit_value d) by (subst n; zdiv).
  rewrite !digit_char_value. reflexivity.
Qed.

Lemma string_app_nil_r s : s ++ "" = s.
Proof. induction s as [|c s IH]; simpl; [reflexivity|]. rewrite IH. reflexivity. Qed.

(** From the year 1000 on every C library prints the year with its four
    digits; below, only one that fills with zeros. *)
Lemma fmt_Y_four_digits libc y :
  1 <= y <= 9999 -> 1000 <= y \/ libc = year_zero_filled ->
  fmt_Y libc y = four_digits y.
Proof.
  intros R [H| ->].
  - destruct libc; simpl.
    + apply decimal_four_digits. lia.
    + apply fmt_04d_four_digits. lia.
  - simpl. apply fmt_04d_four_digits. lia.
Qed.

Lemma strftime_DD_MM_YYYY libc d :
  strftime libc d DD_MM_YYYY
  = fmt_02d (day d) ++ "." ++ fmt_02d (month d) ++ "." ++ fmt_Y libc (year d).
Proof.
  unfold DD_MM_YYYY. cbn [strftime Ascii.eqb Bool.eqb append].
  rewrite string_app_nil_r. reflexivity.
Qed.

(** ** [Birthday]: which texts are accepted, and how they print *)

Lemma Birthday_init_ok (s : string) d :
  Birthday_init (ArgStr s) = Ok (mkBirthday (Some d))
  <-> strptime s DD_MM_YYYY = Ok d.
Proof.
  rewrite Birthday_init_str. destruct (strptime s DD_MM_YYYY); split;
    congruence.
Qed.

Lemma Birthday_init_accepts {S : Type} `{Str S} (s : S) d :
  Birthday_init (ArgStr s) = Ok (mkBirthday (Some d))
  <-> strptime_any (code_points s) DD_MM_YYYY = inr d.
Proof.
  rewrite Birthday_init_any.
  destruct (strptime_any (code_points s) DD_MM_YYYY); split; congruence.
Qed.

Lemma ord_chr n : 0 <= n < 256 -> ord (chr n) = n.
Proof.
  intros H. unfold ord, chr. rewrite N_ascii_embedding by lia. lia.
Qed.

Lemma string_code_points_app (a b : string) :
  string_code_points (a ++ b)
  = (string_code_points a ++ string_code_points b)%list.
Proof.
  induction a as [|c a IH]; [reflexivity|].
  unfold string_code_points in *. simpl. rewrite IH. reflexivity.
Qed.

Lemma two_digits_code_points a b : 48 <= a <= 57 -> 48 <= b <= 57 ->
  string_code_points (two_digits (10 * (a - 48) + (b - 48))) = [a; b].
Proof.
  intros Ha Hb. unfold two_digits, digit_char, string_code_points.
  replace ((10 * (a - 48) + (b - 48)) / 10) with (a - 48) by zdiv.
  replace ((10 * (a - 48) + (b - 48)) mod 10) with (b - 48) by zdiv.
  cbn [list_ascii_of_string map]. rewrite !ord_chr by lia.
  f_equal; [lia|f_equal; lia].
Qed.

Lemma four_digits_code_points a b c d :
  48 <= a <= 57 -> 48 <= b <= 57 -> 48 <= c <= 57 -> 48 <= d <= 57 ->
  string_code_points
    (four_digits (1000 * (a - 48) + 100 * (b - 48) + 10 * (c - 48) + (d - 48)))
  = [a; b; c; d].
Proof.
  intros Ha Hb Hc Hd. unfold four_digits, digit_char, string_code_points.
  set (n := 1000 * (a - 48) + 100 * (b - 48) + 10 * (c - 48) + (d - 48)).
  replace (n / 1000) with (a - 48) by (subst n; zdiv).
  replace (n / 100 mod 10) with (b - 48) by (subst n; zdiv).
  replace (n / 10 mod 10) with (c - 48) by (subst n; zdiv).
  replace (n mod 10) with (d - 48) by (subst n; zdiv).
  cbn [list_ascii_of_string map]. rewrite !ord_chr by lia.
  repeat (f_equal; try lia).
Qed.

(** A string in valid DD.MM.YYYY format is a date text written with the
    digits [0] to [9], and the date prints as the string when its year has
    four digits. *)
Lemma valid_ddmmyyyy_text {S : Type} `{Str S} (s : S) :
  valid_ddmmyyyy s = true ->
  exists d, date_text is_ascii_digit (code_points s) d /\ valid_date d = true
            /\ forall libc, 1000 <= year d ->
                  string_code_points (strftime libc d DD_MM_YYYY)
                  = code_points s.
Proof.
  unfold valid_ddmmyyyy.
  destruct (code_points s)
    as [|d1 [|d2 [|p1 [|m1 [|m2 [|p2 [|y1 [|y2 [|y3 [|y4 [|x r]]]]]]]]]]];
    try discriminate.
  rewrite !andb_true_iff.
  intros ((((((((((D1 & D2) & P1) & M1) & M2) & P2) & Y1) & Y2) & Y3) & Y4) & V).
  apply Z.eqb_eq in P1, P2. subst p1 p2.
  pose proof (proj1 (is_ascii_digit_spec _) D1) as R1.
  pose proof (proj1 (is_ascii_digit_spec _) D2) as R2.
  pose proof (proj1 (is_ascii_digit_spec _) M1) as R3.
  pose proof (proj1 (is_ascii_digit_spec _) M2) as R4.
  pose proof (proj1 (is_ascii_digit_spec _) Y1) as R5.
  pose proof (proj1 (is_ascii_digit_spec _) Y2) as R6.
  pose proof (proj1 (is_ascii_digit_spec _) Y3) as R7.
  pose proof (proj1 (is_ascii_digit_spec _) Y4) as R8.
  set (y := 1000 * (y1 - 48) + 100 * (y2 - 48) + 10 * (y3 - 48) + (y4 - 48))
    in *.
  set (m := 10 * (m1 - 48) + (m2 - 48)) in *.
  set (dd := 10 * (d1 - 48) + (d2 - 48)) in *.
  exists (mkdate y m dd). split; [|split; [exact V|]].
  - exists [d1; d2], [m1; m2], [y1; y2; y3; y4].
    cbn [year month day].
    split; [reflexivity|].
    split; [unfold day_text, one_or_two_digits; rewrite D1, D2; reflexivity|].
    split; [unfold month_text, one_or_two_digits; rewrite M1, M2; reflexivity|].
    split; [unfold year_text; cbn [List.length forallb Nat.eqb];
            rewrite Y1, Y2, Y3, Y4; reflexivity|].
    rewrite !number_2, number_4 by (apply is_decimal_ascii; lia).
    rewrite !decimal_value_ascii by lia.
    subst y m dd. repeat split; lia.
  - intros libc L. rewrite strftime_DD_MM_YYYY. cbn [year month day] in *.
    apply valid_ymd_spec in V. destruct V as (Hy & Hm & Hd).
    pose proof (days_in_month_pos y m Hm).
    rewrite !fmt_02d_two_digits by lia.
    rewrite (fmt_Y_four_digits libc y Hy (or_introl L)).
    rewrite !string_code_points_app.
    subst y m dd.
    rewrite !two_digits_code_points, four_digits_code_points by assumption.
    reflexivity.
Qed.

Lemma dict_get_set_same {V} k (v : V) : forall d,
  dict_get String.eqb k (dict_set String.eqb k v d) = Some v.
Proof.
  induction d as [|[k' v'] d IH]; simpl.
  - rewrite String.eqb_refl. reflexivity.
  - destruct (String.eqb k' k) eqn:E; simpl; rewrite E; [reflexivity|exact IH].
Qed.

(** [show-birthday] after a successful [add-birthday] prints the date that
    was parsed. *)
Lemma show_birthday_after_add libc book n s d extra :
  n <> "" -> strptime s DD_MM_YYYY = Ok d ->
  exists book',
    add_birthday (n :: s :: extra) book = (Ok "Birthday added.", book')
    /\ show_birthday libc [n] book' = (Ok (strftime libc d DD_MM_YYYY), book').
Proof.
  intros Hn Hp.
  assert (Record_init n = Ok (mkRecord (mkName n) [] None)) as RI.
  { unfold Record_init, Name_init. destruct n; [congruence|reflexivity]. }
  unfold add_birthday, input_error, add_birthday_func, bind, get, lift.
  assert (forall record w book0,
            dict_get String.eqb n book0 = Some w ->
            (call_method n record (Record_add_birthday s) ;;; ret "Birthday added.")
              book0
            = (Ok "Birthday added.",
               dict_set String.eqb n
                 (set_birthday record (Some (mkBirthday (Some d)))) book0)) as CM.
  { intros record w book0 G.
    unfold call_method, Record_add_birthday, bind, lift, get, put, ret.
    rewrite Birthday_init_str, Hp.
    rewrite (dict_update_present _ _ _ _ G). reflexivity. }
  assert (forall record book0,
            show_birthday libc [n]
              (dict_set String.eqb n
                 (set_birthday record (Some (mkBirthday (Some d)))) book0)
            = (Ok (strftime libc d DD_MM_YYYY),
               dict_set String.eqb n
                 (set_birthday record (Some (mkBirthday (Some d)))) book0)) as SB.
  { intros record book0.
    unfold show_birthday, input_error, show_birthday_func, bind, get, ret,
      AddressBook_find.
    rewrite dict_get_set_same. reflexivity. }
  destruct (AddressBook_find book n) as [record|] eqn:F.
  - eexists. unfold bind in CM. rewrite (CM record record book F).
    split; [reflexivity|apply SB].
  - rewrite RI. unfold AddressBook_add_record. cbn [name Name_value].
    eexists. unfold bind in CM.
    rewrite (CM _ _ _ (dict_get_set_same n _ book)).
    split; [reflexivity|apply SB].
Qed.

(** C4, amended.  A string in valid DD.MM.YYYY format (two digits, a dot,
    two digits, a dot, four digits, the digits being [0] to [9], a real
    calendar date) is accepted by [Birthday], and the stored date prints
    as the identical string when the year is 1000 or more.  Also accepted
    is every text of such digits that names a real calendar date with the
    day or the month written with one digit, or the day with a space and a
    digit.  Whatever [Birthday] accepts, of whatever code points, is a day,
    a dot, a month, a dot and a year written with decimal digits, the day
    and the month with one or two (the day also with a space and one), the
    year with four, and names a real calendar date; every other string is
    refused with the [ValueError] of the date check.  An accepted date of
    the year 1000 or later prints as two digits, a dot, two digits, a dot
    and four digits, and [show-birthday] after [add-birthday] prints the
    stored date as [Birthday] does.  The statement is made for every
    carrier of strings; at [ustr] it is about every Python string. *)
Theorem birthday_text_accepted_and_printed
    {S : Type} `{Str S} (libc : c_library) (s : S) :
  (valid_ddmmyyyy s = true ->
   exists d,
     Birthday_init (ArgStr s) = Ok (mkBirthday (Some d))
     /\ valid_date d = true
     /\ (1000 <= year d ->
         code_points (Birthday_str libc (mkBirthday (Some d)))
         = code_points s))
  /\ (forall d,
        date_text is_ascii_digit (code_points s) d -> valid_date d = true ->
        Birthday_init (ArgStr s) = Ok (mkBirthday (Some d)))
  /\ (forall d,
        Birthday_init (ArgStr s) = Ok (mkBirthday (Some d))
        -> date_text is_decimal (code_points s) d /\ valid_date d = true)
  /\ ((exists d, Birthday_init (ArgStr s) = Ok (mkBirthday (Some d)))
      \/ Birthday_init (ArgStr s)
         = Raise (ValueError "Invalid date format. Use DD.MM.YYYY"))
  /\ (forall d,
        Birthday_init (ArgStr s) = Ok (mkBirthday (Some d)) ->
        1000 <= year d ->
        Birthday_str libc (mkBirthday (Some d))
        = two_digits (day d) ++ "." ++ two_digits (month d) ++ "."
          ++ four_digits (year d))
  /\ (forall (t : string) d book n extra,
        n <> "" ->
        Birthday_init (ArgStr t) = Ok (mkBirthday (Some d)) ->
        exists book',
          add_birthday (n :: t :: extra) book = (Ok "Birthday added.", book')
          /\ show_birthday libc [n] book'
             = (Ok (Birthday_str libc (mkBirthday (Some d))), book')).
Proof.
  split; [|split; [|split; [|split; [|split]]]].
  - intros V. destruct (valid_ddmmyyyy_text s V) as (d & T & Vd & P).
    exists d. split; [|split; [exact Vd|apply P]].
    apply Birthday_init_accepts. apply strptime_any_complete; assumption.
  - intros d T V. apply Birthday_init_accepts.
    apply strptime_any_complete; assumption.
  - intros d. rewrite Birthday_init_accepts. apply strptime_any_sound.
  - rewrite Birthday_init_any.
    destruct (strptime_any (code_points s) DD_MM_YYYY) as [e|d];
      [right; reflexivity|left; exists d; reflexivity].
  - intros d Hd Y. apply Birthday_init_accepts, strptime_any_sound in Hd.
    destruct Hd as [_ V]. unfold Birthday_str. cbn [Birthday_value].
    change (strftime libc d "%d.%m.%Y") with (strftime libc d DD_MM_YYYY).
    rewrite strftime_DD_MM_YYYY.
    apply valid_ymd_spec in V. destruct V as (Hy & Hm & Hd).
    pose proof (days_in_month_pos (year d) (month d) Hm).
    rewrite !fmt_02d_two_digits by lia.
    rewrite (fmt_Y_four_digits libc (year d)) by (try left; lia).
    reflexivity.
  - intros t d book n extra Hn Ht. apply Birthday_init_ok in Ht.
    apply (show_birthday_after_add libc book n t d extra Hn Ht).
Qed.

Lemma birthday_text_accepted_and_printed_witness :
  exists d,
    Birthday_init (ArgStr "15.03.1990") = Ok (mkBirthday (Some d))
    /\ valid_date d = true
    /\ code_points (Birthday_str year_as_is (mkBirthday (Some d)))
       = code_points "15.03.1990".
Proof.
  assert (valid_ddmmyyyy "15.03.1990" = true) as V0 by reflexivity.
  destruct (proj1 (birthday_text_accepted_and_printed year_as_is "15.03.1990")
              V0) as (d & Hd & V & P).
  exists d. split; [exact Hd|]. split; [exact V|].
  apply P.
  assert (d = mkdate 1990 3 15) as -> by (vm_compute in Hd; congruence).
  simpl. lia.
Defined.

(** C4 as stated fails.  The strings [1.3.1990] and [ 1.03.1990] (with a
    leading space) are not in DD.MM.YYYY format, yet [Birthday] accepts
    them, and the stored date prints as [01.03.1990], not as the string
    given.  The string [10.12.0999] is in DD.MM.YYYY format and is
    accepted, and with the C library of Linux the stored date prints as
    [10.12.999]. *)
Lemma birthday_text_not_round_trip :
  valid_ddmmyyyy "1.3.1990" = false
  /\ Birthday_init (ArgStr "1.3.1990") = Ok (mkBirthday (Some (mkdate 1990 3 1)))
  /\ valid_ddmmyyyy " 1.03.1990" = false
  /\ Birthday_init (ArgStr " 1.03.1990") = Ok (mkBirthday (Some (mkdate 1990 3 1)))
  /\ (forall libc,
        Birthday_str libc (mkBirthday (Some (mkdate 1990 3 1))) = "01.03.1990")
  /\ "01.03.1990" <> "1.3.1990"
  /\ "01.03.1990" <> " 1.03.1990"
  /\ valid_ddmmyyyy "10.12.0999" = true
  /\ Birthday_init (ArgStr "10.12.0999") = Ok (mkBirthday (Some (mkdate 999 12 10)))
  /\ Birthday_str year_as_is (mkBirthday (Some (mkdate 999 12 10))) = "10.12.999"
  /\ "10.12.999" <> "10.12.0999".
Proof.
  repeat split; try reflexivity; try discriminate.
  intros []; reflexivity.
Qed.

Example birthday_impossible_date :
  Birthday_init (ArgStr "31.02.2024")
  = Raise (ValueError "Invalid date format. Use DD.MM.YYYY").
Proof. reflexivity. Qed.

Example birthday_wrong_separator :
  Birthday_init (ArgStr "15-03-1990")
  = Raise (ValueError "Invalid date format. Use DD.MM.YYYY").
Proof. reflexivity. Qed.

Example birthday_not_a_number :
  Birthday_init (ArgStr "ab.03.1990")
  = Raise (ValueError "Invalid date format. Use DD.MM.YYYY").
Proof. reflexivity. Qed.

(** A day written [1] and the Arabic-Indic digit five (U+0665) is a day of
    decimal digits: [Birthday] accepts it, and the date prints with the
    digits [0] to [9]. *)
Example birthday_arabic_indic_digit :
  Birthday_init (ArgStr ([49; 1637; 46; 48; 51; 46; 49; 57; 57; 48] : ustr))
  = Ok (mkBirthday (Some (mkdate 1990 3 15)))
  /\ Birthday_str year_as_is (mkBirthday (Some (mkdate 1990 3 15)))
     = "15.03.1990".
Proof. split; reflexivity. Qed.

(** The same digit alone is a decimal digit, but no day that [strptime]
    takes. *)
Example birthday_lone_arabic_indic_digit :
  Birthday_init (ArgStr ([1637; 46; 48; 51; 46; 49; 57; 57; 48] : ustr))
  = Raise (ValueError "Invalid date format. Use DD.MM.YYYY").
Proof. reflexivity. Qed.

(** * Further properties of the program *)

(** ** [Record]: adding, finding and removing phones *)

(** X1: [remove_phone(phone)].  Either no stored phone equals [phone], and
    then the call raises the not-found [ValueError] and leaves the record
    as it was; or the phones are [pre ++ pold :: post] with [pold] the
    first entry equal to [phone], and then the call returns and the phones
    are [pre ++ post]: one entry is removed, the first match, and nothing
    else changes. *)
Theorem remove_phone_removes_first_match (self : Record) (phone : string) :
  ((forall p, In p (phones self) -> Phone_value p <> phone)
   /\ Record_remove_phone phone self
      = (Raise (ValueError "Phone number not found."), self))
  \/ (exists pre pold post,
        phones self = (pre ++ pold :: post)%list
        /\ Phone_value pold = phone
        /\ (forall p, In p pre -> Phone_value p <> phone)
        /\ Record_remove_phone phone self
           = (Ok tt, mkRecord (name self) (pre ++ post)%list (birthday self))).
Proof.
  unfold Record_remove_phone, Record_find_phone, bind, get, put, raise.
  destruct (find_phone_from 0 (phones self) phone) as [j|] eqn:F.
  - right. destruct (find_phone_from_some _ _ _ _ F)
      as (pre & pold & post & E & -> & V & N).
    exists pre, pold, post. repeat split; auto.
    unfold set_phones. rewrite E. simpl. rewrite list_remove_at_middle.
    reflexivity.
  - left. split; [|reflexivity]. eapply find_phone_from_none; eauto.
Qed.

Lemma find_phone_from_first pre pold post phone : forall i,
  Phone_value pold = phone ->
  (forall p, In p pre -> Phone_value p <> phone) ->
  find_phone_from i (pre ++ pold :: post) phone = Some (i + List.length pre)%nat.
Proof.
  induction pre as [|q pre IH]; intros i V N; simpl.
  - rewrite V, String.eqb_refl. f_equal. lia.
  - destruct (String.eqb_spec (Phone_value q) phone) as [E|_].
    + exfalso. apply (N q); [left; reflexivity|exact E].
    + rewrite IH; [f_equal; lia|exact V|]. intros p I. apply N. right. exact I.
Qed.

Lemma find_phone_from_bound ps phone : forall i j,
  find_phone_from i ps phone = Some j -> (i <= j < i + List.length ps)%nat.
Proof.
  induction ps as [|q ps IH]; intros i j H; [discriminate|].
  simpl in H. destruct (String.eqb (Phone_value q) phone).
  - injection H as <-. simpl. lia.
  - apply IH in H. simpl. lia.
Qed.

Lemma find_phone_from_app_found ps qs phone : forall i j,
  find_phone_from i ps phone = Some j ->
  find_phone_from i (ps ++ qs) phone = Some j.
Proof.
  induction ps as [|q ps IH]; intros i j H; [discriminate|].
  simpl in *. destruct (String.eqb (Phone_value q) phone); auto.
Qed.

(** X2: [add_phone(phone)].  A string that [Phone] refuses is refused and
    the record stays as it was.  A string that [Phone] accepts is appended
    at the end, also when the record already holds that number; the name,
    the birthday and the phones already stored are unchanged; and
    [find_phone] then finds the number, at the position of its first
    occurrence. *)
Theorem add_phone_appends (self : Record) (phone : string) :
  (Phone_init phone
   = Raise (ValueError "Phone number must contain exactly 10 digits.")
   /\ Record_add_phone phone self
      = (Raise (ValueError "Phone number must contain exactly 10 digits."), self))
  \/ (Phone_init phone = Ok (mkPhone phone)
      /\ let self' := mkRecord (name self) (phones self ++ [mkPhone phone])%list
                        (birthday self) in
         Record_add_phone phone self = (Ok tt, self')
         /\ exists i,
              Record_find_phone self' phone = Some i
              /\ (i <= List.length (phones self))%nat
              /\ nth_error (phones self') i = Some (mkPhone phone)
              /\ (forall j p, (j < i)%nat ->
                              nth_error (phones self') j = Some p ->
                              Phone_value p <> phone)).
Proof.
  unfold Record_add_phone, bind, lift, get, put. rewrite Phone_init_eq.
  destruct (ten_digits phone) eqn:T; [right|left]; split; auto.
  cbv zeta. split; [reflexivity|].
  unfold Record_find_phone. cbn [phones].
  destruct (find_phone_from 0 (phones self ++ [mkPhone phone]) phone)
    as [i|] eqn:F.
  - exists i. split; [reflexivity|].
    destruct (find_phone_from_some _ _ _ _ F)
      as (pre & pold & post & E & -> & V & N).
    simpl. rewrite E.
    assert (List.length (pre ++ pold :: post) = S (List.length (phones self))) as L
      by (rewrite <- E, length_app; simpl; lia).
    rewrite length_app in L. simpl in L.
    split; [lia|]. split.
    + rewrite nth_error_app2 by lia. rewrite Nat.sub_diag. simpl.
      destruct pold as [v]. simpl in V. subst v. reflexivity.
    + intros j p Hj Hp. rewrite nth_error_app1 in Hp by exact Hj.
      apply N. eapply nth_error_In; eauto.
  - exfalso.
    apply (find_phone_from_none _ _ _ F (mkPhone phone));
      [apply in_app_iff; right; left; reflexivity|reflexivity].
Qed.

(** X3: adding a number the record does not hold and then removing it
    gives back the record as it was. *)
Theorem add_then_remove_restores (self : Record) (phone : string) :
  ten_digits phone = true ->
  (forall p, In p (phones self) -> Phone_value p <> phone) ->
  (Record_add_phone phone ;;; Record_remove_phone phone) self = (Ok tt, self).
Proof.
  intros T N.
  unfold bind at 1. unfold Record_add_phone, bind, lift, get, put.
  rewrite Phone_init_eq, T.
  unfold Record_remove_phone, Record_find_phone, bind, get, put. cbn [phones set_phones].
  rewrite (find_phone_from_first (phones self) (mkPhone phone) [] phone 0 eq_refl N).
  unfold set_phones. cbn [phones name birthday]. simpl Nat.add.
  rewrite list_remove_at_middle, app_nil_r. destruct self; reflexivity.
Qed.

Lemma add_then_remove_restores_witness :
  (Record_add_phone "5550001111" ;;; Record_remove_phone "5550001111")
    (mkRecord (mkName "Ann") [mkPhone "1111111111"; mkPhone "2222222222"] None)
  = (Ok tt,
     mkRecord (mkName "Ann") [mkPhone "1111111111"; mkPhone "2222222222"] None).
Proof.
  apply add_then_remove_restores; [reflexivity|].
  intros p [<-|[<-|[]]]; discriminate.
Defined.

(** ** [AddressBook]: a dictionary from names to records *)

Lemma dict_get_set {V} k (v : V) n : forall d,
  dict_get String.eqb n (dict_set String.eqb k v d)
  = if String.eqb k n then Some v else dict_get String.eqb n d.
Proof.
  induction d as [|[k' v'] d IH]; simpl.
  - destruct (String.eqb k n); reflexivity.
  - destruct (String.eqb_spec k' k) as [->|Hk]; simpl.
    + destruct (String.eqb k n); reflexivity.
    + rewrite IH. destruct (String.eqb_spec k n) as [<-|_]; [|reflexivity].
      destruct (String.eqb_spec k' k); [contradiction|reflexivity].
Qed.

Lemma dict_set_same {V} k (v : V) : forall d,
  dict_get String.eqb k d = Some v -> dict_set String.eqb k v d = d.
Proof.
  induction d as [|[k' v'] d IH]; simpl; [discriminate|].
  destruct (String.eqb k' k).
  - intros [= ->]. reflexivity.
  - intros H. rewrite IH; auto.
Qed.

Lemma dict_keys_set_present {V} k (v w : V) : forall d,
  dict_get String.eqb k d = Some w ->
  dict_keys (dict_set String.eqb k v d) = dict_keys d.
Proof.
  induction d as [|[k' v'] d IH]; simpl; [discriminate|].
  destruct (String.eqb k' k); simpl; [reflexivity|].
  intros H. f_equal. apply IH, H.
Qed.

Lemma dict_get_none_keys {V} k : forall d : list (string * V),
  dict_get String.eqb k d = None <-> ~ In k (dict_keys d).
Proof.
  induction d as [|[k' v'] d IH]; simpl.
  - split; auto.
  - destruct (String.eqb_spec k' k) as [->|Hk].
    + split; [discriminate|]. intros H. exfalso. apply H. left. reflexivity.
    + rewrite IH. split; [intros H [E|I]; auto|intros H I; apply H; right; exact I].
Qed.

Lemma dict_get_some_split {V} k (v : V) : forall d,
  dict_get String.eqb k d = Some v ->
  exists pre post, d = (pre ++ (k, v) :: post)%list
                   /\ ~ In k (dict_keys pre).
Proof.
  induction d as [|[k' v'] d IH]; simpl; [discriminate|].
  destruct (String.eqb_spec k' k) as [->|Hk].
  - intros [= ->]. exists [], d. split; [reflexivity|intros []].
  - intros H. destruct (IH H) as (pre & post & -> & N).
    exists ((k', v') :: pre), post. split; [reflexivity|].
    intros [E|I]; auto.
Qed.

Lemma dict_del_split {V} k (v : V) pre post :
  ~ In k (dict_keys pre) ->
  dict_del String.eqb k (pre ++ (k, v) :: post) = (pre ++ post)%list.
Proof.
  induction pre as [|[k' v'] pre IH]; simpl; intros N.
  - rewrite String.eqb_refl. reflexivity.
  - destruct (String.eqb_spec k' k) as [->|Hk].
    + exfalso. apply N. left. reflexivity.
    + rewrite IH; [reflexivity|]. intros I. apply N. right. exact I.
Qed.

Lemma dict_get_app {V} k (d e : list (string * V)) :
  dict_get String.eqb k (d ++ e)
  = match dict_get String.eqb k d with
    | Some v => Some v
    | None => dict_get String.eqb k e
    end.
Proof.
  induction d as [|[k' v'] d IH]; simpl; [reflexivity|].
  destruct (String.eqb k' k); [reflexivity|exact IH].
Qed.

(** X4: [add_record] and [find].  After [add_record(record)] the book
    holds [record] under the record's name and every other name finds
    what it found before.  A record of a name the book already has takes
    the place of the old one, the order of the entries staying as it was;
    a record of a new name goes to the end. *)
Theorem add_record_then_find (record : Record) (book : AddressBook) :
  let key := Name_value (name record) in
  exists book',
    AddressBook_add_record record book = (Ok tt, book')
    /\ (forall n, AddressBook_find book' n
                  = if String.eqb key n then Some record
                    else AddressBook_find book n)
    /\ dict_keys book'
       = match AddressBook_find book key with
         | Some _ => dict_keys book
         | None => (dict_keys book ++ [key])%list
         end.
Proof.
  intros key. eexists. split; [reflexivity|]. split.
  - intros n. unfold AddressBook_find. apply dict_get_set.
  - unfold AddressBook_find. fold key.
    destruct (dict_get String.eqb key book) as [w|] eqn:G.
    + eapply dict_keys_set_present; eauto.
    + rewrite dict_set_absent by exact G. unfold dict_keys.
      rewrite map_app. reflexivity.
Qed.

(** X5: [delete(name)].  For a name the book does not hold the call raises
    [KeyError] with the message [Record with name '<name>' not found.] and
    the book is unchanged.  Otherwise the entry of that name is taken out,
    the other entries keep their order and their records, and [find] no
    longer finds the name. *)
Theorem delete_removes_the_entry (book : AddressBook) (n : string) :
  (AddressBook_find book n = None
   /\ AddressBook_delete n book
      = (Raise (KeyError ("Record with name '" ++ n ++ "' not found.")), book))
  \/ (exists pre record post,
        book = (pre ++ (n, record) :: post)%list
        /\ AddressBook_find book n = Some record
        /\ AddressBook_delete n book = (Ok tt, (pre ++ post)%list)
        /\ (forall m, m <> n ->
              AddressBook_find (pre ++ post)%list m = AddressBook_find book m)
        /\ (NoDup (dict_keys book) -> AddressBook_find (pre ++ post)%list n = None)).
Proof.
  unfold AddressBook_delete, AddressBook_find.
  destruct (dict_get String.eqb n book) as [record|] eqn:G.
  - right. destruct (dict_get_some_split _ _ _ G) as (pre & post & -> & N).
    exists pre, record, post. split; [reflexivity|]. split; [reflexivity|].
    split; [rewrite dict_del_split by exact N; reflexivity|]. split.
    + intros m Hm. rewrite !dict_get_app. simpl.
      destruct (String.eqb_spec n m) as [E|_]; [congruence|reflexivity].
    + intros ND. apply dict_get_none_keys. unfold dict_keys in *.
      rewrite map_app in *. simpl in ND. apply NoDup_remove_2 in ND. exact ND.
  - left. split; reflexivity.
Qed.

(** ** The handlers: what each one does to the book *)

(** The answer and the book of [add], case by case. *)
Lemma add_contact_effect n p extra book :
  add_contact (n :: p :: extra) book
  = match AddressBook_find book n with
    | Some r =>
        if String.eqb p "" then (Ok "Contact updated.", book)
        else if ten_digits p
        then (Ok "Contact updated.",
              dict_set String.eqb n
                (set_phones r (phones r ++ [mkPhone p])%list) book)
        else (Ok "Phone number must contain exactly 10 digits.", book)
    | None =>
        if String.eqb n "" then (Ok "Name cannot be empty.", book)
        else if String.eqb p ""
        then (Ok "Contact added.", (book ++ [(n, mkRecord (mkName n) [] None)])%list)
        else if ten_digits p
        then (Ok "Contact added.",
              (book ++ [(n, mkRecord (mkName n) [mkPhone p] None)])%list)
        else (Ok "Phone number must contain exactly 10 digits.",
              (book ++ [(n, mkRecord (mkName n) [] None)])%list)
    end.
Proof.
  unfold add_contact, input_error, add_contact_func, bind at 1, get.
  destruct (AddressBook_find book n) as [r|] eqn:F.
  - destruct p as [|c p]; [reflexivity|].
    change (String.eqb (String c p) "") with false. cbv iota.
    unfold bind, call_method, Record_add_phone, bind, lift, get, put, ret.
    rewrite Phone_init_eq.
    destruct (ten_digits (String c p));
      rewrite (dict_update_present _ _ _ _ F); [reflexivity|].
    rewrite (dict_set_same _ _ _ F). reflexivity.
  - destruct n as [|a n]; [reflexivity|].
    change (String.eqb (String a n) "") with false. cbv iota.
    unfold Record_init, Name_init, rbind, lift, bind at 1.
    unfold bind at 1, AddressBook_add_record. cbn [name Name_value].
    rewrite (dict_set_absent _ _ _ F).
    destruct p as [|c p]; [reflexivity|].
    change (String.eqb (String c p) "") with false. cbv iota.
    unfold bind, call_method, Record_add_phone, bind, lift, get, put, ret.
    rewrite Phone_init_eq.
    destruct (ten_digits (String c p));
      rewrite (dict_update_last _ _ _ _ F); reflexivity.
Qed.

(** The answer and the book of [change], case by case. *)
Lemma change_phone_effect n old new extra book :
  change_phone (n :: old :: new :: extra) book
  = match AddressBook_find book n with
    | None => (Ok (repr "Contact not found."), book)
    | Some r =>
        match Record_find_phone r old with
        | None => (Ok "Phone number to edit not found.", book)
        | Some i =>
            if ten_digits new
            then (Ok "Phone number updated.",
                  dict_set String.eqb n
                    (set_phones r (list_assign i (mkPhone new) (phones r))) book)
            else (Ok "Phone number must contain exactly 10 digits.", book)
        end
    end.
Proof.
  unfold change_phone, input_error, change_phone_func, bind at 1, get.
  destruct (AddressBook_find book n) as [r|] eqn:F; [|reflexivity].
  unfold bind, call_method, Record_edit_phone, bind, get, raise, ret.
  destruct (Record_find_phone r old) as [i|].
  - unfold lift, put. rewrite Phone_init_eq.
    destruct (ten_digits new);
      rewrite (dict_update_present _ _ _ _ F); [reflexivity|].
    rewrite (dict_set_same _ _ _ F). reflexivity.
  - rewrite (dict_update_present _ _ _ _ F), (dict_set_same _ _ _ F).
    reflexivity.
Qed.

(** The answer and the book of [add-birthday], case by case. *)
Lemma add_birthday_effect n s extra book :
  add_birthday (n :: s :: extra) book
  = match AddressBook_find book n with
    | Some r =>
        match strptime s DD_MM_YYYY with
        | Ok d =>
            (Ok "Birthday added.",
             dict_set String.eqb n
               (set_birthday r (Some (mkBirthday (Some d)))) book)
        | Raise _ => (Ok "Invalid date format. Use DD.MM.YYYY", book)
        end
    | None =>
        if String.eqb n "" then (Ok "Name cannot be empty.", book)
        else
          match strptime s DD_MM_YYYY with
          | Ok d =>
              (Ok "Birthday added.",
               (book ++ [(n, mkRecord (mkName n) []
                                (Some (mkBirthday (Some d))))])%list)
          | Raise _ =>
              (Ok "Invalid date format. Use DD.MM.YYYY",
               (book ++ [(n, mkRecord (mkName n) [] None)])%list)
          end
    end.
Proof.
  unfold add_birthday, input_error, add_birthday_func, bind at 1, get.
  destruct (AddressBook_find book n) as [r|] eqn:F.
  - unfold bind, call_method, Record_add_birthday, bind, lift, get, put, ret.
    rewrite Birthday_init_str.
    destruct (strptime s DD_MM_YYYY);
      rewrite (dict_update_present _ _ _ _ F); [reflexivity|].
    rewrite (dict_set_same _ _ _ F). reflexivity.
  - destruct n as [|a n]; [reflexivity|].
    change (String.eqb (String a n) "") with false. cbv iota.
    unfold Record_init, Name_init, rbind, lift, bind at 1.
    unfold bind at 1, AddressBook_add_record. cbn [name Name_value].
    rewrite (dict_set_absent _ _ _ F).
    unfold bind, call_method, Record_add_birthday, bind, lift, get, put, ret.
    rewrite Birthday_init_str.
    destruct (strptime s DD_MM_YYYY);
      rewrite (dict_update_last _ _ _ _ F); reflexivity.
Qed.

Lemma find_app_other (book : AddressBook) n r m :
  m <> n ->
  AddressBook_find (book ++ [(n, r)])%list m = AddressBook_find book m.
Proof.
  intros Hm. unfold AddressBook_find. rewrite dict_get_app. simpl.
  destruct (String.eqb_spec n m) as [E|_]; [congruence|].
  destruct (dict_get String.eqb m book); reflexivity.
Qed.

Lemma find_set_other (book : AddressBook) n r m :
  m <> n ->
  AddressBook_find (dict_set String.eqb n r book) m = AddressBook_find book m.
Proof.
  intros Hm. unfold AddressBook_find. rewrite dict_get_set.
  destruct (String.eqb_spec n m) as [E|_]; [congruence|reflexivity].
Qed.

Lemma find_set_same (book : AddressBook) n r :
  AddressBook_find (dict_set String.eqb n r book) n = Some r.
Proof. apply dict_get_set_same. Qed.

Lemma find_app_same (book : AddressBook) n r :
  AddressBook_find book n = None ->
  AddressBook_find (book ++ [(n, r)])%list n = Some r.
Proof. apply dict_get_last. Qed.

(** The handlers that only read. *)
Lemma show_phone_state args book : snd (show_phone args book) = book.
Proof.
  unfold show_phone. rewrite input_error_state. unfold show_phone_func.
  destruct args as [|n args]; [reflexivity|]. unfold bind, get.
  destruct (AddressBook_find book n) as [r|]; [|reflexivity].
  destruct (phones r); reflexivity.
Qed.

Lemma show_all_state libc args book : snd (show_all libc args book) = book.
Proof.
  unfold show_all. rewrite input_error_state. unfold show_all_func.
  destruct args; [|reflexivity]. unfold bind, get. destruct book; reflexivity.
Qed.

Lemma show_birthday_state libc args book :
  snd (show_birthday libc args book) = book.
Proof.
  unfold show_birthday. rewrite input_error_state. unfold show_birthday_func.
  destruct args as [|n args]; [reflexivity|]. unfold bind, get.
  destruct (AddressBook_find book n) as [r|]; [|reflexivity].
  destruct (birthday r) as [[[d|]]|]; reflexivity.
Qed.

Lemma birthdays_state libc today args book :
  snd (birthdays libc today args book) = book.
Proof.
  unfold birthdays. rewrite input_error_state. unfold birthdays_func.
  destruct args; [|reflexivity]. unfold bind, get, lift.
  destruct (birthdays_upcoming today book); reflexivity.
Qed.

Lemma show_commands_state args book : snd (show_commands args book) = book.
Proof.
  unfold show_commands. rewrite input_error_state. unfold show_commands_func.
  destruct args; reflexivity.
Qed.

Lemma dispatch_query_state libc today command args raw_command book :
  command <> Some ADD -> command <> Some CHANGE ->
  command <> Some ADD_BIRTHDAY ->
  snd (dispatch libc today command args raw_command book) = book.
Proof.
  intros H1 H2 H3. destruct command as [[]|]; try congruence; simpl;
    first [ reflexivity | apply show_phone_state | apply show_all_state
          | apply show_birthday_state | apply birthdays_state
          | apply show_commands_state ].
Qed.

(** X6: only [add], [change] and [add-birthday] write.  Every other
    command, a known one or not, with whatever arguments, leaves the book
    exactly as it was; so asking again, the clock showing the same date,
    gives the same answer. *)
Theorem queries_leave_book_unchanged
    (libc : c_library) (today : date) (command : option Command)
    (args : list string) (raw_command : option string) (book : AddressBook) :
  command <> Some ADD -> command <> Some CHANGE ->
  command <> Some ADD_BIRTHDAY ->
  let query := dispatch libc today command args raw_command in
  snd (query book) = book
  /\ (query ;;; query) book = query book.
Proof.
  intros H1 H2 H3 query.
  assert (snd (query book) = book) as E
    by (apply dispatch_query_state; assumption).
  split; [exact E|]. unfold bind.
  destruct (query book) as [[text|e] book'] eqn:Q; simpl in E; subst book'.
  - exact Q.
  - reflexivity.
Qed.

Lemma queries_leave_book_unchanged_witness :
  let query :=
    dispatch year_as_is (mkdate 2026 11 3) (Some PHONE) ["Alice"] (Some "phone") in
  snd (query book_november) = book_november
  /\ (query ;;; query) book_november = query book_november.
Proof. apply queries_leave_book_unchanged; discriminate. Defined.

(** A command line without arguments never writes. *)
Lemma dispatch_no_args libc today command raw book :
  snd (dispatch libc today command [] raw book) = book.
Proof.
  destruct command as [[]|]; simpl;
    first [ reflexivity | apply show_phone_state | apply show_all_state
          | apply show_birthday_state | apply birthdays_state
          | apply show_commands_state ].
Qed.

(** X7: a command writes to one contact only, the one its first argument
    names: every other name finds after the command what it found
    before. *)
Theorem commands_touch_only_the_named_contact
    (libc : c_library) (today : date) (command : option Command)
    (n : string) (rest : list string) (raw_command : option string)
    (book : AddressBook) (m : string) :
  m <> n ->
  AddressBook_find
    (snd (dispatch libc today command (n :: rest) raw_command book)) m
  = AddressBook_find book m.
Proof.
  intros Hm.
  destruct (command) as [c|] eqn:C; [|reflexivity].
  assert (c = ADD \/ c = CHANGE \/ c = ADD_BIRTHDAY
          \/ (command <> Some ADD /\ command <> Some CHANGE
              /\ command <> Some ADD_BIRTHDAY)) as [->|[->|[->|(H1 & H2 & H3)]]]
    by (subst command; destruct c; auto;
        right; right; right; repeat split; discriminate).
  - simpl. destruct rest as [|p extra]; [reflexivity|].
    rewrite add_contact_effect.
    destruct (AddressBook_find book n);
      repeat match goal with |- context [if ?b then _ else _] => destruct b end;
      simpl; auto using find_app_other, find_set_other.
  - simpl. destruct rest as [|old [|new extra]]; [reflexivity|reflexivity|].
    rewrite change_phone_effect.
    destruct (AddressBook_find book n) as [r|]; [|reflexivity].
    destruct (Record_find_phone r old); [|reflexivity].
    destruct (ten_digits new); simpl; auto using find_set_other.
  - simpl. destruct rest as [|s extra]; [reflexivity|].
    rewrite add_birthday_effect.
    destruct (AddressBook_find book n);
      repeat match goal with |- context [if ?b then _ else _] => destruct b end;
      destruct (strptime s DD_MM_YYYY);
      simpl; auto using find_app_other, find_set_other.
  - subst command. rewrite dispatch_query_state; auto.
Qed.

Lemma commands_touch_only_the_named_contact_witness :
  AddressBook_find
    (snd (dispatch year_as_is (mkdate 2026 11 3) (Some CHANGE)
            ["Alice"; "0123456789"; "1112223334"] (Some "change") book_november))
    "Bob"
  = AddressBook_find book_november "Bob".
Proof. apply commands_touch_only_the_named_contact. discriminate. Defined.

(** X8: [change] is all or nothing.  Unless it answers
    [Phone number updated.], whatever its arguments, the book is exactly
    as it was: a missing argument, an unknown contact, a number the
    contact does not have and a new number that is not ten digits all
    leave every record untouched. *)
Theorem change_phone_all_or_nothing (args : list string) (book : AddressBook) :
  fst (change_phone args book) <> Ok "Phone number updated." ->
  snd (change_phone args book) = book.
Proof.
  destruct args as [|n [|old [|new extra]]]; try reflexivity.
  rewrite change_phone_effect.
  destruct (AddressBook_find book n) as [r|]; [|reflexivity].
  destruct (Record_find_phone r old); [|reflexivity].
  destruct (ten_digits new); [|reflexivity].
  simpl. congruence.
Qed.

Lemma change_phone_all_or_nothing_witness :
  snd (change_phone ["Alice"; "0123456789"; "12345"] book_november)
  = book_november.
Proof. apply change_phone_all_or_nothing. vm_compute. discriminate. Defined.

Lemma show_phone_found n extra book r :
  AddressBook_find book n = Some r -> phones r <> [] ->
  show_phone (n :: extra) book
  = (Ok (join "; " (map Phone_value (phones r))), book).
Proof.
  intros F N. unfold show_phone, input_error, show_phone_func, bind, get.
  rewrite F. destruct (phones r); [contradiction|reflexivity].
Qed.

(** X9: [change] followed by [phone].  When the contact [n] has the
    phones [pre ++ pold :: post], [pold] being the first with the value
    [old], and [new] is ten digits, [change n old new] answers
    [Phone number updated.], the record of [n] in the book has [new] in
    the place of [pold] and its other phones, its name and its birthday as
    before, the names of the book and their order are unchanged, and
    [phone n] then prints the numbers with [new] in that place. *)
Theorem change_then_show
    (n old new : string) (extra extra' : list string) (book : AddressBook)
    (r : Record) (pre post : list Phone) (pold : Phone) :
  AddressBook_find book n = Some r ->
  phones r = (pre ++ pold :: post)%list ->
  Phone_value pold = old ->
  (forall p, In p pre -> Phone_value p <> old) ->
  ten_digits new = true ->
  exists book',
    change_phone (n :: old :: new :: extra) book
    = (Ok "Phone number updated.", book')
    /\ AddressBook_find book' n
       = Some (mkRecord (name r) (pre ++ mkPhone new :: post)%list (birthday r))
    /\ dict_keys book' = dict_keys book
    /\ show_phone (n :: extra') book'
       = (Ok (join "; " (map Phone_value pre ++ new :: map Phone_value post)%list),
          book').
Proof.
  intros F E V N T. rewrite change_phone_effect, F.
  unfold Record_find_phone. rewrite E.
  rewrite (find_phone_from_first pre pold post old 0%nat V N), T.
  simpl Nat.add. rewrite list_assign_middle. unfold set_phones.
  eexists. split; [reflexivity|]. split; [apply find_set_same|].
  split; [eapply dict_keys_set_present; exact F|].
  erewrite show_phone_found; [|apply find_set_same|].
  - cbn [phones]. rewrite map_app. reflexivity.
  - cbn [phones]. destruct pre; discriminate.
Qed.

Lemma change_then_show_witness :
  exists book',
    change_phone ["Alice"; "0123456789"; "1112223334"] book_november
    = (Ok "Phone number updated.", book')
    /\ AddressBook_find book' "Alice"
       = Some (mkRecord (mkName "Alice") [mkPhone "1112223334"]
                 (Some (mkBirthday (Some (mkdate 1990 11 5)))))
    /\ dict_keys book' = dict_keys book_november
    /\ show_phone ["Alice"] book' = (Ok "1112223334", book').
Proof.
  apply (change_then_show "Alice" "0123456789" "1112223334" [] [] book_november
           (mkRecord (mkName "Alice") [mkPhone "0123456789"]
              (Some (mkBirthday (Some (mkdate 1990 11 5)))))
           [] [] (mkPhone "0123456789")).
  - reflexivity.
  - reflexivity.
  - reflexivity.
  - intros p [].
  - reflexivity.
Defined.

(** X10: [add] followed by [phone].  For a name that is not empty and a
    phone of ten digits, [add n p] answers [Contact added.] when the book
    has no contact [n] and [Contact updated.] when it has one; afterwards
    the contact has the phones it had, followed by [p], and its birthday
    as before, and [phone n] prints exactly these numbers. *)
Theorem add_then_show
    (n p : string) (extra extra' : list string) (book : AddressBook) :
  n <> "" -> ten_digits p = true ->
  let old := match AddressBook_find book n with
             | Some r => r
             | None => mkRecord (mkName n) [] None
             end in
  exists book',
    add_contact (n :: p :: extra) book
    = (Ok (match AddressBook_find book n with
           | Some _ => "Contact updated."
           | None => "Contact added."
           end), book')
    /\ AddressBook_find book' n
       = Some (mkRecord (name old) (phones old ++ [mkPhone p])%list (birthday old))
    /\ show_phone (n :: extra') book'
       = (Ok (join "; " (map Phone_value (phones old) ++ [p])%list), book').
Proof.
  intros Hn T old. rewrite add_contact_effect. subst old.
  assert (String.eqb p "" = false) as Ep
    by (destruct p; [discriminate T|reflexivity]).
  assert (String.eqb n "" = false) as En
    by (destruct n; [contradiction|reflexivity]).
  rewrite Ep, T, En.
  destruct (AddressBook_find book n) as [r|] eqn:F.
  - eexists. split; [reflexivity|]. split; [apply find_set_same|].
    erewrite show_phone_found; [|apply find_set_same|].
    + unfold set_phones. cbn [phones]. rewrite map_app. reflexivity.
    + unfold set_phones. cbn [phones]. destruct (phones r); discriminate.
  - eexists. split; [reflexivity|]. split; [apply find_app_same, F|].
    erewrite show_phone_found; [|apply find_app_same, F|].
    + reflexivity.
    + discriminate.
Qed.

Lemma add_then_show_witness :
  exists book',
    add_contact ["Alice"; "5556667778"] book_november
    = (Ok "Contact updated.", book')
    /\ AddressBook_find book' "Alice"
       = Some (mkRecord (mkName "Alice")
                 [mkPhone "0123456789"; mkPhone "5556667778"]
                 (Some (mkBirthday (Some (mkdate 1990 11 5)))))
    /\ show_phone ["Alice"] book' = (Ok "0123456789; 5556667778", book').
Proof.
  apply (add_then_show "Alice" "5556667778" [] [] book_november);
    [discriminate|reflexivity].
Defined.

(** X11: too few arguments, or arguments where none is taken.  The answer
    is then a complaint followed by the usage line of the very command
    that was typed, and the book is unchanged.  [add] and [add-birthday]
    need two arguments, [change] three, [phone] and [show-birthday] one;
    [all], [birthdays] and [help] take none. *)
Theorem wrong_argument_count_gives_usage
    (libc : c_library) (today : date) (c : Command) (args : list string)
    (raw_command : option string) (book : AddressBook) :
  (List.length args < min_args c)%nat
  \/ (takes_no_args c = true /\ args <> []) ->
  exists complaint,
    dispatch libc today (Some c) args raw_command book
    = (Ok (complaint ++ " Usage: " ++ COMMAND_TEMPLATES c), book).
Proof.
  intros [H|[H N]].
  - destruct c; simpl in H; try lia;
      destruct args as [|a [|b [|d args]]]; simpl in H; try lia;
      eexists; reflexivity.
  - destruct c; try discriminate H;
      (destruct args as [|a args]; [contradiction|]);
      eexists; reflexivity.
Qed.

Lemma wrong_argument_count_gives_usage_witness :
  exists complaint,
    dispatch year_as_is (mkdate 2026 11 3) (Some CHANGE)
      ["Alice"; "0123456789"] (Some "change") book_november
    = (Ok (complaint ++ " Usage: " ++ COMMAND_TEMPLATES CHANGE), book_november).
Proof.
  apply wrong_argument_count_gives_usage. left. simpl. lia.
Defined.

(** X12: surplus arguments are ignored.  A handler that takes arguments
    looks at the first ones only: the answer and the book are those for
    the line cut off after the arguments it takes. *)
Theorem surplus_arguments_are_ignored
    (libc : c_library) (today : date) (c : Command) (args : list string)
    (raw_command : option string) (book : AddressBook) :
  takes_no_args c = false -> (min_args c <= List.length args)%nat ->
  dispatch libc today (Some c) args raw_command book
  = dispatch libc today (Some c) (firstn (min_args c) args) raw_command book.
Proof.
  intros T H.
  destruct c; try discriminate T; simpl in H;
    try reflexivity;
    destruct args as [|a [|b [|d args]]]; simpl in H; try lia; reflexivity.
Qed.

Lemma surplus_arguments_are_ignored_witness :
  dispatch year_as_is (mkdate 2026 11 3) (Some PHONE)
    ["Alice"; "and"; "more"] (Some "phone") book_november
  = dispatch year_as_is (mkdate 2026 11 3) (Some PHONE)
      (firstn (min_args PHONE) ["Alice"; "and"; "more"]) (Some "phone")
      book_november.
Proof.
  apply surplus_arguments_are_ignored; [reflexivity|simpl; lia].
Defined.

(** ** Whole sessions: the loop of [main] *)

Lemma record_grows_refl r : record_grows r r.
Proof. unfold record_grows. auto. Qed.

Lemma record_grows_trans r1 r2 r3 :
  record_grows r1 r2 -> record_grows r2 r3 -> record_grows r1 r3.
Proof.
  unfold record_grows. intros (N1 & L1 & B1) (N2 & L2 & B2).
  split; [congruence|]. split; [lia|auto].
Qed.

Lemma book_grows_refl book : book_grows book book.
Proof.
  split.
  - exists []. rewrite app_nil_r. reflexivity.
  - intros n r F. exists r. split; [exact F|apply record_grows_refl].
Qed.

Lemma book_grows_trans b1 b2 b3 :
  book_grows b1 b2 -> book_grows b2 b3 -> book_grows b1 b3.
Proof.
  intros [[a1 K1] F1] [[a2 K2] F2]. split.
  - exists (a1 ++ a2)%list. rewrite K2, K1, app_assoc. reflexivity.
  - intros n r F. destruct (F1 n r F) as (r' & F' & G1).
    destruct (F2 n r' F') as (r'' & F'' & G2).
    exists r''. split; [exact F''|]. eapply record_grows_trans; eauto.
Qed.

Lemma book_grows_set book n r r' :
  AddressBook_find book n = Some r -> record_grows r r' ->
  book_grows book (dict_set String.eqb n r' book).
Proof.
  intros F G. split.
  - exists []. rewrite app_nil_r. eapply dict_keys_set_present. exact F.
  - intros m q Fm. destruct (String.eqb_spec m n) as [->|Hm].
    + exists r'. split; [apply find_set_same|]. congruence.
    + exists q. rewrite find_set_other by exact Hm.
      split; [exact Fm|apply record_grows_refl].
Qed.

Lemma book_grows_app book n r :
  AddressBook_find book n = None -> book_grows book (book ++ [(n, r)])%list.
Proof.
  intros F. split.
  - exists [n]. unfold dict_keys. rewrite map_app. reflexivity.
  - intros m q Fm. exists q. split; [|apply record_grows_refl].
    rewrite find_app_other; [exact Fm|]. intros ->. congruence.
Qed.

Lemma length_list_assign {A} (x : A) : forall l i,
  List.length (list_assign i x l) = List.length l.
Proof.
  induction l as [|y l IH]; intros i; [destruct i; reflexivity|].
  destruct i; simpl; [reflexivity|]. rewrite IH. reflexivity.
Qed.

Lemma dispatch_grows libc today command args raw book :
  book_grows book (snd (dispatch libc today command args raw book)).
Proof.
  destruct args as [|n rest];
    [rewrite dispatch_no_args; apply book_grows_refl|].
  destruct command as [c|]; [|apply book_grows_refl].
  assert (c = ADD \/ c = CHANGE \/ c = ADD_BIRTHDAY
          \/ (Some c <> Some ADD /\ Some c <> Some CHANGE
              /\ Some c <> Some ADD_BIRTHDAY)) as [->|[->|[->|(H1 & H2 & H3)]]]
    by (destruct c; auto; right; right; right; repeat split; discriminate).
  - simpl. destruct rest as [|p extra]; [apply book_grows_refl|].
    rewrite add_contact_effect.
    destruct (AddressBook_find book n) as [r|] eqn:F;
      repeat match goal with |- context [if ?b then _ else _] => destruct b end;
      simpl; try apply book_grows_refl; try (apply book_grows_app; exact F).
    apply (book_grows_set _ _ r); [exact F|].
    unfold record_grows, set_phones. cbn [name phones birthday].
    rewrite length_app. simpl. split; [reflexivity|]. split; [lia|auto].
  - simpl. destruct rest as [|old [|new extra]];
      [apply book_grows_refl|apply book_grows_refl|].
    rewrite change_phone_effect.
    destruct (AddressBook_find book n) as [r|] eqn:F; [|apply book_grows_refl].
    destruct (Record_find_phone r old); [|apply book_grows_refl].
    destruct (ten_digits new); [|apply book_grows_refl].
    apply (book_grows_set _ _ r); [exact F|].
    unfold record_grows, set_phones. cbn [name phones birthday].
    rewrite length_list_assign. auto.
  - simpl. destruct rest as [|s extra]; [apply book_grows_refl|].
    rewrite add_birthday_effect.
    destruct (AddressBook_find book n) as [r|] eqn:F;
      repeat match goal with |- context [if ?b then _ else _] => destruct b end;
      destruct (strptime s DD_MM_YYYY);
      simpl; try apply book_grows_refl; try (apply book_grows_app; exact F).
    apply (book_grows_set _ _ r); [exact F|].
    unfold record_grows, set_birthday. cbn [name phones birthday].
    split; [reflexivity|]. split; [lia|discriminate].
  - rewrite dispatch_query_state by assumption. apply book_grows_refl.
Qed.

Lemma book_wf_find book n r :
  book_wf book -> AddressBook_find book n = Some r ->
  Name_value (name r) = n /\ n <> "".
Proof.
  intros [_ W] F. destruct (dict_get_some_split _ _ _ F) as (pre & post & -> & _).
  apply Forall_app in W. destruct W as [_ W]. inversion W. assumption.
Qed.

Lemma book_wf_set book n r r' :
  book_wf book -> AddressBook_find book n = Some r -> name r' = name r ->
  book_wf (dict_set String.eqb n r' book).
Proof.
  intros W F N. destruct (book_wf_find _ _ _ W F) as [Hn Hne].
  destruct W as [ND W]. split.
  - rewrite (dict_keys_set_present _ _ _ _ F). exact ND.
  - clear ND F. induction book as [|[k v] book IH]; simpl.
    + apply Forall_cons; [simpl; split; congruence|apply Forall_nil].
    + apply Forall_cons_iff in W. destruct W as [[Hk Hke] W'].
      simpl in Hk, Hke.
      destruct (String.eqb_spec k n) as [->|_].
      * apply Forall_cons; [simpl; split; congruence|exact W'].
      * apply Forall_cons; [split; assumption|apply IH, W'].
Qed.

Lemma book_wf_app book n r :
  book_wf book -> AddressBook_find book n = None ->
  Name_value (name r) = n -> n <> "" ->
  book_wf (book ++ [(n, r)])%list.
Proof.
  intros [ND W] F N Hn. split.
  - unfold dict_keys in *. rewrite map_app. simpl.
    apply NoDup_app; [exact ND|apply NoDup_cons; [intros []|apply NoDup_nil]|].
    intros k I [<-|[]]. apply dict_get_none_keys in F. apply F. exact I.
  - apply Forall_app. split; [exact W|].
    apply Forall_cons; [split; assumption|apply Forall_nil].
Qed.

Lemma dispatch_wf libc today command args raw book :
  book_wf book -> book_wf (snd (dispatch libc today command args raw book)).
Proof.
  intros W.
  destruct args as [|n rest]; [rewrite dispatch_no_args; exact W|].
  destruct command as [c|]; [|exact W].
  assert (c = ADD \/ c = CHANGE \/ c = ADD_BIRTHDAY
          \/ (Some c <> Some ADD /\ Some c <> Some CHANGE
              /\ Some c <> Some ADD_BIRTHDAY)) as [->|[->|[->|(H1 & H2 & H3)]]]
    by (destruct c; auto; right; right; right; repeat split; discriminate).
  - simpl. destruct rest as [|p extra]; [exact W|].
    rewrite add_contact_effect.
    destruct (AddressBook_find book n) as [r|] eqn:F.
    + destruct (String.eqb p ""); [exact W|].
      destruct (ten_digits p); [|exact W].
      apply (book_wf_set _ _ r); auto.
    + destruct (String.eqb_spec n "") as [->|Hn]; [exact W|].
      destruct (String.eqb p ""); [|destruct (ten_digits p)];
        apply book_wf_app; auto.
  - simpl. destruct rest as [|old [|new extra]]; [exact W|exact W|].
    rewrite change_phone_effect.
    destruct (AddressBook_find book n) as [r|] eqn:F; [|exact W].
    destruct (Record_find_phone r old); [|exact W].
    destruct (ten_digits new); [|exact W].
    apply (book_wf_set _ _ r); auto.
  - simpl. destruct rest as [|s extra]; [exact W|].
    rewrite add_birthday_effect.
    destruct (AddressBook_find book n) as [r|] eqn:F.
    + destruct (strptime s DD_MM_YYYY); [|exact W].
      apply (book_wf_set _ _ r); auto.
    + destruct (String.eqb_spec n "") as [->|Hn]; [exact W|].
      destruct (strptime s DD_MM_YYYY); apply book_wf_app; auto.
  - rewrite dispatch_query_state by assumption. exact W.
Qed.

Lemma dispatch_ok libc today command args raw book :
  book_ok book -> book_ok (snd (dispatch libc today command args raw book)).
Proof.
  intros Hb.
  assert (forall handler, In handler (handlers libc today) ->
            book_ok (snd (handler args book))) as K
    by (intros handler Hin; apply (keeps_handlers _ _ _ args Hin book Hb)).
  destruct command as [[]|]; simpl; try exact Hb; apply K; unfold handlers;
    simpl; auto 10.
Qed.

Lemma input_error_returns func args book :
  (forall e, fst (func args book) = Raise e ->
             exists msg, e = ValueError msg \/ e = KeyError msg) ->
  exists text, fst (input_error func args book) = Ok text.
Proof.
  intros H. unfold input_error.
  destruct (func args book) as [[text|e] book'] eqn:E.
  - exists text. reflexivity.
  - destruct (H e eq_refl) as [msg [->| ->]]; eexists; reflexivity.
Qed.

Lemma dispatch_returns libc today command args raw book :
  valid_date today = true ->
  exists text, fst (dispatch libc today command args raw book) = Ok text.
Proof.
  intros Hv.
  destruct command as [[]|]; simpl; try (eexists; reflexivity).
  - destruct args as [|n [|p extra]]; try (eexists; reflexivity).
    rewrite add_contact_effect.
    destruct (AddressBook_find book n);
      repeat match goal with |- context [if ?b then _ else _] => destruct b end;
      eexists; reflexivity.
  - destruct args as [|n [|old [|new extra]]]; try (eexists; reflexivity).
    rewrite change_phone_effect.
    destruct (AddressBook_find book n) as [r|]; [|eexists; reflexivity].
    destruct (Record_find_phone r old); [|eexists; reflexivity].
    destruct (ten_digits new); eexists; reflexivity.
  - apply input_error_returns. unfold show_phone_func.
    destruct args as [|n args]; [intros e [= <-]; eexists; left; reflexivity|].
    unfold bind, get. destruct (AddressBook_find book n) as [r|].
    + destruct (phones r); discriminate.
    + intros e [= <-]. eexists. right. reflexivity.
  - apply input_error_returns. unfold show_all_func.
    destruct args; [|intros e [= <-]; eexists; left; reflexivity].
    unfold bind, get. destruct book; discriminate.
  - destruct args as [|n [|s extra]]; try (eexists; reflexivity).
    rewrite add_birthday_effect.
    destruct (AddressBook_find book n);
      repeat match goal with |- context [if ?b then _ else _] => destruct b end;
      destruct (strptime s DD_MM_YYYY); eexists; reflexivity.
  - apply input_error_returns. unfold show_birthday_func.
    destruct args as [|n args]; [intros e [= <-]; eexists; left; reflexivity|].
    unfold bind, get. destruct (AddressBook_find book n) as [r|].
    + destruct (birthday r) as [[[d|]]|]; discriminate.
    + intros e [= <-]. eexists. right. reflexivity.
  - apply input_error_returns. unfold birthdays_func.
    destruct args; [|intros e [= <-]; eexists; left; reflexivity].
    unfold bind, get, lift.
    destruct (birthdays_upcoming today book) as [up|e0] eqn:B; [discriminate|].
    intros e [= <-]. unfold birthdays_upcoming in B.
    destruct (birthdays_loop_raises _ _ _ _ Hv B) as [msg ->].
    eexists. left. reflexivity.
  - apply input_error_returns. unfold show_commands_func.
    destruct args; [discriminate|intros e [= <-]; eexists; left; reflexivity].
Qed.

(** One turn of the loop of [main]. *)
Lemma main_loop_cons libc line today rest book :
  main_loop libc ((line, today) :: rest) book
  = if String.eqb (strip line) "" then
      (Prompt "Enter a command: "
         :: Print ("Please enter a command. Example: " ++ COMMAND_TEMPLATES ADD)
         :: written (main_loop libc rest book),
       final_outcome (main_loop libc rest book),
       final_book (main_loop libc rest book))
    else if is_exit_line line then
      ([Prompt "Enter a command: "; Print "Good bye!"], Finished, book)
    else
      let '(command, args, raw_command) := parse_input line in
      match dispatch libc today command args raw_command book with
      | (Ok text, book1) =>
          (Prompt "Enter a command: " :: Print text
             :: written (main_loop libc rest book1),
           final_outcome (main_loop libc rest book1),
           final_book (main_loop libc rest book1))
      | (Raise e, book1) => ([Prompt "Enter a command: "], Uncaught e, book1)
      end.
Proof.
  cbn [main_loop]. unfold is_exit_line, written, final_outcome, final_book.
  destruct (strip line) as [|c s] eqn:S.
  - simpl. destruct (main_loop libc rest book) as [[ev out] b]. reflexivity.
  - change (String.eqb (String c s) "") with false. cbv iota.
    destruct (parse_input line) as [[command args] raw]. cbn [fst].
    destruct (is_exit_command command); [reflexivity|].
    destruct (dispatch libc today command args raw book) as [[text|e] book1];
      [|reflexivity].
    destruct (main_loop libc rest book1) as [[ev out] b]. reflexivity.
Qed.

Lemma main_unfold libc inputs :
  main libc inputs
  = (Print "Welcome to the assistant bot!" :: written (main_loop libc inputs []),
     final_outcome (main_loop libc inputs []),
     final_book (main_loop libc inputs [])).
Proof.
  unfold main, written, final_outcome, final_book.
  destruct (main_loop libc inputs []) as [[ev out] b]. reflexivity.
Qed.

(** A property of the book that every command keeps holds of the book at
    the end of a session. *)
Lemma main_loop_invariant (P : AddressBook -> Prop) libc :
  (forall today command args raw book,
     P book -> P (snd (dispatch libc today command args raw book))) ->
  forall inputs book, P book -> P (final_book (main_loop libc inputs book)).
Proof.
  intros Hd. induction inputs as [|[line today] rest IH]; intros book Hb.
  - exact Hb.
  - rewrite main_loop_cons.
    destruct (String.eqb (strip line) ""); [apply IH, Hb|].
    destruct (is_exit_line line); [exact Hb|].
    destruct (parse_input line) as [[command args] raw].
    specialize (Hd today command args raw book Hb).
    destruct (dispatch libc today command args raw book) as [[text|e] book1];
      [apply IH; exact Hd|exact Hd].
Qed.

(** X13: a session never loses anything.  Whatever lines are typed, the
    contacts the book had at the start are all in the book at the end,
    first and in the same order, each with its name, with as many phones
    as it had or more, and with a birthday if it had one: no command
    removes a contact, a phone or a birthday. *)
Theorem session_never_loses_contacts
    (libc : c_library) (inputs : list (string * date)) (book : AddressBook) :
  book_grows book (final_book (main_loop libc inputs book)).
Proof.
  apply (main_loop_invariant (book_grows book)).
  - intros today command args raw b G. eapply book_grows_trans; [exact G|].
    apply dispatch_grows.
  - apply book_grows_refl.
Qed.

Lemma book_wf_empty : book_wf [].
Proof. split; [apply NoDup_nil|apply Forall_nil]. Qed.

(** X14: the book [main] holds when it ends, whatever was typed: every
    record is stored under its own name, no name is empty, and every
    stored phone has passed the check of [Phone] and every stored birthday
    is a real calendar date. *)
Theorem session_book_is_well_formed
    (libc : c_library) (inputs : list (string * date)) :
  book_wf (final_book (main libc inputs))
  /\ book_ok (final_book (main libc inputs)).
Proof.
  rewrite main_unfold. unfold final_book at 1 3. cbn [snd]. split.
  - apply (main_loop_invariant book_wf); [|apply book_wf_empty].
    intros. apply dispatch_wf. assumption.
  - apply (main_loop_invariant book_ok); [|apply Forall_nil].
    intros. apply dispatch_ok. assumption.
Qed.

(** X15: how a session ends.  With a clock that shows real dates no
    exception leaves a handler: [main] ends by [break] when some line is
    [close] or [exit], and by the end of the input otherwise. *)
Theorem session_outcome
    (libc : c_library) (inputs : list (string * date)) :
  Forall (fun input => valid_date (snd input) = true) inputs ->
  final_outcome (main libc inputs)
  = if existsb is_exit_line (map fst inputs) then Finished else EndOfInput.
Proof.
  rewrite main_unfold. unfold final_outcome at 1. cbn [fst snd].
  generalize (@nil (string * Record)).
  induction inputs as [|[line today] rest IH]; intros book Hv; [reflexivity|].
  apply Forall_cons_iff in Hv. destruct Hv as [Ht Hv]. simpl in Ht.
  rewrite main_loop_cons. cbn [map fst existsb].
  destruct (String.eqb (strip line) "") eqn:S.
  - unfold final_outcome at 1. cbn [fst snd].
    assert (is_exit_line line = false) as ->.
    { unfold is_exit_line, parse_input.
      apply String.eqb_eq in S. rewrite S. reflexivity. }
    apply IH, Hv.
  - destruct (is_exit_line line); [reflexivity|]. cbn [orb].
    destruct (parse_input line) as [[command args] raw].
    destruct (dispatch_returns libc today command args raw book Ht) as [text E].
    destruct (dispatch libc today command args raw book) as [[text'|e] book1];
      [|discriminate E].
    unfold final_outcome at 1. cbn [fst snd]. apply IH, Hv.
Qed.

Lemma session_outcome_witness :
  final_outcome
    (main year_as_is
       [("add Alice 0123456789", mkdate 2026 11 3);
        ("birthdays", mkdate 2026 11 3);
        ("EXIT", mkdate 2026 11 4);
        ("add Bob 0123456780", mkdate 2026 11 4)])
  = Finished.
Proof.
  apply (session_outcome year_as_is
           [("add Alice 0123456789", mkdate 2026 11 3);
            ("birthdays", mkdate 2026 11 3);
            ("EXIT", mkdate 2026 11 4);
            ("add Bob 0123456780", mkdate 2026 11 4)]).
  repeat (apply Forall_cons; [reflexivity|]). apply Forall_nil.
Defined.

(** X16: after [close] or [exit] nothing more is read: a session with
    further lines after such a line writes the same, ends the same and
    leaves the same book as the session cut off after that line. *)
Theorem input_after_exit_is_ignored
    (libc : c_library) (before after : list (string * date))
    (line : string) (today : date) :
  is_exit_line line = true ->
  main libc (before ++ (line, today) :: after)
  = main libc (before ++ [(line, today)]).
Proof.
  intros X. rewrite !main_unfold.
  enough (forall book,
            main_loop libc (before ++ (line, today) :: after) book
            = main_loop libc (before ++ [(line, today)]) book) as H
    by (rewrite H; reflexivity).
  induction before as [|[l t] before IH]; intros book.
  - simpl app. rewrite !main_loop_cons. rewrite X.
    destruct (String.eqb (strip line) "") eqn:S; [|reflexivity].
    exfalso. unfold is_exit_line, parse_input in X.
    apply String.eqb_eq in S. rewrite S in X. discriminate X.
  - simpl app. rewrite !main_loop_cons.
    destruct (String.eqb (strip l) ""); [rewrite IH; reflexivity|].
    destruct (is_exit_line l); [reflexivity|].
    destruct (parse_input l) as [[command args] raw].
    destruct (dispatch libc t command args raw book) as [[text|e] book1];
      [rewrite IH; reflexivity|reflexivity].
Qed.

Lemma input_after_exit_is_ignored_witness :
  main year_as_is
    ([("add Alice 0123456789", mkdate 2026 11 3)]
       ++ ("Close now", mkdate 2026 11 3)
       :: [("add Bob 0123456780", mkdate 2026 11 4)])
  = main year_as_is
      ([("add Alice 0123456789", mkdate 2026 11 3)]
         ++ [("Close now", mkdate 2026 11 3)]).
Proof. apply input_after_exit_is_ignored. reflexivity. Defined.

(** X17: every line read is answered once.  With a clock that shows real
    dates, what a session writes is, for each line read, the prompt and
    one printed text, followed by one more prompt when the input ended
    without [close] or [exit]; the lines read are those up to the first
    [close] or [exit]. *)
Theorem every_line_is_answered_once
    (libc : c_library) (inputs : list (string * date)) (book : AddressBook) :
  Forall (fun input => valid_date (snd input) = true) inputs ->
  exists answers,
    written (main_loop libc inputs book)
    = (flat_map (fun text => [Prompt "Enter a command: "; Print text]) answers
       ++ match final_outcome (main_loop libc inputs book) with
          | Finished => []
          | _ => [Prompt "Enter a command: "]
          end)%list
    /\ List.length answers = lines_read (map fst inputs).
Proof.
  revert book. induction inputs as [|[line today] rest IH]; intros book Hv.
  - exists []. split; reflexivity.
  - apply Forall_cons_iff in Hv. destruct Hv as [Ht Hv]. simpl in Ht.
    rewrite main_loop_cons. cbn [map fst lines_read].
    destruct (String.eqb (strip line) "") eqn:S.
    + assert (is_exit_line line = false) as ->.
      { unfold is_exit_line, parse_input.
        apply String.eqb_eq in S. rewrite S. reflexivity. }
      destruct (IH book Hv) as (answers & W & L).
      exists (("Please enter a command. Example: " ++ COMMAND_TEMPLATES ADD)
              :: answers).
      unfold written at 1, final_outcome at 1. cbn [fst snd].
      split; [rewrite W; reflexivity|simpl; rewrite L; reflexivity].
    + destruct (is_exit_line line).
      * exists ["Good bye!"]. split; reflexivity.
      * destruct (parse_input line) as [[command args] raw].
        destruct (dispatch_returns libc today command args raw book Ht)
          as [text E].
        destruct (dispatch libc today command args raw book)
          as [[text'|e] book1]; [|discriminate E].
        destruct (IH book1 Hv) as (answers & W & L).
        exists (text' :: answers).
        unfold written at 1, final_outcome at 1. cbn [fst snd].
        split; [rewrite W; reflexivity|simpl; rewrite L; reflexivity].
Qed.

Lemma every_line_is_answered_once_witness :
  exists answers,
    written (main_loop year_as_is
               [("hello", mkdate 2026 11 3); ("  ", mkdate 2026 11 3);
                ("exit", mkdate 2026 11 3); ("hello", mkdate 2026 11 3)] [])
    = (flat_map (fun text => [Prompt "Enter a command: "; Print text]) answers
       ++ match final_outcome
                  (main_loop year_as_is
                     [("hello", mkdate 2026 11 3); ("  ", mkdate 2026 11 3);
                      ("exit", mkdate 2026 11 3); ("hello", mkdate 2026 11 3)] [])
          with
          | Finished => []
          | _ => [Prompt "Enter a command: "]
          end)%list
    /\ List.length answers = 3%nat.
Proof.
  apply (every_line_is_answered_once year_as_is
           [("hello", mkdate 2026 11 3); ("  ", mkdate 2026 11 3);
            ("exit", mkdate 2026 11 3); ("hello", mkdate 2026 11 3)] []).
  repeat (apply Forall_cons; [reflexivity|]). apply Forall_nil.
Defined.

(** ** The command line: [strip], [split], [lower] and [parse_input] *)

Lemma string_app_assoc (a b c : string) : (a ++ b) ++ c = a ++ (b ++ c).
Proof. induction a as [|x a IH]; simpl; [reflexivity|]. rewrite IH. reflexivity. Qed.

Lemma all_chars_app p (a b : string) :
  all_chars p (a ++ b) = all_chars p a && all_chars p b.
Proof.
  induction a as [|x a IH]; simpl; [reflexivity|].
  rewrite IH, andb_assoc. reflexivity.
Qed.

Lemma list_ascii_of_string_app (a b : string) :
  list_ascii_of_string (a ++ b)
  = (list_ascii_of_string a ++ list_ascii_of_string b)%list.
Proof. induction a as [|x a IH]; simpl; [reflexivity|]. rewrite IH. reflexivity. Qed.

Lemma string_of_list_ascii_app (a b : list ascii) :
  string_of_list_ascii (a ++ b)
  = string_of_list_ascii a ++ string_of_list_ascii b.
Proof. induction a as [|x a IH]; simpl; [reflexivity|]. rewrite IH. reflexivity. Qed.

Lemma rev_string_app (a b : string) :
  rev_string (a ++ b) = rev_string b ++ rev_string a.
Proof.
  unfold rev_string.
  rewrite list_ascii_of_string_app, rev_app_distr, string_of_list_ascii_app.
  reflexivity.
Qed.

Lemma rev_string_involutive (s : string) : rev_string (rev_string s) = s.
Proof.
  unfold rev_string.
  rewrite list_ascii_of_string_of_list_ascii, rev_involutive.
  apply string_of_list_ascii_of_string.
Qed.

Lemma all_chars_rev_string p (s : string) :
  all_chars p (rev_string s) = all_chars p s.
Proof.
  induction s as [|c s IH]; [reflexivity|].
  change (String c s) with (String c "" ++ s).
  rewrite rev_string_app, !all_chars_app, IH.
  change (rev_string (String c "")) with (String c ""). apply andb_comm.
Qed.

(** [lstrip] takes a run of white space off the front. *)
Lemma lstrip_split (s : string) :
  exists w, all_chars is_space w = true /\ s = w ++ lstrip s.
Proof.
  induction s as [|c s [w [Hw E]]]; [exists ""; split; reflexivity|].
  simpl. destruct (is_space c) eqn:C.
  - exists (String c w). simpl. rewrite C, Hw. split; [reflexivity|].
    f_equal. exact E.
  - exists "". split; reflexivity.
Qed.

(** [strip] takes a run of white space off each end. *)
Lemma strip_split (s : string) :
  exists w w', all_chars is_space w = true /\ all_chars is_space w' = true
               /\ s = w ++ strip s ++ w'.
Proof.
  destruct (lstrip_split s) as (w & Hw & E).
  destruct (lstrip_split (rev_string (lstrip s))) as (v & Hv & E').
  exists w, (rev_string v). split; [exact Hw|].
  split; [rewrite all_chars_rev_string; exact Hv|].
  unfold strip. rewrite <- rev_string_app, <- E', rev_string_involutive.
  exact E.
Qed.

Lemma split_from_token cur t s :
  all_chars (fun c => negb (is_space c)) t = true ->
  split_from cur (t ++ s) = split_from (cur ++ t) s.
Proof.
  revert cur. induction t as [|c t IH]; intros cur H; simpl.
  - rewrite string_app_nil_r. reflexivity.
  - simpl in H. apply andb_true_iff in H. destruct H as [Hc Ht].
    apply negb_true_iff in Hc. rewrite Hc, IH by exact Ht.
    rewrite string_app_assoc. reflexivity.
Qed.

Lemma split_from_spaces w s :
  all_chars is_space w = true -> split_from "" (w ++ s) = split_from "" s.
Proof.
  induction w as [|c w IH]; intros H; simpl; [reflexivity|].
  simpl in H. apply andb_true_iff in H. destruct H as [Hc Hw].
  rewrite Hc. apply IH, Hw.
Qed.

Lemma split_from_trailing w : forall s cur,
  all_chars is_space w = true -> split_from cur (s ++ w) = split_from cur s.
Proof.
  intros s cur Hw. revert cur. induction s as [|c s IH]; intros cur.
  - simpl app. revert cur. induction w as [|c w IHw]; intros cur; [reflexivity|].
    simpl in Hw. apply andb_true_iff in Hw. destruct Hw as [Hc Hw].
    simpl. rewrite Hc. specialize (IHw Hw ""). simpl in IHw. rewrite IHw.
    destruct cur; reflexivity.
  - simpl. destruct (is_space c); [|apply IH].
    rewrite IH. reflexivity.
Qed.

Lemma is_token_spec t :
  is_token t = true
  <-> t <> "" /\ all_chars (fun c => negb (is_space c)) t = true.
Proof.
  unfold is_token. rewrite andb_true_iff, negb_true_iff.
  split; intros [H1 H2]; (split; [|exact H2]).
  - intros ->. discriminate.
  - destruct t; [contradiction|reflexivity].
Qed.

Lemma split_from_tokens s : forall cur,
  all_chars (fun c => negb (is_space c)) cur = true ->
  Forall (fun t => is_token t = true) (split_from cur s).
Proof.
  induction s as [|c s IH]; intros cur H; simpl.
  - destruct cur as [|x cur]; [apply Forall_nil|].
    apply Forall_cons; [|apply Forall_nil].
    apply is_token_spec. split; [discriminate|exact H].
  - destruct (is_space c) eqn:C.
    + destruct cur as [|x cur]; [apply IH; reflexivity|].
      apply Forall_cons; [|apply IH; reflexivity].
      apply is_token_spec. split; [discriminate|exact H].
    + apply IH. rewrite all_chars_app, H. simpl. rewrite C. reflexivity.
Qed.

Lemma split_strip s : split (strip s) = split s.
Proof.
  destruct (strip_split s) as (w & w' & Hw & Hw' & E).
  unfold split. rewrite E at 2.
  rewrite split_from_spaces by exact Hw.
  rewrite split_from_trailing by exact Hw'. reflexivity.
Qed.

Lemma split_join ts :
  Forall (fun t => is_token t = true) ts -> split (join " " ts) = ts.
Proof.
  unfold split, join. induction ts as [|t ts IH]; intros H; [reflexivity|].
  apply Forall_cons_iff in H. destruct H as [Ht Hts].
  apply is_token_spec in Ht. destruct Ht as [Hne Hns].
  destruct ts as [|u ts].
  - simpl. rewrite <- (string_app_nil_r t) at 1.
    rewrite split_from_token by exact Hns. simpl.
    destruct t; [contradiction|reflexivity].
  - change (concat " " (t :: u :: ts)) with (t ++ " " ++ concat " " (u :: ts)).
    rewrite split_from_token by exact Hns.
    change (split_from ("" ++ t) (" " ++ concat " " (u :: ts)))
      with (match t with
            | EmptyString => split_from "" (concat " " (u :: ts))
            | _ => t :: split_from "" (concat " " (u :: ts))
            end).
    rewrite IH by exact Hts. destruct t; [contradiction|reflexivity].
Qed.

(** X18: [split].  The parts of a line are tokens: none is empty and none
    holds white space.  The [strip] before [split] in [parse_input]
    changes nothing.  And joining tokens with single spaces and splitting
    again gives the tokens back: white space of any length before, between
    and after the words is not part of any of them. *)
Theorem split_gives_the_tokens (s : string) (ts : list string) :
  Forall (fun t => is_token t = true) ts ->
  Forall (fun t => is_token t = true) (split s)
  /\ split (strip s) = split s
  /\ split (join " " ts) = ts.
Proof.
  intros H. split; [apply split_from_tokens; reflexivity|].
  split; [apply split_strip|apply split_join, H].
Qed.

Lemma split_gives_the_tokens_witness :
  Forall (fun t => is_token t = true) (split "  add   Alice 0123456789 ")
  /\ split (strip "  add   Alice 0123456789 ")
     = split "  add   Alice 0123456789 "
  /\ split (join " " ["add"; "Alice"; "0123456789"])
     = ["add"; "Alice"; "0123456789"].
Proof.
  apply (split_gives_the_tokens "  add   Alice 0123456789 "
           ["add"; "Alice"; "0123456789"]).
  repeat (apply Forall_cons; [reflexivity|]). apply Forall_nil.
Defined.

Lemma Command_of_value_spec value c :
  Command_of_value value = Some c <-> value = Command_value c.
Proof.
  unfold Command_of_value, all_commands. split.
  - intros H. apply find_some in H. destruct H as [_ H].
    apply String.eqb_eq in H. congruence.
  - intros ->. destruct c; reflexivity.
Qed.

(** X19: [parse_input].  A line made of a word [w] and arguments, with
    white space of any kind before and after, parses to the command whose
    keyword is [w] in lower case (none when there is no such keyword),
    the arguments as typed, case included, and [w] as typed. *)
Theorem parse_input_words
    (lead trail w : string) (args : list string) :
  all_chars is_space lead = true -> all_chars is_space trail = true ->
  Forall (fun t => is_token t = true) (w :: args) ->
  parse_input (lead ++ join " " (w :: args) ++ trail)
  = (Command_of_value (lower w), args, Some w)
  /\ forall c, Command_of_value (lower w) = Some c
               <-> lower w = Command_value c.
Proof.
  intros Hl Ht Hts. split; [|intros c; apply Command_of_value_spec].
  unfold parse_input. rewrite split_strip. unfold split.
  rewrite split_from_spaces by exact Hl.
  rewrite split_from_trailing by exact Ht.
  fold (split (join " " (w :: args))). rewrite split_join by exact Hts.
  reflexivity.
Qed.

Lemma parse_input_words_witness :
  parse_input ("  " ++ join " " ["Add-Birthday"; "Alice"; "05.11.1990"] ++ " ")
  = (Command_of_value (lower "Add-Birthday"), ["Alice"; "05.11.1990"],
     Some "Add-Birthday")
  /\ forall c, Command_of_value (lower "Add-Birthday") = Some c
               <-> lower "Add-Birthday" = Command_value c.
Proof.
  apply parse_input_words; [reflexivity|reflexivity|].
  repeat (apply Forall_cons; [reflexivity|]). apply Forall_nil.
Defined.

Lemma strip_blank s : strip s = "" <-> split s = [].
Proof.
  rewrite <- split_strip. split; [intros ->; reflexivity|].
  destruct (strip_split s) as (w & w' & Hw & Hw' & E).
  destruct (strip s) as [|c t] eqn:S; [reflexivity|].
  intros H. exfalso.
  (* the first character of a stripped line is not white space *)
  assert (is_space c = false) as C.
  { unfold strip in S.
    assert (forall u x y, lstrip u = String x y -> is_space x = false) as L.
    { induction u as [|a u IH]; intros x y; simpl; [discriminate|].
      destruct (is_space a) eqn:A; [apply IH|]. intros [= <- _]. exact A. }
    destruct (lstrip_split (rev_string (lstrip s))) as (v & Hv & E').
    assert (lstrip s = String c t ++ rev_string v) as E2.
    { rewrite <- S, <- rev_string_app, <- E', rev_string_involutive.
      reflexivity. }
    simpl in E2. eapply L. exact E2. }
  unfold split in H. simpl in H. rewrite C in H.
  pose proof (split_from_tokens t (String c "")) as T.
  simpl in T. rewrite C in T. specialize (T eq_refl).
  assert (forall u cur, cur <> "" -> split_from cur u <> []) as NE.
  { induction u as [|a u IH]; intros cur Hc; simpl.
    - destruct cur; [contradiction|discriminate].
    - destruct (is_space a).
      + destruct cur; [contradiction|discriminate].
      + apply IH. destruct cur; discriminate. }
  apply (NE t (String c "")); [discriminate|exact H].
Qed.

(** X20: a line that is not blank always has a raw command.  [parse_input]
    returns the first token of the line as typed, which is not empty, the
    other tokens as arguments, and the command of that keyword; so the
    answer of [main] to an unknown word names the word, and the message
    without a word is never printed by [main]. *)
Theorem nonblank_line_has_raw_command
    (libc : c_library) (line : string) (today : date)
    (rest : list (string * date)) (book : AddressBook) :
  strip line <> "" ->
  exists w args,
    is_token w = true /\ Forall (fun t => is_token t = true) args
    /\ parse_input line = (Command_of_value (lower w), args, Some w)
    /\ (Command_of_value (lower w) = None ->
        main_loop libc ((line, today) :: rest) book
        = (Prompt "Enter a command: "
             :: Print ("Unknown command '" ++ w ++ "'." ++ NL
                       ++ "Use one of the following patterns:" ++ NL
                       ++ command_usage_summary)
             :: written (main_loop libc rest book),
           final_outcome (main_loop libc rest book),
           final_book (main_loop libc rest book))).
Proof.
  intros Hs.
  pose proof (split_from_tokens (strip line) "" eq_refl) as T.
  fold (split (strip line)) in T.
  assert (parse_input line
          = match split (strip line) with
            | [] => (None, [], None)
            | w :: args => (Command_of_value (lower w), args, Some w)
            end) as P by reflexivity.
  destruct (split (strip line)) as [|w args] eqn:E.
  - exfalso. apply Hs. rewrite split_strip in E. apply strip_blank. exact E.
  - apply Forall_cons_iff in T. destruct T as [Tw Ta].
    exists w, args. split; [exact Tw|]. split; [exact Ta|].
    split; [exact P|]. intros N.
    rewrite main_loop_cons. unfold is_exit_line. rewrite P, N.
    destruct (String.eqb_spec (strip line) "") as [B|_]; [contradiction|].
    cbn [fst is_exit_command dispatch ret].
    unfold format_unknown_command_message.
    destruct w as [|a w]; [discriminate Tw|].
    rewrite !string_app_assoc. reflexivity.
Qed.

Lemma nonblank_line_has_raw_command_witness :
  exists w args,
    is_token w = true /\ Forall (fun t => is_token t = true) args
    /\ parse_input " remove Alice" = (Command_of_value (lower w), args, Some w)
    /\ (Command_of_value (lower w) = None ->
        main_loop year_as_is [(" remove Alice", mkdate 2026 11 3)] []
        = (Prompt "Enter a command: "
             :: Print ("Unknown command '" ++ w ++ "'." ++ NL
                       ++ "Use one of the following patterns:" ++ NL
                       ++ command_usage_summary)
             :: written (main_loop year_as_is [] []),
           final_outcome (main_loop year_as_is [] []),
           final_book (main_loop year_as_is [] []))).
Proof.
  apply (nonblank_line_has_raw_command year_as_is " remove Alice"
           (mkdate 2026 11 3) [] []).
  vm_compute. discriminate.
Defined.

(** X21: the usage lines, the keywords and the parser agree.  The usage
    line of each command, as [help] and the unknown-command message print
    it, parses to that very command; every keyword is in lower case, as
    [parse_input] needs it to be, since it compares the typed word in
    lower case; and no two commands share a keyword. *)
Theorem usage_lines_parse_to_their_command (c : Command) :
  fst (fst (parse_input (COMMAND_TEMPLATES c))) = Some c
  /\ lower (Command_value c) = Command_value c
  /\ forall c', Command_value c' = Command_value c -> c' = c.
Proof.
  split; [destruct c; reflexivity|]. split; [destruct c; reflexivity|].
  intros c' H. destruct c, c'; first [reflexivity | discriminate H].
Qed.

(** ** Birthdays: how far ahead, and who is listed *)

Lemma next_occurrence_cases today bd c :
  valid_date today = true ->
  next_occurrence today bd = Ok c ->
  valid_ymd (year today) (month bd) (day bd) = true
  /\ valid_date c = true
  /\ ((c = mkdate (year today) (month bd) (day bd) /\ date_ltb c today = false)
      \/ (c = mkdate (year today + 1) (month bd) (day bd)
          /\ date_ltb (mkdate (year today) (month bd) (day bd)) today = true)).
Proof.
  intros Vt E.
  destruct (next_occurrence_ok _ _ _ Vt E) as (Vc & Cases & _).
  split; [|split; assumption].
  unfold next_occurrence, replace_year in E.
  destruct (check_date_fields (year today) (month bd) (day bd)) as [c0|e] eqn:E0;
    [|discriminate E].
  apply check_date_fields_ok in E0. destruct E0 as [_ V0]. exact V0.
Qed.

Lemma leap_years_not_adjacent y : is_leap y = true -> is_leap (y + 1) = false.
Proof.
  intros L. apply is_leap_spec in L. apply is_leap_false.
  intros [H _]. destruct L as [L _]. zdiv.
Qed.

(** The same month and day one year later is 365 or 366 days later. *)
Lemma ymd2ord_next_year y m d :
  365 <= ymd2ord (y + 1) m d - ymd2ord y m d <= 366.
Proof.
  unfold ymd2ord. rewrite days_before_year_succ. unfold days_before_month.
  destruct (is_leap y) eqn:L.
  - rewrite (leap_years_not_adjacent y L).
    destruct (2 <? m); simpl; lia.
  - destruct (is_leap (y + 1)); destruct (2 <? m); simpl; lia.
Qed.

Lemma date_ltb_neither a b :
  date_ltb a b = false -> date_ltb b a = false ->
  year a = year b /\ month a = month b /\ day a = day b.
Proof.
  unfold date_ltb. intros H1 H2.
  destruct (Z.ltb_spec (year a) (year b)); [discriminate H1|].
  destruct (Z.ltb_spec (year b) (year a)); [discriminate H2|].
  assert (year a = year b) as Ey by lia.
  rewrite Ey, Z.eqb_refl in *. simpl in H1, H2.
  destruct (Z.ltb_spec (month a) (month b)); [discriminate H1|].
  destruct (Z.ltb_spec (month b) (month a)); [discriminate H2|].
  assert (month a = month b) as Em by lia.
  rewrite Em, Z.eqb_refl in *. simpl in H1, H2.
  apply Z.ltb_ge in H1, H2. lia.
Qed.

Lemma days_to_birthday_value today record k :
  fst (Record_days_to_birthday today record) = Ok (Some k) ->
  exists bd c, has_birthday record bd /\ next_occurrence today bd = Ok c
               /\ k = sub_days c today.
Proof.
  unfold Record_days_to_birthday, bind, get, lift, ret, has_birthday.
  destruct (birthday record) as [[[bd|]]|]; cbn [Birthday_value];
    try discriminate.
  destruct (next_occurrence today bd) as [c|e] eqn:E; [|discriminate].
  intros [= <-]. exists bd, c. auto.
Qed.

(** X22: the day count of [days_to_birthday].  When the clock shows a
    real date and the call returns a count, the count is between 0 and
    365, and it is 0 exactly when the month and the day of the birthday
    are those of today. *)
Theorem days_to_birthday_within_a_year
    (today : date) (record : Record) (bd : date) (k : Z) :
  valid_date today = true -> has_birthday record bd ->
  fst (Record_days_to_birthday today record) = Ok (Some k) ->
  0 <= k <= 365
  /\ (k = 0 <-> month bd = month today /\ day bd = day today).
Proof.
  intros Vt Hb Hk.
  destruct (days_to_birthday_value _ _ _ Hk) as (bd' & c & Hb' & En & ->).
  unfold has_birthday in Hb, Hb'. rewrite Hb in Hb'. injection Hb' as <-.
  destruct (next_occurrence_cases _ _ _ Vt En) as (V0 & Vc & Cases).
  pose proof (ymd2ord_bounds _ _ _ Vt) as Bt.
  assert (valid_date (mkdate (year today) (month bd) (day bd)) = true) as V0'
    by exact V0.
  unfold sub_days, toordinal.
  destruct Cases as [[-> L]|[-> L]]; cbn [year month day] in *.
  - pose proof (ymd2ord_bounds _ _ _ V0) as B0.
    pose proof (date_ltb_false_toordinal _ _ V0' Vt L) as Ge.
    unfold toordinal in Ge. cbn [year month day] in Ge.
    rewrite days_before_year_succ in Bt, B0.
    split; [destruct (is_leap (year today)); lia|]. split.
    + intros E.
      destruct (date_ltb today (mkdate (year today) (month bd) (day bd)))
        eqn:L'.
      * pose proof (date_ltb_toordinal _ _ Vt V0' L') as Lt.
        unfold toordinal in Lt. cbn [year month day] in Lt. lia.
      * destruct (date_ltb_neither _ _ L L') as (_ & Hm & Hd).
        cbn [year month day] in Hm, Hd. auto.
    + intros [Hm Hd]. rewrite Hm, Hd. lia.
  - pose proof (date_ltb_toordinal _ _ V0' Vt L) as Lt.
    unfold toordinal in Lt. cbn [year month day] in Lt.
    pose proof (ymd2ord_bounds _ _ _ Vc) as Bc. cbn [year month day] in Bc.
    pose proof (ymd2ord_next_year (year today) (month bd) (day bd)) as Ny.
    split; [lia|]. split; [lia|].
    intros [Hm Hd]. exfalso. unfold date_ltb in L. cbn [year month day] in L.
    rewrite Hm, Hd, Z.ltb_irrefl, Z.eqb_refl in L. simpl in L.
    rewrite Z.ltb_irrefl, Z.eqb_refl, Z.ltb_irrefl in L. discriminate L.
Qed.

Lemma days_to_birthday_within_a_year_witness :
  0 <= 2 <= 365
  /\ (2 = 0 <-> month (mkdate 1990 11 5) = month (mkdate 2026 11 3)
                /\ day (mkdate 1990 11 5) = day (mkdate 2026 11 3)).
Proof.
  apply (days_to_birthday_within_a_year (mkdate 2026 11 3)
           (mkRecord (mkName "Alice") [] (Some (mkBirthday (Some (mkdate 1990 11 5)))))
           (mkdate 1990 11 5) 2);
    reflexivity.
Defined.

(** X23: [birthdays] and [days_to_birthday] agree.  When the clock shows
    a real date and the loop of [birthdays] ends normally, a name is in
    the listing exactly when some record of that name in the book has a
    day count, as [days_to_birthday] returns it, below 7. *)
Theorem listed_iff_within_a_week
    (today : date) (book : AddressBook)
    (upcoming : list (date * list string)) (n : string) :
  valid_date today = true ->
  birthdays_upcoming today book = Ok upcoming ->
  (exists day, filed upcoming day n)
  <-> exists record k,
        In record (dict_values book) /\ Name_value (name record) = n
        /\ fst (Record_days_to_birthday today record) = Ok (Some k)
        /\ k < 7.
Proof.
  intros Vt Hb. unfold birthdays_upcoming in Hb.
  pose proof (birthdays_loop_ok _ _ _ _ Hb) as F. split.
  - intros [day Hf]. apply F in Hf.
    destruct Hf as [Hf|(record & c & I & -> & D)]; [destruct (filed_nil _ _ Hf)|].
    destruct D as (bd & Hbd & En & W & _).
    exists record, (toordinal c - toordinal today).
    destruct (days_to_birthday_returns _ _ _ _ Vt Hbd En) as [E _].
    split; [exact I|]. split; [reflexivity|]. split; [rewrite E; reflexivity|].
    unfold sub_days in W. lia.
  - intros (record & k & I & Hn & Hk & Lt).
    destruct (days_to_birthday_value _ _ _ Hk) as (bd & c & Hbd & En & ->).
    destruct (next_occurrence_ok _ _ _ Vt En) as (Vc & _ & Ge).
    destruct (congratulation_date_of_spec c Vc) as (day & Ec & _ & _).
    exists day. apply F. right. exists record, c.
    split; [exact I|]. split; [symmetry; exact Hn|].
    exists bd. split; [exact Hbd|]. split; [exact En|]. split; [lia|exact Ec].
Qed.

Lemma listed_iff_within_a_week_witness :
  (exists day, filed [(mkdate 2026 11 5, ["Alice"]); (mkdate 2026 11 9, ["Bob"])]
                 day "Alice")
  <-> exists record k,
        In record (dict_values book_november)
        /\ Name_value (name record) = "Alice"
        /\ fst (Record_days_to_birthday (mkdate 2026 11 3) record) = Ok (Some k)
        /\ k < 7.
Proof.
  apply (listed_iff_within_a_week (mkdate 2026 11 3) book_november
           [(mkdate 2026 11 5, ["Alice"]); (mkdate 2026 11 9, ["Bob"])] "Alice");
    reflexivity.
Defined.

(** ** The listing of [birthdays] and the list of [get_upcoming_birthdays] *)

Section InsertionSort.
Context {A : Type} (leb : A -> A -> bool).
Hypothesis leb_total : forall a b, leb a b = true \/ leb b a = true.

Lemma insert_sorted_perm x l : Permutation (insert_sorted leb x l) (x :: l).
Proof.
  induction l as [|y l IH]; simpl; [apply Permutation_refl|].
  destruct (leb x y); [apply Permutation_refl|].
  eapply Permutation_trans; [apply perm_skip, IH|apply perm_swap].
Qed.

Lemma sorted_perm l : Permutation (sorted leb l) l.
Proof.
  induction l as [|x l IH]; simpl; [apply perm_nil|].
  eapply Permutation_trans; [apply insert_sorted_perm|apply perm_skip, IH].
Qed.

Lemma insert_sorted_Sorted x l :
  Sorted (fun a b => leb a b = true) l ->
  Sorted (fun a b => leb a b = true) (insert_sorted leb x l).
Proof.
  induction l as [|y l IH]; intros S; simpl.
  - apply Sorted_cons; [apply Sorted_nil|apply HdRel_nil].
  - destruct (leb x y) eqn:E.
    + apply Sorted_cons; [exact S|apply HdRel_cons; exact E].
    + apply Sorted_inv in S. destruct S as [S H].
      apply Sorted_cons; [apply IH, S|].
      assert (leb y x = true) as Hyx
        by (destruct (leb_total x y) as [T|T]; [congruence|exact T]).
      destruct l as [|z l]; simpl.
      * apply HdRel_cons. exact Hyx.
      * destruct (leb x z); apply HdRel_cons; [exact Hyx|].
        inversion H. assumption.
Qed.

Lemma sorted_Sorted l : Sorted (fun a b => leb a b = true) (sorted leb l).
Proof.
  induction l as [|x l IH]; simpl; [apply Sorted_nil|].
  apply insert_sorted_Sorted, IH.
Qed.
End InsertionSort.

Lemma date_leb_total a b : date_leb a b = true \/ date_leb b a = true.
Proof.
  unfold date_leb.
  destruct (date_ltb b a) eqn:E; [right|left; reflexivity].
  destruct (date_ltb a b) eqn:E'; [|reflexivity]. exfalso.
  unfold date_ltb in E, E'.
  repeat match goal with
         | H : context [?x <? ?y] |- _ => destruct (Z.ltb_spec x y)
         | H : context [?x =? ?y] |- _ => destruct (Z.eqb_spec x y)
         end; simpl in *; try discriminate; lia.
Qed.

Lemma date_leb_ltb a b : date_leb a b = true -> a <> b -> date_ltb a b = true.
Proof.
  unfold date_leb. intros L N. apply negb_true_iff in L.
  destruct (date_ltb a b) eqn:E; [reflexivity|]. exfalso. apply N.
  destruct (date_ltb_neither _ _ E L) as (Hy & Hm & Hd).
  destruct a, b. simpl in *. congruence.
Qed.

(** A sorted list without repetition is strictly ascending. *)
Lemma Sorted_strict days :
  Sorted (fun a b => date_leb a b = true) days -> NoDup days ->
  Sorted (fun a b => date_ltb a b = true) days.
Proof.
  induction days as [|a l IH]; intros S N; [apply Sorted_nil|].
  apply Sorted_inv in S. destruct S as [S H].
  apply NoDup_cons_iff in N. destruct N as [Na N].
  apply Sorted_cons; [apply IH; assumption|].
  destruct l as [|b l]; [apply HdRel_nil|]. apply HdRel_cons.
  apply date_leb_ltb; [inversion H; assumption|].
  intros ->. apply Na. left. reflexivity.
Qed.

(** The dictionary [upcoming] has each date once. *)
Lemma date_dict_get_none {V} k : forall d : list (date * V),
  dict_get date_eqb k d = None <-> ~ In k (dict_keys d).
Proof.
  induction d as [|[k' v'] d IH]; simpl.
  - split; auto.
  - destruct (date_eqb k' k) eqn:E.
    + apply date_eqb_eq in E. subst k'. split; [discriminate|].
      intros H. exfalso. apply H. left. reflexivity.
    + rewrite IH. split.
      * intros H [->|I]; [rewrite date_eqb_refl in E; discriminate|auto].
      * intros H I. apply H. right. exact I.
Qed.

Lemma date_dict_keys_set {V} k (v : V) : forall d,
  dict_keys (dict_set date_eqb k v d)
  = match dict_get date_eqb k d with
    | Some _ => dict_keys d
    | None => (dict_keys d ++ [k])%list
    end.
Proof.
  induction d as [|[k' v'] d IH]; simpl; [reflexivity|].
  destruct (date_eqb k' k); simpl; [reflexivity|].
  rewrite IH. destruct (dict_get date_eqb k d); reflexivity.
Qed.

Lemma date_dict_get_in {V} k (v : V) : forall d,
  NoDup (dict_keys d) -> In (k, v) d -> dict_get date_eqb k d = Some v.
Proof.
  induction d as [|[k' v'] d IH]; simpl; intros N I; [destruct I|].
  apply NoDup_cons_iff in N. destruct N as [Nk N].
  destruct I as [[= -> ->]|I].
  - rewrite date_eqb_refl. reflexivity.
  - destruct (date_eqb k' k) eqn:E; [|apply IH; assumption].
    apply date_eqb_eq in E. subst k'. exfalso. apply Nk.
    apply (in_map fst) in I. exact I.
Qed.

Lemma setdefault_append_nodup up D nm :
  NoDup (dict_keys up) -> NoDup (dict_keys (setdefault_append up D nm)).
Proof.
  intros N. unfold setdefault_append.
  destruct (dict_get date_eqb D up) as [names|] eqn:G;
    rewrite date_dict_keys_set, G; [exact N|].
  apply date_dict_get_none in G.
  apply NoDup_app; [exact N|apply NoDup_cons; [intros []|apply NoDup_nil]|].
  intros k I [<-|[]]. contradiction.
Qed.

Lemma birthdays_loop_nodup today records : forall up up',
  for_each (birthdays_step today) records up = Ok up' ->
  NoDup (dict_keys up) -> NoDup (dict_keys up').
Proof.
  induction records as [|r records IH]; intros up up' H N.
  - injection H as <-. exact N.
  - simpl in H.
    destruct (birthdays_step today up r) as [up1|e] eqn:E; simpl in H;
      [|discriminate].
    apply (IH _ _ H). unfold birthdays_step in E.
    destruct (birthday r) as [[[bd|]]|]; cbn [Birthday_value] in E;
      try (injection E as <-; exact N).
    destruct (next_occurrence today bd) as [c|]; simpl in E; [|discriminate].
    destruct ((0 <=? sub_days c today) && (sub_days c today <? 7));
      [|injection E as <-; exact N].
    destruct (congratulation_date_of c) as [day|]; simpl in E; [|discriminate].
    injection E as <-. apply setdefault_append_nodup, N.
Qed.

(** X24: the listing of [birthdays].  When the loop has found someone,
    the answer has one line for each date under which a name is filed;
    the lines come by strictly ascending date, each date once; and a line
    holds the date and all the names filed under that date, in ascending
    order. *)
Theorem birthdays_listing_is_ordered
    (libc : c_library) (today : date) (book : AddressBook)
    (upcoming : list (date * list string)) :
  birthdays_upcoming today book = Ok upcoming -> upcoming <> [] ->
  exists days,
    birthdays libc today [] book
    = (Ok (join NL (map (report_line libc upcoming) days)), book)
    /\ Permutation days (dict_keys upcoming)
    /\ Sorted (fun a b => date_ltb a b = true) days
    /\ forall day names,
         In (day, names) upcoming ->
         report_line libc upcoming day
         = strftime libc day "%d.%m.%Y" ++ ": "
             ++ join ", " (sorted String.leb names)
         /\ Permutation (sorted String.leb names) names
         /\ Sorted (fun a b => String.leb a b = true) (sorted String.leb names).
Proof.
  intros Hb Hne.
  assert (NoDup (dict_keys upcoming)) as N
    by (apply (birthdays_loop_nodup _ _ _ _ Hb); apply NoDup_nil).
  exists (sorted date_leb (dict_keys upcoming)). split.
  - unfold birthdays, input_error, birthdays_func, bind, get, lift, ret.
    rewrite Hb. destruct upcoming; [contradiction|reflexivity].
  - split; [apply sorted_perm|]. split.
    + apply Sorted_strict; [apply sorted_Sorted, date_leb_total|].
      eapply Permutation_NoDup; [apply Permutation_sym, sorted_perm|exact N].
    + intros day names I. unfold report_line.
      rewrite (date_dict_get_in _ _ _ N I).
      split; [reflexivity|]. split; [apply sorted_perm|].
      apply sorted_Sorted, String.leb_total.
Qed.

Lemma birthdays_listing_is_ordered_witness :
  exists days,
    birthdays year_as_is (mkdate 2026 11 3) [] book_november
    = (Ok (join NL
             (map (report_line year_as_is
                     [(mkdate 2026 11 5, ["Alice"]); (mkdate 2026 11 9, ["Bob"])])
                  days)), book_november)
    /\ Permutation days
         (dict_keys [(mkdate 2026 11 5, ["Alice"]); (mkdate 2026 11 9, ["Bob"])])
    /\ Sorted (fun a b => date_ltb a b = true) days
    /\ forall day names,
         In (day, names)
            [(mkdate 2026 11 5, ["Alice"]); (mkdate 2026 11 9, ["Bob"])] ->
         report_line year_as_is
           [(mkdate 2026 11 5, ["Alice"]); (mkdate 2026 11 9, ["Bob"])] day
         = strftime year_as_is day "%d.%m.%Y" ++ ": "
             ++ join ", " (sorted String.leb names)
         /\ Permutation (sorted String.leb names) names
         /\ Sorted (fun a b => String.leb a b = true) (sorted String.leb names).
Proof.
  apply (birthdays_listing_is_ordered year_as_is (mkdate 2026 11 3)
           book_november
           [(mkdate 2026 11 5, ["Alice"]); (mkdate 2026 11 9, ["Bob"])]);
    [reflexivity|discriminate].
Defined.

(** *** [get_upcoming_birthdays] *)

Lemma for_each_app {S X} (body : S -> X -> result S) xs ys : forall s,
  for_each body (xs ++ ys) s
  = (s' <- for_each body xs s ;; for_each body ys s').
Proof.
  induction xs as [|x xs IH]; intros s; simpl; [reflexivity|].
  destruct (body s x) as [s1|e]; simpl; [apply IH|reflexivity].
Qed.

Lemma get_upcoming_birthdays_step_acc libc today acc user :
  get_upcoming_birthdays_step libc today acc user
  = (r <- get_upcoming_birthdays_step libc today [] user ;; Ok (acc ++ r)%list).
Proof.
  unfold get_upcoming_birthdays_step.
  destruct (subscript user "birthday") as [s|]; simpl; [|reflexivity].
  destruct (strptime s "%Y.%m.%d") as [bd|]; simpl; [|reflexivity].
  destruct (next_occurrence today bd) as [c|]; simpl; [|reflexivity].
  destruct ((0 <=? sub_days c today) && (sub_days c today <? 7));
    [|simpl; rewrite app_nil_r; reflexivity].
  destruct (congratulation_date_of c) as [day|]; simpl; [|reflexivity].
  destruct (subscript user "name") as [nm|]; simpl; reflexivity.
Qed.

Lemma get_upcoming_birthdays_loop_acc libc today users : forall acc,
  for_each (get_upcoming_birthdays_step libc today) users acc
  = (r <- for_each (get_upcoming_birthdays_step libc today) users [] ;;
     Ok (acc ++ r)%list).
Proof.
  induction users as [|u users IH]; intros acc; simpl.
  - rewrite app_nil_r. reflexivity.
  - rewrite get_upcoming_birthdays_step_acc.
    destruct (get_upcoming_birthdays_step libc today [] u) as [r|e]; simpl;
      [|reflexivity].
    rewrite IH. rewrite (IH r).
    destruct (for_each (get_upcoming_birthdays_step libc today) users [])
      as [r'|e]; simpl; [|reflexivity].
    rewrite app_assoc. reflexivity.
Qed.

(** X25: [get_upcoming_birthdays] treats the users one by one and in
    order.  The result for a list of users followed by another list is the
    result for the first list followed by the result for the second; and
    when either raises, so does the whole, with the exception of the
    first list when both do. *)
Theorem get_upcoming_birthdays_in_order
    (libc : c_library) (today : date) (users1 users2 : list user_dict) :
  get_upcoming_birthdays libc today (users1 ++ users2)
  = (out1 <- get_upcoming_birthdays libc today users1 ;;
     out2 <- get_upcoming_birthdays libc today users2 ;;
     Ok (out1 ++ out2)%list).
Proof.
  unfold get_upcoming_birthdays. rewrite for_each_app.
  destruct (for_each (get_upcoming_birthdays_step libc today) users1 [])
    as [out1|e]; simpl; [|reflexivity].
  apply get_upcoming_birthdays_loop_acc.
Qed.

(** X26: the key [name] is read only for a user whose birthday is within
    a week.  For a user without that key, with a birthday that parses and
    has a next occurrence, [get_upcoming_birthdays] raises
    [KeyError('name')] when the next occurrence is less than seven days
    ahead, and otherwise passes the user over without complaint; a user
    without the key [birthday] always raises [KeyError('birthday')]. *)
Theorem name_is_read_only_when_upcoming
    (libc : c_library) (today : date) (user : user_dict)
    (s : string) (bd c : date) :
  valid_date today = true ->
  dict_get String.eqb "name" user = None ->
  dict_get String.eqb "birthday" user = Some s ->
  strptime s "%Y.%m.%d" = Ok bd ->
  next_occurrence today bd = Ok c ->
  get_upcoming_birthdays libc today [user]
  = (if sub_days c today <? 7 then Raise (KeyError "name") else Ok [])
  /\ forall other, dict_get String.eqb "birthday" other = None ->
       get_upcoming_birthdays libc today [other] = Raise (KeyError "birthday").
Proof.
  intros Vt Hn Hs Hp En. split.
  - unfold get_upcoming_birthdays. cbn [for_each].
    unfold get_upcoming_birthdays_step, subscript. rewrite Hs. simpl.
    rewrite Hp. simpl. rewrite En. simpl.
    destruct (next_occurrence_ok _ _ _ Vt En) as (Vc & _ & Ge).
    apply Z.leb_le in Ge. rewrite Ge. simpl.
    destruct (sub_days c today <? 7); [|reflexivity].
    destruct (congratulation_date_of_spec c Vc) as (day & -> & _). simpl.
    rewrite Hn. reflexivity.
  - intros other Ho. unfold get_upcoming_birthdays. cbn [for_each].
    unfold get_upcoming_birthdays_step, subscript. rewrite Ho. reflexivity.
Qed.

Lemma name_is_read_only_when_upcoming_witness :
  get_upcoming_birthdays year_as_is (mkdate 2026 11 3)
    [[("birthday", "1985.11.08")]]
  = (if sub_days (mkdate 2026 11 8) (mkdate 2026 11 3) <? 7
     then Raise (KeyError "name") else Ok [])
  /\ forall other, dict_get String.eqb "birthday" other = None ->
       get_upcoming_birthdays year_as_is (mkdate 2026 11 3) [other]
       = Raise (KeyError "birthday").
Proof.
  apply (name_is_read_only_when_upcoming year_as_is (mkdate 2026 11 3)
           [("birthday", "1985.11.08")] "1985.11.08" (mkdate 1985 11 8)
           (mkdate 2026 11 8));
    reflexivity.
Defined.
